(** * C4 repository analytics: the matching and progress-scoring engine

    A shallow embedding of the core of [src/app.py]: element extraction
    from the architecture document, link inspection, repository-URL
    normalisation and matching, progress scoring and the aggregate
    counts, together with the properties proved about them.

    Conventions of the embedding.
    - Python values coming from [json.loads] are terms of [json]; a [dict]
      is an association list in insertion order.
    - A Python expression that can raise is a computation in [result];
      [Raise] carries the exception class.
    - A function that mutates an argument in place returns the argument's
      final value next to its result (explicit state passing).
    - A [str] is a [string]: the sequence of its code points, all below
      256 (Latin-1).  Text with other characters is outside the model. *)

From Stdlib Require Import String Ascii List ZArith NArith QArith Bool Lia Arith.
From Stdlib Require Import DecimalString.
Import ListNotations.
Close Scope Q_scope.
Local Open Scope string_scope.

(* ===================================================================== *)
(** ** Exceptions *)

Inductive exn : Type :=
| TypeError
| KeyError
| AttributeError
| ValueError
| ZeroDivisionError.

Inductive result (A : Type) : Type :=
| Ok (a : A)
| Raise (e : exn).

Arguments Ok {A} a.
Arguments Raise {A} e.

Definition bind {A B : Type} (c : result A) (k : A -> result B) : result B :=
  match c with
  | Ok a => k a
  | Raise e => Raise e
  end.

Notation "x <- c ;; k" := (bind c (fun x => k))
  (at level 61, c at next level, right associativity).

Definition succeeds {A : Type} (c : result A) : Prop :=
  exists a, c = Ok a.

(* ===================================================================== *)
(** ** Strings *)

(** The code points below 256 that [str.lower] changes: 'A' to 'Z', and
    U+00C0 to U+00DE without the multiplication sign U+00D7. *)
Definition is_upper (c : ascii) : bool :=
  let n := nat_of_ascii c in
  ((65 <=? n)%nat && (n <=? 90)%nat) ||
  ((192 <=? n)%nat && (n <=? 222)%nat && negb (n =? 215)%nat).

(** [c.lower()]: the lowercase letter is 32 code points further. *)
Definition lower_char (c : ascii) : ascii :=
  if is_upper c then ascii_of_nat (nat_of_ascii c + 32) else c.

(** [s.lower()] *)
Fixpoint lower (s : string) : string :=
  match s with
  | EmptyString => EmptyString
  | String c r => String (lower_char c) (lower r)
  end.

Definition is_slash (c : ascii) : bool := Ascii.eqb c "/"%char.

Definition is_empty (s : string) : bool :=
  match s with
  | EmptyString => true
  | String _ _ => false
  end.

(** [s.rstrip('/')]: every trailing slash goes. *)
Fixpoint rstrip_slash (s : string) : string :=
  match s with
  | EmptyString => EmptyString
  | String c r =>
      let r' := rstrip_slash r in
      if is_slash c && is_empty r' then EmptyString else String c r'
  end.

(** [needle in hay] for two [str]: the substring test. *)
Fixpoint is_substring (needle hay : string) : bool :=
  prefix needle hay ||
  match hay with
  | EmptyString => false
  | String _ r => is_substring needle r
  end.

Fixpoint chars (s : string) : list string :=
  match s with
  | EmptyString => []
  | String c r => String c EmptyString :: chars r
  end.

Fixpoint mem_string (s : string) (l : list string) : bool :=
  match l with
  | [] => false
  | x :: r => String.eqb s x || mem_string s r
  end.

(* ===================================================================== *)
(** ** Dictionaries (insertion ordered) *)

Section Dict.
Context {V : Type}.

Definition dict := list (string * V).

Fixpoint dict_get (d : dict) (k : string) : option V :=
  match d with
  | [] => None
  | (k', v) :: r => if String.eqb k k' then Some v else dict_get r k
  end.

Definition dict_mem (d : dict) (k : string) : bool :=
  match dict_get d k with
  | Some _ => true
  | None => false
  end.

(** [d[k] = v]: an existing key keeps its place, a new one goes last. *)
Fixpoint dict_set (d : dict) (k : string) (v : V) : dict :=
  match d with
  | [] => [(k, v)]
  | (k', v') :: r =>
      if String.eqb k k' then (k', v) :: r else (k', v') :: dict_set r k v
  end.

Definition dict_keys (d : dict) : list string := map fst d.
End Dict.

Arguments dict V : clear implicits.

(* ===================================================================== *)
(** ** JSON values and the Python operators the program applies to them *)

(** A number is kept as an integer: the program tests numbers for truth
    and never computes with them. *)
#[warnings="-register-all"]
Inductive json : Type :=
| JNull
| JBool (b : bool)
| JNum (n : Z)
| JStr (s : string)
| JArr (xs : list json)
| JObj (kvs : list (string * json)).

(** [bool(v)] *)
Definition truthy (v : json) : bool :=
  match v with
  | JNull => false
  | JBool b => b
  | JNum n => negb (n =? 0)%Z
  | JStr s => negb (is_empty s)
  | JArr xs => match xs with [] => false | _ :: _ => true end
  | JObj kvs => match kvs with [] => false | _ :: _ => true end
  end.

(** [v == s] for a [str] constant [s] *)
Definition eq_str (v : json) (s : string) : bool :=
  match v with
  | JStr t => String.eqb t s
  | _ => false
  end.

(** [k in v] for a [str] constant [k] *)
Definition py_contains (k : string) (v : json) : result bool :=
  match v with
  | JObj kvs => Ok (dict_mem kvs k)
  | JArr xs => Ok (existsb (fun x => eq_str x k) xs)
  | JStr s => Ok (is_substring k s)
  | JNull | JBool _ | JNum _ => Raise TypeError
  end.

(** [v[k]] for a [str] constant [k] *)
Definition py_getitem (v : json) (k : string) : result json :=
  match v with
  | JObj kvs =>
      match dict_get kvs k with
      | Some x => Ok x
      | None => Raise KeyError
      end
  | _ => Raise TypeError
  end.

(** [v[k] = x]; the value of the object afterwards *)
Definition py_setitem (v : json) (k : string) (x : json) : result json :=
  match v with
  | JObj kvs => Ok (JObj (dict_set kvs k x))
  | _ => Raise TypeError
  end.

(** [v.items()] *)
Definition py_items (v : json) : result (list (string * json)) :=
  match v with
  | JObj kvs => Ok kvs
  | _ => Raise AttributeError
  end.

(** [v.get(k, default)] *)
Definition py_get (v : json) (k : string) (default : json) : result json :=
  match v with
  | JObj kvs =>
      match dict_get kvs k with
      | Some x => Ok x
      | None => Ok default
      end
  | _ => Raise AttributeError
  end.

(** [for x in v] *)
Definition py_iter (v : json) : result (list json) :=
  match v with
  | JArr xs => Ok xs
  | JObj kvs => Ok (map (fun kv => JStr (fst kv)) kvs)
  | JStr s => Ok (map JStr (chars s))
  | JNull | JBool _ | JNum _ => Raise TypeError
  end.

(** [v in l] for a list [l] of [str] *)
Definition in_str_list (v : json) (l : list string) : bool :=
  match v with
  | JStr s => mem_string s l
  | _ => false
  end.

(* ===================================================================== *)
(** ** Element extractor ([extract_elements]) *)

(** The test of the loop body:
    ['kind' in element_data and element_data['kind'] in target_kinds]. *)
Definition kind_selected (element_data : json) (target_kinds : list string)
  : result bool :=
  has_kind <- py_contains "kind" element_data ;;
  if has_kind : bool then
    kind <- py_getitem element_data "kind" ;;
    Ok (in_str_list kind target_kinds)
  else Ok false.

(** The [for element_id, element_data in ....items()] loop.  The first
    component is the mapping after the loop: a selected entry has been
    given its key as ['id'], in place.  When an iteration raises, the
    entries visited before keep their new field. *)
Fixpoint extract_loop (items : list (string * json)) (target_kinds : list string)
  : list (string * json) * result (list json) :=
  match items with
  | [] => ([], Ok [])
  | (element_id, element_data) :: rest =>
      match kind_selected element_data target_kinds with
      | Raise e => (items, Raise e)
      | Ok false =>
          let (rest', r) := extract_loop rest target_kinds in
          ((element_id, element_data) :: rest', r)
      | Ok true =>
          match py_setitem element_data "id" (JStr element_id) with
          | Raise e => (items, Raise e)
          | Ok element_data' =>
              let (rest', r) := extract_loop rest target_kinds in
              ((element_id, element_data') :: rest',
               elements <- r ;; Ok (element_data' :: elements))
          end
      end
  end.

(** Writes the mapping of elements back at the place it was read from. *)
Definition store_at (v : json) (k : string) (x : json) : json :=
  match v with
  | JObj kvs => JObj (dict_set kvs k x)
  | _ => v
  end.

(** [c4_data and 'elements' in c4_data] *)
Definition has_top_level_elements (c4_data : json) : result bool :=
  if truthy c4_data then py_contains "elements" c4_data else Ok false.

(** [c4_data and 'specification' in c4_data
     and 'elements' in c4_data['specification']] *)
Definition has_specification_elements (c4_data : json) : result bool :=
  if truthy c4_data then
    has_spec <- py_contains "specification" c4_data ;;
    if has_spec : bool then
      spec <- py_getitem c4_data "specification" ;;
      py_contains "elements" spec
    else Ok false
  else Ok false.

(** [extract_elements(c4_data, target_kinds)]: the document as the call
    leaves it, and the list returned (or the exception raised). *)
Definition extract_elements (c4_data : json) (target_kinds : list string)
  : json * result (list json) :=
  match has_top_level_elements c4_data with
  | Raise e => (c4_data, Raise e)
  | Ok true =>
      match (m <- py_getitem c4_data "elements" ;; py_items m) with
      | Raise e => (c4_data, Raise e)
      | Ok items =>
          let (items', r) := extract_loop items target_kinds in
          (store_at c4_data "elements" (JObj items'), r)
      end
  | Ok false =>
      match has_specification_elements c4_data with
      | Raise e => (c4_data, Raise e)
      | Ok true =>
          match (spec <- py_getitem c4_data "specification" ;;
                 m <- py_getitem spec "elements" ;;
                 items <- py_items m ;;
                 Ok (spec, items)) with
          | Raise e => (c4_data, Raise e)
          | Ok (spec, items) =>
              let (items', r) := extract_loop items target_kinds in
              (store_at c4_data "specification"
                 (store_at spec "elements" (JObj items')), r)
          end
      | Ok false => (c4_data, Ok [])
      end
  end.

(* ===================================================================== *)
(** ** Link inspector ([check_element_links], [get_repository_url]) *)

(** [{link_type: False for link_type in link_types}] *)
Definition all_false (link_types : list string) : dict bool :=
  fold_left (fun d link_type => dict_set d link_type false) link_types [].

(** ['title' in link and link['title'] in link_types]; the title when the
    test holds (it is then a [str], as the members of [link_types] are). *)
Definition title_selected (link : json) (link_types : list string)
  : result (option string) :=
  has_title <- py_contains "title" link ;;
  if has_title : bool then
    title <- py_getitem link "title" ;;
    Ok (match title with
        | JStr t => if mem_string t link_types then Some t else None
        | _ => None
        end)
  else Ok None.

(** The [for link in element['links']] loop of [check_element_links]. *)
Fixpoint links_loop (links : list json) (link_types : list string)
    (flags : dict bool) : result (dict bool) :=
  match links with
  | [] => Ok flags
  | link :: rest =>
      hit <- title_selected link link_types ;;
      match hit with
      | Some title => links_loop rest link_types (dict_set flags title true)
      | None => links_loop rest link_types flags
      end
  end.

(** ['links' in element and element['links']]: the value to iterate, if
    the test holds. *)
Definition links_of (element : json) : result (option json) :=
  has_links <- py_contains "links" element ;;
  if has_links : bool then
    links <- py_getitem element "links" ;;
    Ok (if truthy links then Some links else None)
  else Ok None.

Definition check_element_links (element : json) (link_types : list string)
  : result (dict bool) :=
  let flags := all_false link_types in
  links <- links_of element ;;
  match links with
  | Some links =>
      links <- py_iter links ;;
      links_loop links link_types flags
  | None => Ok flags
  end.

(** ['title' in link and link['title'] == 'repository' and 'url' in link] *)
Definition is_repository_link (link : json) : result bool :=
  has_title <- py_contains "title" link ;;
  if has_title : bool then
    title <- py_getitem link "title" ;;
    if eq_str title "repository" then py_contains "url" link else Ok false
  else Ok false.

(** The loop of [get_repository_url]; [JNull] is [None]. *)
Fixpoint repository_loop (links : list json) : result json :=
  match links with
  | [] => Ok JNull
  | link :: rest =>
      hit <- is_repository_link link ;;
      if hit : bool then py_getitem link "url" else repository_loop rest
  end.

Definition get_repository_url (element : json) : result json :=
  links <- links_of element ;;
  match links with
  | Some links =>
      links <- py_iter links ;;
      repository_loop links
  | None => Ok JNull
  end.

(* ===================================================================== *)
(** ** [urllib.parse.urlparse]

    The standard-library function the program normalises URLs with, after
    [urlsplit] and [urlparse] of CPython 3.12 ([Lib/urllib/parse.py]), in
    the revision that checks a bracketed host with
    [_check_bracketed_netloc]; the first releases of 3.12 hand the text
    between the first '[' and the next ']' to [_check_bracketed_host]
    without looking at what stands around it.  The last check of
    [urlsplit], [_checknetloc], looks in the NFKC form of a non-ASCII
    network location for one of "/?#@:": no code point below 256
    normalises to text holding one of them, so on the strings of the model
    it never raises. *)

Module UrlParse.

Record ParseResult : Type := mkParseResult {
  scheme : string;
  netloc : string;
  path : string;
  params : string;
  query : string;
  fragment : string
}.

Definition code (c : ascii) : nat := nat_of_ascii c.

Definition is_c0_or_space (c : ascii) : bool := (code c <=? 32)%nat.

Definition is_unsafe (c : ascii) : bool :=
  (code c =? 9)%nat || (code c =? 13)%nat || (code c =? 10)%nat.

Definition is_alpha (c : ascii) : bool :=
  ((65 <=? code c)%nat && (code c <=? 90)%nat) ||
  ((97 <=? code c)%nat && (code c <=? 122)%nat).

Definition is_digit (c : ascii) : bool :=
  (48 <=? code c)%nat && (code c <=? 57)%nat.

Definition is_scheme_char (c : ascii) : bool :=
  is_alpha c || is_digit c ||
  Ascii.eqb c "+"%char || Ascii.eqb c "-"%char || Ascii.eqb c "."%char.

Definition is_colon (c : ascii) : bool := Ascii.eqb c ":"%char.
Definition is_hash (c : ascii) : bool := Ascii.eqb c "#"%char.
Definition is_question (c : ascii) : bool := Ascii.eqb c "?"%char.
Definition is_semicolon (c : ascii) : bool := Ascii.eqb c ";"%char.
Definition is_netloc_delim (c : ascii) : bool :=
  is_slash c || is_question c || is_hash c.

(** [url.lstrip(_WHATWG_C0_CONTROL_OR_SPACE)] *)
Fixpoint lstrip_c0_space (s : string) : string :=
  match s with
  | EmptyString => EmptyString
  | String c r => if is_c0_or_space c then lstrip_c0_space r else s
  end.

(** [url.replace(b, "")] for the three unsafe bytes *)
Fixpoint remove_unsafe (s : string) : string :=
  match s with
  | EmptyString => EmptyString
  | String c r =>
      if is_unsafe c then remove_unsafe r else String c (remove_unsafe r)
  end.

Fixpoint all_chars (p : ascii -> bool) (s : string) : bool :=
  match s with
  | EmptyString => true
  | String c r => p c && all_chars p r
  end.

Fixpoint any_char (p : ascii -> bool) (s : string) : bool :=
  match s with
  | EmptyString => false
  | String c r => p c || any_char p r
  end.

(** Cuts [s] before its first character satisfying [p]. *)
Fixpoint break_on (p : ascii -> bool) (s : string) : string * string :=
  match s with
  | EmptyString => (EmptyString, EmptyString)
  | String c r =>
      if p c then (EmptyString, s)
      else let (a, b) := break_on p r in (String c a, b)
  end.

(** The scheme, when the text before the first colon is one, and what
    follows the colon. *)
Definition split_scheme (url : string) : string * string :=
  let (before, rest) := break_on is_colon url in
  match before, rest with
  | String c0 _, String _ after =>
      if is_alpha c0 && all_chars is_scheme_char before
      then (lower before, after)
      else (EmptyString, url)
  | _, _ => (EmptyString, url)
  end.

(** [if url[:2] == '//': netloc, url = _splitnetloc(url, 2)] *)
Definition split_netloc (url : string) : string * string :=
  match url with
  | String c1 (String c2 r) =>
      if is_slash c1 && is_slash c2 then break_on is_netloc_delim r
      else (EmptyString, url)
  | _ => (EmptyString, url)
  end.

Definition is_lbracket (c : ascii) : bool := Ascii.eqb c "["%char.
Definition is_rbracket (c : ascii) : bool := Ascii.eqb c "]"%char.

Definition brackets_unbalanced (netloc : string) : bool :=
  xorb (any_char is_lbracket netloc) (any_char is_rbracket netloc).

Definition is_dot (c : ascii) : bool := Ascii.eqb c "."%char.
Definition is_percent (c : ascii) : bool := Ascii.eqb c "%"%char.
Definition is_at (c : ascii) : bool := Ascii.eqb c "@"%char.
Definition is_newline (c : ascii) : bool := (code c =? 10)%nat.

Definition is_hex_digit (c : ascii) : bool :=
  is_digit c ||
  ((65 <=? code c)%nat && (code c <=? 70)%nat) ||
  ((97 <=? code c)%nat && (code c <=? 102)%nat).

(** *** [ipaddress.ip_address], as far as the check of a bracketed host
    goes: whether the constructors return or raise. *)

(** [s.split(sep)] for a separator of one character *)
Fixpoint split (sep : ascii -> bool) (s : string) : list string :=
  match s with
  | EmptyString => [EmptyString]
  | String c r =>
      if sep c then EmptyString :: split sep r
      else match split sep r with
           | piece :: pieces => String c piece :: pieces
           | [] => [String c EmptyString]
           end
  end.

(** [int(s, 10)] on decimal digits *)
Fixpoint int10 (s : string) (acc : N) : N :=
  match s with
  | EmptyString => acc
  | String c r => int10 r (10 * acc + (N_of_ascii c - 48))%N
  end.

(** [IPv4Address._parse_octet] returns *)
Definition parse_octet (octet_str : string) : bool :=
  negb (is_empty octet_str) &&
  all_chars is_digit octet_str &&
  (String.length octet_str <=? 3)%nat &&
  negb (negb (String.eqb octet_str "0") && prefix "0" octet_str) &&
  (int10 octet_str 0 <=? 255)%N.

(** [IPv4Address(address)] returns *)
Definition IPv4Address (address : string) : bool :=
  negb (any_char is_slash address) &&
  negb (is_empty address) &&
  let octets := split is_dot address in
  (length octets =? 4)%nat && forallb parse_octet octets.

(** [IPv6Address._parse_hextet] returns *)
Definition parse_hextet (hextet_str : string) : bool :=
  all_chars is_hex_digit hextet_str &&
  (String.length hextet_str <=? 4)%nat &&
  negb (is_empty hextet_str).

(** [IPv6Address._split_scope_id]: the address without its scope, [None]
    when it raises *)
Definition split_scope_id (ip_str : string) : option string :=
  let (addr, rest) := break_on is_percent ip_str in
  match rest with
  | EmptyString => Some addr
  | String _ scope_id =>
      if is_empty scope_id || any_char is_percent scope_id then None
      else Some addr
  end.

(** [IPv6Address._ip_int_from_string] returns.  An IPv4-style suffix has
    to be an IPv4 address and is replaced by its two hextets, written "0"
    here: only their being hextets matters.  [skipped] lists the indices
    of the empty parts between the first and the last, where the loop
    raises on a second one.  (The defaults of [nth], [hd] and [last] are
    never read: the list has three parts at least.) *)
Definition ip6_int_from_string (ip_str : string) : bool :=
  negb (is_empty ip_str) &&
  let parts := split is_colon ip_str in
  (3 <=? length parts)%nat &&
  let suffix := last parts "x" in
  (if any_char is_dot suffix then IPv4Address suffix else true) &&
  let parts := if any_char is_dot suffix
               then (removelast parts ++ ["0"; "0"])%list else parts in
  (length parts <=? 9)%nat &&
  let skipped := filter (fun i => is_empty (nth i parts "x"))
                   (seq 1 (length parts - 2)) in
  match skipped with
  | _ :: _ :: _ => false
  | [skip_index] =>
      let first_empty := is_empty (hd "x" parts) in
      let last_empty := is_empty (last parts "x") in
      let parts_hi := if first_empty then skip_index - 1 else skip_index in
      let parts_lo := length parts - skip_index - 1 in
      let parts_lo := if last_empty then parts_lo - 1 else parts_lo in
      negb (first_empty && negb (parts_hi =? 0))%nat &&
      negb (last_empty && negb (parts_lo =? 0))%nat &&
      (parts_hi + parts_lo <=? 7)%nat &&
      forallb parse_hextet (firstn parts_hi parts) &&
      forallb parse_hextet (skipn (length parts - parts_lo) parts)
  | [] =>
      (length parts =? 8)%nat &&
      negb (is_empty (hd "x" parts)) &&
      negb (is_empty (last parts "x")) &&
      forallb parse_hextet parts
  end.

(** [IPv6Address(address)] returns *)
Definition IPv6Address (address : string) : bool :=
  negb (any_char is_slash address) &&
  match split_scope_id address with
  | Some addr_str => ip6_int_from_string addr_str
  | None => false
  end.

(** *** The checks of a network location with brackets *)

(** [_check_bracketed_host(hostname)] returns.  A host that starts with
    'v' has to match the IPvFuture pattern, "v", hexadecimal digits, a
    dot and one character at least, none a line feed
    ([re.match(r"\Av[a-fA-F0-9]+\..+\Z", hostname)]); any other host has to
    be, for [ipaddress.ip_address], an address and not an IPv4 one. *)
Definition check_bracketed_host (hostname : string) : bool :=
  match hostname with
  | String "v" after_v =>
      let (digits, rest) :=
        break_on (fun c => negb (is_hex_digit c)) after_v in
      negb (is_empty digits) &&
      match rest with
      | String "." tail =>
          negb (is_empty tail) && negb (any_char is_newline tail)
      | _ => false
      end
  | _ => negb (IPv4Address hostname) && IPv6Address hostname
  end.

(** The text after the last character satisfying [p], all of [s] when
    there is none: [s.rpartition(sep)[2]]. *)
Fixpoint after_last (p : ascii -> bool) (s : string) : string :=
  match s with
  | EmptyString => EmptyString
  | String c r => if any_char p r then after_last p r
                  else if p c then r else s
  end.

(** [_check_bracketed_netloc(netloc)] returns: nothing stands before the
    opening bracket of the host, after the closing one comes nothing or a
    colon, and the host passes its check.  Without '[' after the last '@'
    the host is the text before the first colon. *)
Definition check_bracketed_netloc (netloc : string) : bool :=
  let hostname_and_port := after_last is_at netloc in
  let (before_bracket, rest) := break_on is_lbracket hostname_and_port in
  match rest with
  | String _ bracketed =>
      is_empty before_bracket &&
      let (hostname, rest) := break_on is_rbracket bracketed in
      let port := match rest with
                  | String _ port => port
                  | EmptyString => EmptyString
                  end in
      negb (negb (is_empty port) && negb (prefix ":" port)) &&
      check_bracketed_host hostname
  | EmptyString =>
      let (hostname, _) := break_on is_colon hostname_and_port in
      check_bracketed_host hostname
  end.

(** The two checks of [urlsplit] on the network location, [true] when one
    of them raises [ValueError]:
    [if ('[' in netloc and ']' not in netloc) or
        (']' in netloc and '[' not in netloc): raise ...] and
    [if '[' in netloc and ']' in netloc: _check_bracketed_netloc(netloc)]. *)
Definition netloc_refused (netloc : string) : bool :=
  brackets_unbalanced netloc ||
  (any_char is_lbracket netloc && any_char is_rbracket netloc &&
   negb (check_bracketed_netloc netloc)).

Definition urlsplit (url : string) : result ParseResult :=
  let url := remove_unsafe (lstrip_c0_space url) in
  let (scheme, url) := split_scheme url in
  let (netloc, url) := split_netloc url in
  if netloc_refused netloc then Raise ValueError
  else
    let (url, fragment) := break_on is_hash url in
    let (url, query) := break_on is_question url in
    Ok (mkParseResult scheme netloc url EmptyString
          (match query with String _ q => q | EmptyString => EmptyString end)
          (match fragment with String _ f => f | EmptyString => EmptyString end)).

Definition uses_params : list string :=
  [""; "ftp"; "hdl"; "prospero"; "http"; "imap"; "https"; "shttp"; "rtsp";
   "rtspu"; "sip"; "sips"; "mms"; "sftp"; "tel"].

(** [_splitparams]: the cut is at the first semicolon of the last
    segment of the path. *)
Fixpoint splitparams (url : string) : string * string :=
  match url with
  | EmptyString => (EmptyString, EmptyString)
  | String c r =>
      if is_semicolon c && negb (any_char is_slash r) then (EmptyString, r)
      else let (a, b) := splitparams r in (String c a, b)
  end.

Definition urlparse (url : string) : result ParseResult :=
  r <- urlsplit url ;;
  if mem_string (scheme r) uses_params && any_char is_semicolon (path r)
  then
    let (url, params) := splitparams (path r) in
    Ok (mkParseResult (scheme r) (netloc r) url params (query r) (fragment r))
  else Ok r.

End UrlParse.

(** [urlparse(v)] for a value that need not be a [str]: the library looks
    for [decode] on anything else. *)
Definition urlparse_value (v : json) : result UrlParse.ParseResult :=
  match v with
  | JStr s => UrlParse.urlparse s
  | _ => Raise AttributeError
  end.

(** [f"{parsed_url.netloc}{parsed_url.path}".rstrip('/').lower()] *)
Definition identity_of (parsed_url : UrlParse.ParseResult) : string :=
  lower (rstrip_slash (UrlParse.netloc parsed_url ++ UrlParse.path parsed_url)).

(** The two normalisation lines of [match_repositories], as one function
    of the URL text. *)
Definition normalized_url (url : string) : result string :=
  parsed_url <- UrlParse.urlparse url ;;
  Ok (identity_of parsed_url).

(* ===================================================================== *)
(** ** The uploaded table

    The [DataFrame] that [pd.read_csv] builds from the uploaded file: its
    column labels and its rows; a row is the [Series] that [iterrows]
    yields, the cells keyed by column label.  A cell is a [str] or, where
    the field of the file is empty, the missing value [NaN] (a float);
    columns that pandas reads as numbers or booleans are outside the
    model. *)

Inductive cell : Type :=
| Text (s : string)
| NaN.

Coercion Text : string >-> cell.

(** [bool(cell)]: a [str] is true unless it is empty, [NaN] is true. *)
Definition cell_truthy (c : cell) : bool :=
  match c with
  | Text s => negb (is_empty s)
  | NaN => true
  end.

(** [str(cell)] *)
Definition cell_str (c : cell) : string :=
  match c with
  | Text s => s
  | NaN => "nan"
  end.

Definition Series : Type := dict cell.

(** [shares_nan] tells whether the missing cells the frame hands out are
    one and the same float object.  [NaN] is equal to nothing, itself
    included, so a set that holds a missing cell answers [nan in s] by
    the identity of the object alone.  That depends on how pandas stores
    the column (references to the one [np.nan] in a column of dtype
    object, a float boxed anew at each access of a float64 column): the
    model takes it as given. *)
Record DataFrame : Type := mkDataFrame {
  columns : list string;
  rows : list Series;
  shares_nan : bool
}.

(** [len(df)] *)
Definition len_df (df : DataFrame) : nat := length (rows df).

(** [row.get(label, default)] *)
Definition series_get (row : Series) (label : string) (default : cell) : cell :=
  match dict_get row label with
  | Some cell => cell
  | None => default
  end.

(** The search for the URL column:
    [for column in columns: if column.lower() == 'url': ...; break]. *)
Fixpoint find_url_column (columns : list string) : option string :=
  match columns with
  | [] => None
  | column :: rest =>
      if String.eqb (lower column) "url" then Some column
      else find_url_column rest
  end.

(* ===================================================================== *)
(** ** Repository matcher ([match_repositories]) *)

Record Match : Type := mkMatch {
  csv_repo : Series;
  c4_element : json
}.

(** First loop: the map from normalised URL to element. *)
Fixpoint element_repos_loop (elements : list json) (element_repos : dict json)
  : result (dict json) :=
  match elements with
  | [] => Ok element_repos
  | element :: rest =>
      repo_url <- get_repository_url element ;;
      if truthy repo_url then
        parsed_url <- urlparse_value repo_url ;;
        let normalized_url := identity_of parsed_url in
        element_repos_loop rest (dict_set element_repos normalized_url element)
      else element_repos_loop rest element_repos
  end.

(** [url_column in row and row[url_column]]: when the test holds, the
    text [str(row[url_column])] that is normalised. *)
Definition url_cell (row : Series) (url_column : string) : option string :=
  match dict_get row url_column with
  | Some cell => if cell_truthy cell then Some (cell_str cell) else None
  | None => None
  end.

(** Second loop: the rows whose normalised URL is a key of the map. *)
Fixpoint matches_loop (rows : list Series) (url_column : string)
    (element_repos : dict json) : result (list Match) :=
  match rows with
  | [] => Ok []
  | row :: rest =>
      match url_cell row url_column with
      | Some cell =>
          normalized_url <- normalized_url cell ;;
          matches <- matches_loop rest url_column element_repos ;;
          match dict_get element_repos normalized_url with
          | Some element => Ok (mkMatch row element :: matches)
          | None => Ok matches
          end
      | None => matches_loop rest url_column element_repos
      end
  end.

Definition match_repositories (elements : list json) (csv_data : option DataFrame)
  : result (list Match) :=
  match csv_data with
  | None => Ok []
  | Some csv_data =>
      match find_url_column (columns csv_data) with
      | None => Ok []
      | Some url_column =>
          element_repos <- element_repos_loop elements [] ;;
          matches_loop (rows csv_data) url_column element_repos
      end
  end.

(* ===================================================================== *)
(** ** Progress scorer (the "Critical Repositories Progress" block)

    [Progress] is the exact quotient; the program computes it in binary
    floating point.  The ['Links'] text [f"{present}/{total}"] is kept as
    its two numbers. *)

Inductive status : Type :=
| Complete
| Incomplete
| NotMapped.

Definition status_eqb (a b : status) : bool :=
  match a, b with
  | Complete, Complete | Incomplete, Incomplete | NotMapped, NotMapped => true
  | _, _ => false
  end.

Record ProgressRecord : Type := mkProgressRecord {
  Repository : cell;
  Element : json;
  present_link_count : nat;
  selected_link_count : nat;
  Progress : Q;
  Status : status
}.

(** [a / b] on two [int] *)
Definition truediv (a b : nat) : result Q :=
  match b with
  | O => Raise ZeroDivisionError
  | S _ => Ok (inject_Z (Z.of_nat a) / inject_Z (Z.of_nat b))%Q
  end.

(** [if 'monitoring' in link_info and link_info['monitoring']
        and 'monitor' in selected_links: link_info['monitor'] = True] *)
Definition apply_monitoring_alias (link_info : dict bool)
    (selected_links : list string) : dict bool :=
  match dict_get link_info "monitoring" with
  | Some true =>
      if mem_string "monitor" selected_links
      then dict_set link_info "monitor" true
      else link_info
  | _ => link_info
  end.

(** [sum(1 for link_type, has_link in link_info.items()
         if has_link and link_type in selected_links)] *)
Definition count_present (link_info : dict bool) (selected_links : list string)
  : nat :=
  length (filter (fun item => snd item && mem_string (fst item) selected_links)
            link_info).

(** [(present_links / total_selected) * 100 if total_selected > 0 else 0] *)
Definition progress_percent (present_links total_selected : nat) : result Q :=
  if (0 <? total_selected)%nat then
    q <- truediv present_links total_selected ;;
    Ok (q * 100)%Q
  else Ok 0%Q.

(** The body of [for match in matches]: the record appended, and the URL
    added to [matched_repo_urls]. *)
Definition score (match_ : Match) (selected_links : list string)
  : result ProgressRecord :=
  let element := c4_element match_ in
  repo_url <- get_repository_url element ;;
  let csv_repo_url := series_get (csv_repo match_) "url" "" in
  link_info <- check_element_links element selected_links ;;
  let link_info := apply_monitoring_alias link_info selected_links in
  let present_links := count_present link_info selected_links in
  let total_selected := length selected_links in
  progress_pct <- progress_percent present_links total_selected ;;
  title <- py_get element "title" (JStr "") ;;
  Ok (mkProgressRecord csv_repo_url title present_links total_selected
        progress_pct
        (if (present_links =? total_selected)%nat then Complete else Incomplete)).

Fixpoint score_loop (matches : list Match) (selected_links : list string)
  : result (list ProgressRecord * list cell) :=
  match matches with
  | [] => Ok ([], [])
  | match_ :: rest =>
      record <- score match_ selected_links ;;
      acc <- score_loop rest selected_links ;;
      Ok (record :: fst acc, Repository record :: snd acc)
  end.

Definition not_mapped_record (repo_url : cell) : ProgressRecord :=
  mkProgressRecord repo_url (JStr "Not mapped in C4") 0 0 0%Q NotMapped.

Definition is_text (s : string) (c : cell) : bool :=
  match c with
  | Text t => String.eqb s t
  | NaN => false
  end.

Definition is_nan (c : cell) : bool :=
  match c with
  | Text _ => false
  | NaN => true
  end.

(** [repo_url in matched_repo_urls]: a [str] is found when the set holds
    an equal one; a missing value is found when the set holds the same
    object. *)
Definition in_url_set (shares_nan : bool) (repo_url : cell)
    (matched_repo_urls : list cell) : bool :=
  match repo_url with
  | Text s => existsb (is_text s) matched_repo_urls
  | NaN => shares_nan && existsb is_nan matched_repo_urls
  end.

(** [for _, repo_row in all_repos.iterrows()]: the rows with a URL that is
    not in [matched_repo_urls]. *)
Fixpoint unmatched_loop (shares_nan : bool) (rows : list Series)
    (url_column : string) (matched_repo_urls : list cell)
  : list ProgressRecord :=
  match rows with
  | [] => []
  | repo_row :: rest =>
      let repo_url := series_get repo_row url_column "" in
      if cell_truthy repo_url
         && negb (in_url_set shares_nan repo_url matched_repo_urls)
      then not_mapped_record repo_url
             :: unmatched_loop shares_nan rest url_column matched_repo_urls
      else unmatched_loop shares_nan rest url_column matched_repo_urls
  end.

(** The two loops that fill [progress_data] from the matcher's pairs (the
    body of [if total_repos > 0], before the filters are read). *)
Definition progress_loops (matches : list Match) (all_repos : DataFrame)
    (selected_links : list string) : result (list ProgressRecord) :=
  scored <- score_loop matches selected_links ;;
  match find_url_column (columns all_repos) with
  | Some url_column =>
      Ok (fst scored
            ++ unmatched_loop (shares_nan all_repos) (rows all_repos)
                 url_column (snd scored))%list
  | None => Ok (fst scored)
  end.

(** [progress_data] as a function of the elements and the table of the
    session: the pairs of the matcher, then the two loops. *)
Definition progress_data (mapped_elements : list json) (all_repos : DataFrame)
    (selected_links : list string) : result (list ProgressRecord) :=
  matches <- match_repositories mapped_elements (Some all_repos) ;;
  progress_loops matches all_repos selected_links.

(** [sum(1 for p in progress_data if p['Status'] == s)] *)
Definition count_status (s : status) (progress_data : list ProgressRecord) : nat :=
  length (filter (fun p => status_eqb (Status p) s) progress_data).

(* ===================================================================== *)
(** ** Report: filters and aggregate counts *)

Record FilterSpec : Type := mkFilterSpec {
  selected_status : option status;      (* [None] is 'All' *)
  min_progress : Z;
  max_progress : Z;
  search_term : string;
  element_search : string
}.

Record Report : Type := mkReport {
  filtered : list ProgressRecord;       (* [filtered_df], before sorting *)
  shown_of : nat;                       (* [len(progress_df)] *)
  complete_repos : nat;
  incomplete_repos : nat;
  unmapped_repos : nat;
  total_repos : nat
}.

(** A cell as a value of a column of [progress_df]: the missing value is
    written [JNull]. *)
Definition cell_value (c : cell) : json :=
  match c with
  | Text s => JStr s
  | NaN => JNull
  end.

Section Reporting.

(** [column.str.contains(pattern, case=False, na=False)]: the search of
    pandas over a whole column, taken as given.  It returns one flag per
    value, or raises (a pattern that is no regular expression, a column
    on which pandas refuses the [.str] accessor).  The values of the
    ['Repository'] column are handed over as [cell_value] gives them. *)
Variable str_contains : string -> list json -> result (list bool).

Definition status_filter (f : FilterSpec) (p : ProgressRecord) : bool :=
  match selected_status f with
  | None => true
  | Some s => status_eqb (Status p) s
  end.

Definition range_filter (f : FilterSpec) (p : ProgressRecord) : bool :=
  Qle_bool (inject_Z (min_progress f)) (Progress p) &&
  Qle_bool (Progress p) (inject_Z (max_progress f)).

(** [df[mask]] *)
Definition select_rows (mask : list bool) (df : list ProgressRecord)
  : list ProgressRecord :=
  map snd (filter fst (combine mask df)).

(** [if pattern: df = df[df[column].str.contains(pattern, ...)]] *)
Definition search_filter (pattern : string) (column : ProgressRecord -> json)
    (df : list ProgressRecord) : result (list ProgressRecord) :=
  if is_empty pattern then Ok df
  else
    mask <- str_contains pattern (map column df) ;;
    Ok (select_rows mask df).

(** The four filters.  A [DataFrame] built from an empty [progress_data]
    has no columns: selecting ['Status'], ['Repository'] or ['Element']
    on it raises, the range filter supplies its own column. *)
Definition apply_filters (f : FilterSpec) (progress_data : list ProgressRecord)
  : result (list ProgressRecord) :=
  match progress_data with
  | [] =>
      match selected_status f with
      | Some _ => Raise KeyError
      | None =>
          if negb (is_empty (search_term f)) then Raise KeyError
          else if negb (is_empty (element_search f)) then Raise KeyError
          else Ok []
      end
  | _ :: _ =>
      let filtered_df := filter (status_filter f) progress_data in
      let filtered_df := filter (range_filter f) filtered_df in
      filtered_df <- search_filter (search_term f)
                       (fun p => cell_value (Repository p)) filtered_df ;;
      search_filter (element_search f) Element filtered_df
  end.

(** The block under [if st.session_state.csv_data is not None and
    len(st.session_state.mapped_elements) > 0]: the matcher is called,
    then under [if total_repos > 0] the progress is computed; [None] when
    a guard fails and no report is made. *)
Definition critical_repositories_progress (mapped_elements : list json)
    (csv_data : option DataFrame) (selected_links : list string)
    (f : FilterSpec) : result (option Report) :=
  match csv_data, mapped_elements with
  | Some all_repos, _ :: _ =>
      matches <- match_repositories mapped_elements (Some all_repos) ;;
      let total_repos := len_df all_repos in
      if (0 <? total_repos)%nat then
        progress_data <- progress_loops matches all_repos selected_links ;;
        filtered_df <- apply_filters f progress_data ;;
        Ok (Some (mkReport filtered_df
                    (length progress_data)
                    (count_status Complete progress_data)
                    (count_status Incomplete progress_data)
                    (count_status NotMapped progress_data)
                    total_repos))
      else Ok None
  | _, _ => Ok None
  end.

End Reporting.

(* ===================================================================== *)
(** ** Vocabulary of the statements

    The predicates and reference functions the properties below are
    stated with: shapes of well-formed input, the two readings of a
    sentence where the program and its description part, and the loop
    bodies of the program named so that lemmas can speak of them. *)

Import UrlParse.

(** The flags of a link inspection: one per selected kind, no key twice. *)
Definition flags_within (selected_links : list string) (d : dict bool) : Prop :=
  NoDup (dict_keys d) /\ incl (dict_keys d) selected_links.

(** The computation does not end in [ZeroDivisionError]. *)
Definition no_zero_division {A : Type} (c : result A) : Prop :=
  c <> Raise ZeroDivisionError.

(** A link that is a mapping, as in a well-formed document. *)
Definition is_mapping (v : json) : Prop := exists kvs, v = JObj kvs.

Definition title_of (link : json) : option json :=
  match link with
  | JObj kvs => dict_get kvs "title"
  | _ => None
  end.

Definition url_of (link : json) : option json :=
  match link with
  | JObj kvs => dict_get kvs "url"
  | _ => None
  end.

Definition titled_repository (link : json) : bool :=
  match title_of link with
  | Some t => eq_str t "repository"
  | None => false
  end.

Definition has_url_key (link : json) : bool :=
  match url_of link with
  | Some _ => true
  | None => false
  end.

Definition has_nonempty_url (link : json) : bool :=
  match url_of link with
  | Some u => truthy u
  | None => false
  end.

Definition url_or_null (link : option json) : json :=
  match link with
  | Some link => match url_of link with Some u => u | None => JNull end
  | None => JNull
  end.

(** The lookup as the specification words it: the first link titled
    "repository" whose URL is non-empty. *)
Definition spec_repository_url (links : list json) : json :=
  url_or_null (find (fun l => titled_repository l && has_nonempty_url l) links).

(** The lookup as the code performs it: the first link titled
    "repository" that has a ['url'] key. *)
Definition first_repository_url (links : list json) : json :=
  url_or_null (find (fun l => titled_repository l && has_url_key l) links).

(** An entry of the elements mapping is selected when its ['kind'] is one
    of the target kinds. *)
Definition entry_selected (target_kinds : list string) (entry : string * json)
  : bool :=
  match snd entry with
  | JObj fields =>
      match dict_get fields "kind" with
      | Some kind => in_str_list kind target_kinds
      | None => false
      end
  | _ => false
  end.

(** The entry as the extraction leaves it. *)
Definition with_id (target_kinds : list string) (entry : string * json)
  : string * json :=
  if entry_selected target_kinds entry
  then (fst entry, store_at (snd entry) "id" (JStr (fst entry)))
  else entry.

Definition selected_elements (target_kinds : list string)
    (items : list (string * json)) : list json :=
  map (fun entry => snd (with_id target_kinds entry))
    (filter (entry_selected target_kinds) items).

(** A document with no elements at either place: nothing truthy, or a
    mapping without ['elements'] whose ['specification'], if any, is a
    mapping without ['elements']. *)
Definition lacks_elements (c4_data : json) : Prop :=
  truthy c4_data = false \/
  exists kvs,
    c4_data = JObj kvs /\
    dict_get kvs "elements" = None /\
    (dict_get kvs "specification" = None \/
     exists spec,
       dict_get kvs "specification" = Some (JObj spec) /\
       dict_get spec "elements" = None).

(** [k] slashes *)
Fixpoint slashes (k : nat) : string :=
  match k with
  | O => EmptyString
  | S k => String "/"%char (slashes k)
  end.

Fixpoint ends_with_slash (s : string) : bool :=
  match s with
  | EmptyString => false
  | String c EmptyString => is_slash c
  | String _ r => ends_with_slash r
  end.

(** The stripping as the specification words it: one trailing slash, if
    there is one. *)
Fixpoint strip_one_slash (s : string) : string :=
  match s with
  | EmptyString => EmptyString
  | String c r =>
      if is_slash c && is_empty r then EmptyString
      else String c (strip_one_slash r)
  end.

Definition spec_normalize (url : string) : result string :=
  parsed_url <- urlparse url ;;
  Ok (lower (strip_one_slash (netloc parsed_url ++ path parsed_url))).

Definition no_char (p : ascii -> bool) (s : string) : Prop :=
  any_char p s = false.

Definition is_url_syntax (c : ascii) : bool :=
  is_unsafe c || is_colon c || is_hash c || is_question c || is_semicolon c.

(** Text with nothing of a URL in it: no ':', '#', '?' or ';', no tab or
    line break, no leading space or control character, no leading "//". *)
Definition bare_path (t : string) : Prop :=
  lstrip_c0_space t = t /\ prefix "//" t = false /\ no_char is_url_syntax t.

(** The identity under which the first loop of [match_repositories] files
    an element, if it files it. *)
Definition element_identity (element : json) : result (option string) :=
  repo_url <- get_repository_url element ;;
  if truthy repo_url then
    parsed_url <- urlparse_value repo_url ;;
    Ok (Some (identity_of parsed_url))
  else Ok None.

Definition file_element (element_repos : dict json) (element : json)
    (identity : option string) : dict json :=
  match identity with
  | Some n => dict_set element_repos n element
  | None => element_repos
  end.

(** The rows the second loop pairs, with what it pairs them. *)
Definition paired_with (url_column : string) (element_repos : dict json)
    (m : Match) : Prop :=
  exists cell n,
    url_cell (csv_repo m) url_column = Some cell /\
    normalized_url cell = Ok n /\
    dict_get element_repos n = Some (c4_element m).

(** Whether the second loop of the matcher pairs a row with this URL. *)
Definition url_matched (element_repos : dict json) (cell : string) : bool :=
  match normalized_url cell with
  | Ok n => dict_mem element_repos n
  | Raise _ => false
  end.

Definition row_matched (url_column : string) (element_repos : dict json)
    (row : Series) : bool :=
  match url_cell row url_column with
  | Some cell => url_matched element_repos cell
  | None => false
  end.



(** The test of the last loop: the row is reported as not mapped. *)
Definition left_unmatched (shares_nan : bool) (url_column : string)
    (matched_repo_urls : list cell) (row : Series) : bool :=
  let repo_url := series_get row url_column "" in
  cell_truthy repo_url
  && negb (in_url_set shares_nan repo_url matched_repo_urls).

(** A literal, case-insensitive search, to run the report on examples; a
    value that is not text is no match. *)
Definition plain_search (pattern : string) (column : list json)
  : result (list bool) :=
  Ok (map (fun v => match v with
                    | JStr text => is_substring (lower pattern) (lower text)
                    | _ => false
                    end) column).

Definition no_filter : FilterSpec := mkFilterSpec None 0 100 "" "".

(** Sample data: a row of the table and an element of the document that
    the matcher pairs with it, with further links to inspect. *)
Definition orders_row : Series :=
  [("url", Text "https://gitlab.com/o/orders")].

Definition repository_link : json :=
  JObj [("title", JStr "repository");
        ("url", JStr "https://gitlab.com/o/orders")].

Definition titled (title : string) : json := JObj [("title", JStr title)].

Definition orders_fields (links : list json) : list (string * json) :=
  [("title", JStr "Orders"); ("links", JArr (repository_link :: links))].

Definition orders_element (links : list json) : json :=
  JObj (orders_fields links).

Definition orders_table : DataFrame := mkDataFrame ["url"] [orders_row] true.

(* ===================================================================== *)
(** ** Further vocabulary *)

(** [l1] is [l2] with some members left out, the order kept. *)
Inductive subseq {A : Type} : list A -> list A -> Prop :=
| subseq_nil : subseq [] []
| subseq_skip x l1 l2 : subseq l1 l2 -> subseq l1 (x :: l2)
| subseq_keep x l1 l2 : subseq l1 l2 -> subseq (x :: l1) (x :: l2).

(** The mapping of elements of a document: the top-level one, or else the
    one under ['specification']. *)
Definition elements_of (c4_data : json) : option (list (string * json)) :=
  match c4_data with
  | JObj kvs =>
      match dict_get kvs "elements" with
      | Some (JObj items) => Some items
      | Some _ => None
      | None =>
          match dict_get kvs "specification" with
          | Some (JObj spec) =>
              match dict_get spec "elements" with
              | Some (JObj items) => Some items
              | _ => None
              end
          | _ => None
          end
      end
  | _ => None
  end.

Definition field_of (k : string) (element : json) : option json :=
  match element with
  | JObj fields => dict_get fields k
  | _ => None
  end.

(** A value on which ['kind' in value] raises. *)
Definition is_scalar (v : json) : Prop :=
  match v with
  | JNull | JBool _ | JNum _ => True
  | _ => False
  end.


(** The document with its mapping of elements replaced, at the place the
    mapping was read from. *)
Definition write_elements (c4_data : json) (items : list (string * json))
  : json :=
  match c4_data with
  | JObj kvs =>
      match dict_get kvs "elements" with
      | Some _ => JObj (dict_set kvs "elements" (JObj items))
      | None =>
          match dict_get kvs "specification" with
          | Some spec =>
              JObj (dict_set kvs "specification"
                      (store_at spec "elements" (JObj items)))
          | None => c4_data
          end
      end
  | _ => c4_data
  end.


(** The link is titled [k], whether or not it has a URL. *)
Definition has_title (k : string) (link : json) : bool :=
  match title_of link with
  | Some t => eq_str t k
  | None => false
  end.


(** The first step of [urlsplit]: leading blanks and the unsafe bytes go. *)
Definition clean_url (url : string) : string :=
  remove_unsafe (lstrip_c0_space url).

(** The normalisation of a URL once its scheme has been taken off:
    [with_params] tells whether the scheme is one of [uses_params]. *)
Definition normalized_after_scheme (with_params : bool) (url : string)
  : result string :=
  let (netloc, url) := split_netloc url in
  if netloc_refused netloc then Raise ValueError
  else
    let (url, _) := break_on is_hash url in
    let (url, _) := break_on is_question url in
    let path := if with_params && any_char is_semicolon url
                then fst (splitparams url) else url in
    Ok (lower (rstrip_slash (netloc ++ path))).


(** A test on characters that does not tell the two cases of a letter
    apart. *)
Definition caseless (p : ascii -> bool) : Prop :=
  forall c, p (lower_char c) = p c.


(** The path [urlsplit] is left with: the text before the first '#', and
    of that the text before the first '?'. *)
Definition path_of (url : string) : string :=
  fst (break_on is_question (fst (break_on is_hash url))).


(* ===================================================================== *)
(** ** Further parts of the program *)

(** [(complete_repos / total_repos) * 100 if total_repos > 0 else 0] *)
Definition overall_progress (complete_repos total_repos : nat) : result Q :=
  if (0 <? total_repos)%nat then
    q <- truediv complete_repos total_repos ;;
    Ok (q * 100)%Q
  else Ok 0%Q.

(** The argument of [st.progress(overall_progress / 100)], which has to lie
    within 0 and 1. *)
Definition progress_bar_value (overall_progress : Q) : Q :=
  (overall_progress / 100)%Q.

(** *** The grid of mapped elements *)

Inductive link_filter : Type :=
| Any
| HasLink
| MissingLink.

(** The link types that have a filter, and those the grid inspects. *)
Definition filter_link_types : list string :=
  ["repository"; "logs"; "APM"; "openAPI"; "monitor"; "dashboard"; "backstage"].

Definition grid_link_types : list string :=
  ["repository"; "logs"; "APM"; "openAPI"; "monitor"; "monitoring";
   "dashboard"; "backstage"].

Definition column_order : list string :=
  ["kind"; "title"; "technology"; "description"; "repository"; "logs"; "APM";
   "openAPI"; "monitor"; "dashboard"; "backstage"].

(** [link_filters]: the answer of one select box per link type. *)
Definition link_filters_of (choice : string -> link_filter) : dict link_filter :=
  fold_left (fun d link_type => dict_set d link_type (choice link_type))
    filter_link_types [].

(** One turn of [for link_type, filter_value in link_filters.items()]:
    whether the element survives it. *)
Definition link_filter_admits (link_info : dict bool)
    (item : string * link_filter) : bool :=
  match dict_get link_info (fst item) with
  | Some flag =>
      match snd item with
      | HasLink => flag
      | MissingLink => negb flag
      | Any => true
      end
  | None => true
  end.

(** [{**element_info, **link_info}] *)
Definition merge_row (element_info : dict json) (link_info : dict bool)
  : dict json :=
  fold_left (fun row item => dict_set row (fst item) (JBool (snd item)))
    link_info element_info.

(** The body of [for element in st.session_state.mapped_elements]: the
    row appended to [grid_data], or [None] after a [continue]. *)
Definition grid_row (element : json) (selected_kinds : list string)
    (selected_technologies : list string) (link_filters : dict link_filter)
  : result (option (dict json)) :=
  kind <- py_get element "kind" (JStr "") ;;
  if negb (in_str_list kind selected_kinds) then Ok None
  else
    technology_passes <-
      match selected_technologies with
      | [] => Ok true
      | _ :: _ =>
          technology <- py_get element "technology" (JStr "") ;;
          Ok (in_str_list technology selected_technologies)
      end ;;
    if negb technology_passes then Ok None
    else
      kind <- py_get element "kind" (JStr "") ;;
      title <- py_get element "title" (JStr "") ;;
      technology <- py_get element "technology" (JStr "") ;;
      description <- py_get element "description" (JStr "") ;;
      let element_info :=
        [("kind", kind); ("title", title); ("technology", technology);
         ("description", description)] in
      link_info <- check_element_links element grid_link_types ;;
      if forallb (link_filter_admits link_info) link_filters
      then Ok (Some (merge_row element_info link_info))
      else Ok None.

Fixpoint grid_data (mapped_elements : list json) (selected_kinds : list string)
    (selected_technologies : list string) (link_filters : dict link_filter)
  : result (list (dict json)) :=
  match mapped_elements with
  | [] => Ok []
  | element :: rest =>
      row <- grid_row element selected_kinds selected_technologies link_filters ;;
      rows <- grid_data rest selected_kinds selected_technologies link_filters ;;
      Ok (match row with
          | Some row_data => row_data :: rows
          | None => rows
          end)
  end.

(** [df.drop(k, axis=1)] on one row *)
Definition dict_remove {V : Type} (d : dict V) (k : string) : dict V :=
  filter (fun item => negb (String.eqb (fst item) k)) d.

(** [df['monitor'] = df.apply(lambda row: True if row['monitoring'] else
    row['monitor'], axis=1)] and [df.drop('monitoring', axis=1)], on one
    row. *)
Definition collapse_monitoring (row : dict json) : dict json :=
  match dict_get row "monitoring", dict_get row "monitor" with
  | Some monitoring, Some monitor =>
      dict_remove
        (dict_set row "monitor"
           (if truthy monitoring then JBool true else monitor))
        "monitoring"
  | _, _ => row
  end.

(** [df[[col for col in column_order if col in df.columns]]] on one row *)
Definition reorder_columns (row : dict json) : dict json :=
  flat_map (fun col => match dict_get row col with
                       | Some v => [(col, v)]
                       | None => []
                       end) column_order.

(** The rows of the table displayed. *)
Definition grid_table (mapped_elements : list json) (selected_kinds : list string)
    (selected_technologies : list string) (link_filters : dict link_filter)
  : result (list (dict json)) :=
  rows <- grid_data mapped_elements selected_kinds selected_technologies
            link_filters ;;
  Ok (map (fun row => reorder_columns (collapse_monitoring row)) rows).

(** *** The recommendations *)

(** [str(n)] for a count *)
Definition str_of_nat (n : nat) : string :=
  NilEmpty.string_of_uint (Nat.to_uint n).

(** The ['Links'] text of a record: [f"{present_links}/{total_selected}"]. *)
Definition links_text (p : ProgressRecord) : string :=
  str_of_nat (present_link_count p) ++ "/" ++ str_of_nat (selected_link_count p).

(** [s.split('/')] *)
Fixpoint split_slash (s : string) : list string :=
  match s with
  | EmptyString => [EmptyString]
  | String c r =>
      if is_slash c then EmptyString :: split_slash r
      else match split_slash r with
           | piece :: pieces => String c piece :: pieces
           | [] => [String c EmptyString]
           end
  end.

(** The figure after "Missing:" in the recommendation of a record:
    [len(selected_links) - len(repo['Links'].split('/'))]. *)
Definition missing_shown (selected_links : list string) (p : ProgressRecord) : Z :=
  (Z.of_nat (length selected_links)
   - Z.of_nat (length (split_slash (links_text p))))%Z.


(** The cell the last loop reads in a row:
    [repo_row.get(url_column, '')]. *)
Definition row_url (df : DataFrame) (row : Series) : cell :=
  match find_url_column (columns df) with
  | Some url_column => series_get row url_column ""
  | None => ""
  end.

(** The rows of the table that the last loop reports, when
    [matched_repo_urls] holds [urls]; none when there is no URL column. *)
Definition unmatched_rows (df : DataFrame) (urls : list cell) : list Series :=
  match find_url_column (columns df) with
  | Some url_column =>
      filter (left_unmatched (shares_nan df) url_column urls) (rows df)
  | None => []
  end.

(** The record of a row that is reported as not mapped. *)
Definition not_mapped_of (df : DataFrame) (row : Series) : ProgressRecord :=
  not_mapped_record (row_url df row).

(** What a scored record looks like. *)
Definition scored_record (sel : list string) (p : ProgressRecord) : Prop :=
  Status p <> NotMapped /\
  selected_link_count p = length sel /\
  (present_link_count p <= selected_link_count p)%nat /\
  (0 <= Progress p)%Q /\ (Progress p <= 100)%Q.

(** What the record of a row without element looks like. *)
Definition unmapped_record (p : ProgressRecord) : Prop :=
  p = not_mapped_record (Repository p) /\ Repository p <> EmptyString.


(** [element.get(k, '')] on an element that is a mapping *)
Definition field_or_empty (fields : list (string * json)) (k : string) : json :=
  match dict_get fields k with
  | Some v => v
  | None => JStr EmptyString
  end.

(** Whether some link of the element is titled [k]. *)
Definition has_link (links : list json) (k : string) : bool :=
  existsb (has_title k) links.

(** What a filter of the grid asks of the flag of its link type. *)
Definition filter_asks (choice : link_filter) (flag : bool) : bool :=
  match choice with
  | Any => true
  | HasLink => flag
  | MissingLink => negb flag
  end.

(* ===================================================================== *)
(** * Properties *)

(** ** Strings and dictionaries *)

Lemma mem_string_In (s : string) (l : list string) :
  mem_string s l = true <-> In s l.
Proof.
  induction l as [|x l IH]; simpl.
  - split; [discriminate | tauto].
  - rewrite orb_true_iff, IH, String.eqb_eq. split; intros [H|H]; auto.
Qed.

Lemma mem_string_false (s : string) (l : list string) :
  mem_string s l = false <-> ~ In s l.
Proof.
  rewrite <- mem_string_In. destruct (mem_string s l); split; congruence.
Qed.

Section DictFacts.
Context {V : Type}.
Implicit Types (d : dict V) (k : string) (v : V).

Lemma dict_get_set_eq d k v : dict_get (dict_set d k v) k = Some v.
Proof.
  induction d as [|[k' v'] d IH]; simpl.
  - now rewrite String.eqb_refl.
  - destruct (String.eqb k k') eqn:E; simpl; rewrite E; auto.
Qed.

Lemma dict_get_set_neq d k k' v :
  k <> k' -> dict_get (dict_set d k v) k' = dict_get d k'.
Proof.
  intros Hne. induction d as [|[k0 v0] d IH]; simpl.
  - destruct (String.eqb_spec k' k); congruence.
  - destruct (String.eqb_spec k k0) as [->|Hk]; simpl.
    + destruct (String.eqb_spec k' k0); congruence.
    + destruct (String.eqb_spec k' k0); auto.
Qed.

Lemma dict_keys_set_In d k v k' :
  In k' (dict_keys (dict_set d k v)) <-> k' = k \/ In k' (dict_keys d).
Proof.
  induction d as [|[k0 v0] d IH]; simpl.
  - intuition.
  - destruct (String.eqb_spec k k0) as [->|Hk]; simpl.
    + intuition.
    + fold (dict_keys (dict_set d k v)). fold (dict_keys d).
      rewrite IH. intuition.
Qed.

Lemma dict_keys_set_NoDup d k v :
  NoDup (dict_keys d) -> NoDup (dict_keys (dict_set d k v)).
Proof.
  induction d as [|[k0 v0] d IH]; simpl; intros Hnd.
  - constructor; [simpl; tauto | constructor].
  - destruct (String.eqb_spec k k0) as [->|Hk]; simpl; auto.
    inversion Hnd as [|? ? Hnotin Hnd']; subst.
    constructor; [|now apply IH].
    fold (dict_keys (dict_set d k v)). rewrite dict_keys_set_In.
    intros [->|H]; [congruence | contradiction].
Qed.

Lemma dict_get_In_keys d k v : dict_get d k = Some v -> In k (dict_keys d).
Proof.
  induction d as [|[k0 v0] d IH]; simpl; [discriminate|].
  destruct (String.eqb_spec k k0) as [->|Hk]; auto.
Qed.

Lemma dict_get_None_keys d k : dict_get d k = None <-> ~ In k (dict_keys d).
Proof.
  induction d as [|[k0 v0] d IH]; simpl; [tauto|].
  destruct (String.eqb_spec k k0) as [->|Hk].
  - split; [discriminate | intros H; exfalso; auto].
  - rewrite IH. intuition congruence.
Qed.
End DictFacts.

(** ** Scoring: the flags stay within the selected kinds *)

Lemma flags_within_set (sel : list string) (d : dict bool) k v :
  In k sel -> flags_within sel d -> flags_within sel (dict_set d k v).
Proof.
  intros Hk [Hnd Hincl]. split.
  - now apply dict_keys_set_NoDup.
  - intros k' Hk'. apply dict_keys_set_In in Hk' as [->|Hk']; auto.
Qed.

Lemma all_false_from_within (sel l : list string) (d : dict bool) :
  incl l sel -> flags_within sel d ->
  flags_within sel (fold_left (fun d link_type => dict_set d link_type false) l d).
Proof.
  revert d. induction l as [|x l IH]; simpl; intros d Hl Hd; auto.
  apply IH.
  - intros y Hy. apply Hl. now right.
  - apply flags_within_set; auto. apply Hl. now left.
Qed.

Lemma all_false_within (sel : list string) : flags_within sel (all_false sel).
Proof.
  apply all_false_from_within.
  - apply incl_refl.
  - split; [constructor | intros k []].
Qed.

Lemma title_selected_In link sel t :
  title_selected link sel = Ok (Some t) -> In t sel.
Proof.
  unfold title_selected.
  destruct (py_contains "title" link) as [[|]|]; simpl; try discriminate.
  destruct (py_getitem link "title") as [[| | |s| |]|]; simpl; try discriminate.
  destruct (mem_string s sel) eqn:E; intros [= <-].
  now apply mem_string_In.
Qed.

Lemma links_loop_within links sel d d' :
  flags_within sel d -> links_loop links sel d = Ok d' -> flags_within sel d'.
Proof.
  revert d. induction links as [|link links IH]; simpl; intros d Hd H.
  - now injection H as <-.
  - destruct (title_selected link sel) as [[t|]|] eqn:E; simpl in H;
      try discriminate.
    + eapply IH; [|exact H]. apply flags_within_set; auto.
      eapply title_selected_In; eauto.
    + eapply IH; eauto.
Qed.

Lemma check_element_links_within element sel d :
  check_element_links element sel = Ok d -> flags_within sel d.
Proof.
  unfold check_element_links.
  destruct (links_of element) as [[links|]|]; simpl; try discriminate.
  - destruct (py_iter links) as [ls|]; simpl; try discriminate.
    apply links_loop_within, all_false_within.
  - intros [= <-]. apply all_false_within.
Qed.

Lemma apply_monitoring_alias_within sel d :
  flags_within sel d -> flags_within sel (apply_monitoring_alias d sel).
Proof.
  intros Hd. unfold apply_monitoring_alias.
  destruct (dict_get d "monitoring") as [[|]|]; auto.
  destruct (mem_string "monitor" sel) eqn:E; auto.
  apply flags_within_set; auto. now apply mem_string_In.
Qed.

Lemma count_present_le (sel : list string) (d : dict bool) :
  flags_within sel d -> (count_present d sel <= length sel)%nat.
Proof.
  intros [Hnd Hincl]. unfold count_present.
  transitivity (length d); [apply filter_length_le|].
  unfold dict_keys in *. rewrite <- (length_map fst d).
  now apply NoDup_incl_length.
Qed.

(** What a record returned by [score] is made of. *)
Lemma score_inv (m : Match) (sel : list string) (r : ProgressRecord) :
  score m sel = Ok r ->
  exists d,
    flags_within sel d /\
    present_link_count r = count_present d sel /\
    selected_link_count r = length sel /\
    progress_percent (count_present d sel) (length sel) = Ok (Progress r) /\
    Status r = (if (count_present d sel =? length sel)%nat
                then Complete else Incomplete) /\
    Repository r = series_get (csv_repo m) "url" "".
Proof.
  unfold score.
  destruct (get_repository_url (c4_element m)) as [u|]; simpl; try discriminate.
  destruct (check_element_links (c4_element m) sel) as [d|] eqn:Hd; simpl;
    try discriminate.
  destruct (progress_percent _ _) as [q|] eqn:Hq; simpl; try discriminate.
  destruct (py_get _ _ _) as [t|]; simpl; try discriminate.
  intros [= <-]. simpl.
  exists (apply_monitoring_alias d sel). repeat split; auto.
  - apply apply_monitoring_alias_within.
    eapply check_element_links_within; eauto.
  - apply apply_monitoring_alias_within.
    eapply check_element_links_within; eauto.
Qed.

Lemma progress_percent_total (p t : nat) : succeeds (progress_percent p t).
Proof.
  unfold progress_percent, succeeds. destruct t as [|t]; simpl; eauto.
Qed.

Lemma progress_percent_bounds (p t : nat) (q : Q) :
  (p <= t)%nat -> progress_percent p t = Ok q -> (0 <= q /\ q <= 100)%Q.
Proof.
  intros Hle. unfold progress_percent. destruct t as [|t]; simpl.
  - intros [= <-]. split; unfold Qle; simpl; lia.
  - intros [= <-]. unfold Qdiv, Qinv, Qmult, Qle, inject_Z. simpl.
    split; [lia|].
    rewrite Pos.mul_1_r. rewrite Z.mul_1_r.
    assert (H : (Z.of_nat p <= Z.pos (Pos.of_succ_nat t))%Z)
      by (rewrite Zpos_P_of_succ_nat; lia).
    lia.
Qed.

(** ** No operation of the scorer divides by zero *)

Lemma no_zero_division_bind {A B : Type} (c : result A) (k : A -> result B) :
  no_zero_division c -> (forall a, c = Ok a -> no_zero_division (k a)) ->
  no_zero_division (bind c k).
Proof.
  unfold no_zero_division. destruct c as [a|e]; simpl; intros Hc Hk; auto.
  intros [= ->]. now apply Hc.
Qed.

Lemma no_zero_division_Ok {A : Type} (a : A) : no_zero_division (Ok a).
Proof. discriminate. Qed.

Lemma py_contains_nzd k v : no_zero_division (py_contains k v).
Proof. destruct v; discriminate. Qed.

Lemma py_getitem_nzd v k : no_zero_division (py_getitem v k).
Proof. destruct v; simpl; try discriminate. destruct (dict_get kvs k); discriminate. Qed.

Lemma py_get_nzd v k x : no_zero_division (py_get v k x).
Proof. destruct v; simpl; try discriminate. destruct (dict_get kvs k); discriminate. Qed.

Lemma py_iter_nzd v : no_zero_division (py_iter v).
Proof. destruct v; discriminate. Qed.

Create HintDb nzd.

#[local] Hint Resolve no_zero_division_Ok py_contains_nzd py_getitem_nzd
  py_get_nzd py_iter_nzd : nzd.

Ltac nzd_step :=
  match goal with
  | |- no_zero_division (bind _ _) => apply no_zero_division_bind; [|intros ? _]
  | |- no_zero_division (if ?b then _ else _) => destruct b
  | |- no_zero_division (match ?x with Some _ => _ | None => _ end) => destruct x
  | |- no_zero_division (let (_, _) := ?x in _) => destruct x
  end.

Ltac nzd := repeat nzd_step; auto with nzd.

Lemma links_of_nzd element : no_zero_division (links_of element).
Proof. unfold links_of. nzd. Qed.

Lemma title_selected_nzd link sel : no_zero_division (title_selected link sel).
Proof. unfold title_selected. nzd. Qed.

Lemma is_repository_link_nzd link : no_zero_division (is_repository_link link).
Proof. unfold is_repository_link. nzd. Qed.

#[local] Hint Resolve links_of_nzd title_selected_nzd is_repository_link_nzd : nzd.

Lemma links_loop_nzd links sel d : no_zero_division (links_loop links sel d).
Proof. revert d. induction links; simpl; intros; nzd. Qed.

Lemma repository_loop_nzd links : no_zero_division (repository_loop links).
Proof. induction links; simpl; nzd. Qed.

#[local] Hint Resolve links_loop_nzd repository_loop_nzd : nzd.

Lemma check_element_links_nzd element sel :
  no_zero_division (check_element_links element sel).
Proof. unfold check_element_links. nzd. Qed.

Lemma get_repository_url_nzd element : no_zero_division (get_repository_url element).
Proof. unfold get_repository_url. nzd. Qed.

Lemma progress_percent_nzd p t : no_zero_division (progress_percent p t).
Proof. destruct (progress_percent_total p t) as [q ->]. discriminate. Qed.

#[local] Hint Resolve check_element_links_nzd get_repository_url_nzd
  progress_percent_nzd : nzd.

Lemma score_nzd m sel : no_zero_division (score m sel).
Proof. unfold score. nzd. Qed.

(** ** Link inspection on elements of the expected shape *)

Lemma title_selected_mapping (link : json) (sel : list string) :
  is_mapping link ->
  title_selected link sel =
  Ok (match title_of link with
      | Some (JStr t) => if mem_string t sel then Some t else None
      | _ => None
      end).
Proof.
  intros [kvs ->]. unfold title_selected, title_of. simpl.
  unfold dict_mem. destruct (dict_get kvs "title") as [[]|]; reflexivity.
Qed.

Lemma is_repository_link_mapping (link : json) :
  is_mapping link ->
  is_repository_link link =
  Ok (match title_of link, url_of link with
      | Some t, Some _ => eq_str t "repository"
      | _, _ => false
      end).
Proof.
  intros [kvs ->]. unfold is_repository_link, title_of, url_of. simpl.
  unfold dict_mem. destruct (dict_get kvs "title") as [t|]; simpl; auto.
  destruct (eq_str t "repository"); simpl;
    destruct (dict_get kvs "url"); reflexivity.
Qed.

Lemma repository_loop_mappings (links : list json) :
  Forall is_mapping links -> succeeds (repository_loop links).
Proof.
  induction 1 as [|link links Hl _ IH]; simpl.
  - now exists JNull.
  - rewrite is_repository_link_mapping by assumption.
    destruct Hl as [kvs ->]. unfold title_of, url_of. simpl.
    destruct (dict_get kvs "title") as [t|]; simpl; auto.
    destruct (dict_get kvs "url") as [u|] eqn:Eu; simpl; auto.
    destruct (eq_str t "repository"); auto. now exists u.
Qed.

(** With only ["monitor"] selected, a link sets the flag only when it is
    titled "monitor". *)
Lemma links_loop_monitor_untouched (links : list json) :
  Forall is_mapping links ->
  Forall (fun link => title_of link <> Some (JStr "monitor")) links ->
  links_loop links ["monitor"] [("monitor", false)] = Ok [("monitor", false)].
Proof.
  induction 1 as [|link links Hl _ IH]; intros Hno; simpl; auto.
  inversion Hno as [|? ? Hlink Hrest]; subst.
  rewrite title_selected_mapping by assumption.
  destruct (title_of link) as [[| | |t| |]|]; simpl; auto.
  destruct (String.eqb_spec t "monitor") as [->|Hne]; simpl; auto.
  congruence.
Qed.

(** ** Progress scorer: claims C2, C3 and C8 *)

(** C2 (what the code does).  For a matched element whose links are
    mappings, one of them titled "monitoring" and none titled "monitor",
    scoring with [selected_links = ["monitor"]] counts nothing as present:
    [check_element_links] records flags for the selected kinds only, so no
    "monitoring" flag exists for the alias to read.  The record is 0 of 1,
    progress 0, status [Incomplete]. *)
Theorem score_monitoring_alias_needs_selection
    (row : Series) (fields : list (string * json)) (links : list json) :
  dict_get fields "links" = Some (JArr links) ->
  Forall is_mapping links ->
  Exists (fun link => title_of link = Some (JStr "monitoring")) links ->
  Forall (fun link => title_of link <> Some (JStr "monitor")) links ->
  exists r,
    score (mkMatch row (JObj fields)) ["monitor"] = Ok r /\
    present_link_count r = 0%nat /\
    selected_link_count r = 1%nat /\
    (Progress r == 0)%Q /\
    Status r = Incomplete.
Proof.
  intros Hlinks Hmaps Hmon Hno.
  assert (Hne : links <> []) by (intros ->; inversion Hmon).
  destruct (repository_loop_mappings links Hmaps) as [u Hu].
  unfold score, get_repository_url, check_element_links, links_of. simpl.
  unfold dict_mem. rewrite Hlinks. simpl.
  destruct links as [|l0 links']; [congruence|].
  cbn [truthy bind py_iter]. rewrite Hu. cbn [bind].
  change (all_false ["monitor"]) with [("monitor", false)].
  rewrite (links_loop_monitor_untouched _ Hmaps Hno). cbn [bind].
  destruct (dict_get fields "title") as [t|]; eexists; (split; [reflexivity|]);
    repeat split; reflexivity.
Qed.

Lemma score_monitoring_alias_needs_selection_witness :
  let element := orders_element [titled "monitoring"] in
  match_repositories [element] (Some orders_table)
    = Ok [mkMatch orders_row element] /\
  exists r,
    score (mkMatch orders_row element) ["monitor"] = Ok r /\
    present_link_count r = 0%nat /\
    selected_link_count r = 1%nat /\
    (Progress r == 0)%Q /\
    Status r = Incomplete.
Proof.
  intros element. split; [reflexivity|].
  apply (score_monitoring_alias_needs_selection orders_row
           (orders_fields [titled "monitoring"])
           [repository_link; titled "monitoring"]).
  - reflexivity.
  - repeat constructor; eexists; reflexivity.
  - right. left. reflexivity.
  - repeat constructor; simpl; discriminate.
Defined.

(** The alias does fire once "monitoring" is selected next to "monitor". *)
Example score_monitoring_alias_both_selected :
  exists r,
    score (mkMatch orders_row (orders_element [titled "monitoring"]))
          ["monitor"; "monitoring"] = Ok r /\
    present_link_count r = 2%nat /\ selected_link_count r = 2%nat /\
    Status r = Complete.
Proof. eexists. split; [reflexivity|]. repeat split. Qed.

(** C3, as stated, fails: with nothing selected the record of a matched
    pair is 0 of 0 and its status is [Complete]. *)
Lemma score_empty_selection_is_complete :
  let element := orders_element [titled "logs"] in
  match_repositories [element] (Some orders_table)
    = Ok [mkMatch orders_row element] /\
  exists r,
    score (mkMatch orders_row element) [] = Ok r /\
    Status r = Complete /\
    ~ (present_link_count r = selected_link_count r /\
       (0 < selected_link_count r)%nat).
Proof.
  intros element. split; [reflexivity|].
  eexists. split; [reflexivity|]. split; [reflexivity|].
  simpl. intros [_ H]. inversion H.
Qed.

(** C3 (amended).  For every matched pair and every selection, the status
    is [Complete] exactly when the number of present links equals the
    number of selected links (the empty selection included), and
    [Incomplete] otherwise. *)
Theorem score_status_complete_iff (m : Match) (sel : list string)
    (r : ProgressRecord) :
  score m sel = Ok r ->
  selected_link_count r = length sel /\
  (Status r = Complete <-> present_link_count r = selected_link_count r) /\
  (Status r <> Complete -> Status r = Incomplete).
Proof.
  intros H. apply score_inv in H as (d & _ & Hp & Ht & _ & Hs & _).
  rewrite Hp, Ht, Hs. split; [reflexivity|].
  destruct (Nat.eqb_spec (count_present d sel) (length sel)) as [E|E].
  - split; [tauto | congruence].
  - split; [split; [discriminate | contradiction] | reflexivity].
Qed.

Lemma score_status_complete_iff_witness :
  let m := mkMatch orders_row (orders_element [titled "logs"]) in
  let r := mkProgressRecord "https://gitlab.com/o/orders" (JStr "Orders")
             2 3 (inject_Z 2 / inject_Z 3 * 100)%Q Incomplete in
  score m ["repository"; "logs"; "APM"] = Ok r /\
  selected_link_count r = 3%nat /\
  (Status r = Complete <-> present_link_count r = selected_link_count r) /\
  (Status r <> Complete -> Status r = Incomplete).
Proof.
  intros m r. split; [reflexivity|].
  apply (score_status_complete_iff m ["repository"; "logs"; "APM"] r).
  reflexivity.
Defined.

Lemma links_loop_mappings (links : list json) (sel : list string)
    (d : dict bool) :
  Forall is_mapping links -> succeeds (links_loop links sel d).
Proof.
  intros H. revert d. induction H as [|link links Hl _ IH]; intros d; simpl.
  - now exists d.
  - rewrite title_selected_mapping by assumption. simpl.
    destruct (title_of link) as [[| | |t| |]|]; auto.
    destruct (mem_string t sel); auto.
Qed.

(** On an element whose links are mappings the scorer returns. *)
Lemma score_returns (m : Match) (sel : list string)
    (fields : list (string * json)) (links : list json) :
  c4_element m = JObj fields ->
  dict_get fields "links" = Some (JArr links) ->
  Forall is_mapping links ->
  succeeds (score m sel).
Proof.
  intros He Hl Hm. unfold score, get_repository_url, check_element_links,
    links_of. rewrite He. simpl. unfold dict_mem. rewrite Hl. simpl.
  destruct (progress_percent_total
              (count_present (apply_monitoring_alias (all_false sel) sel) sel)
              (length sel)) as [q0 Hq0].
  destruct links as [|l0 links'].
  - simpl. rewrite Hq0. simpl.
    destruct (dict_get fields "title"); eexists; reflexivity.
  - cbn [truthy bind py_iter].
    destruct (repository_loop_mappings _ Hm) as [u ->]. cbn [bind].
    destruct (links_loop_mappings _ sel (all_false sel) Hm) as [d ->].
    cbn [bind].
    destruct (progress_percent_total
                (count_present (apply_monitoring_alias d sel) sel)
                (length sel)) as [q ->]. cbn [bind].
    destruct (dict_get fields "title"); eexists; reflexivity.
Qed.

(** C8.  Scoring a matched pair never raises [ZeroDivisionError], and the
    percentage computation itself always returns.  The percentage of a
    record the scorer returns lies between 0 and 100, and is 0 when nothing
    is selected; on an element whose links are mappings the scorer does
    return. *)
Theorem score_progress_percent_safe (m : Match) (sel : list string) :
  score m sel <> Raise ZeroDivisionError /\
  (forall p t, succeeds (progress_percent p t)) /\
  (forall r, score m sel = Ok r ->
     (0 <= Progress r)%Q /\ (Progress r <= 100)%Q /\
     (sel = [] -> Progress r = 0%Q)) /\
  (forall fields links,
     c4_element m = JObj fields ->
     dict_get fields "links" = Some (JArr links) ->
     Forall is_mapping links ->
     succeeds (score m sel)).
Proof.
  split; [apply score_nzd|]. split; [apply progress_percent_total|].
  split; [|intros fields links; apply score_returns].
  intros r H. apply score_inv in H as (d & Hd & _ & _ & Hq & _).
  pose proof (count_present_le sel d Hd) as Hle.
  destruct (progress_percent_bounds _ _ _ Hle Hq) as [H0 H100].
  repeat split; auto.
  intros ->. simpl in Hle. inversion Hle as [E|]. rewrite E in Hq.
  now injection Hq.
Qed.

Lemma score_progress_percent_safe_witness :
  let m := mkMatch orders_row (orders_element [titled "logs"]) in
  (exists r, score m [] = Ok r /\ Progress r = 0%Q) /\
  (exists r, score m ["repository"; "logs"; "APM"] = Ok r /\
             (0 <= Progress r)%Q /\ (Progress r <= 100)%Q).
Proof.
  intros m. split.
  - eexists. split; [reflexivity|].
    destruct (score_progress_percent_safe m []) as (_ & _ & H & _).
    now apply (H _ eq_refl).
  - eexists. split; [reflexivity|].
    destruct (score_progress_percent_safe m ["repository"; "logs"; "APM"])
      as (_ & _ & H & _).
    destruct (H _ eq_refl) as (H0 & H100 & _). split; assumption.
Defined.

(** ** Repository URL lookup: claim C5 *)

Lemma repository_loop_first (links : list json) :
  Forall is_mapping links ->
  repository_loop links = Ok (first_repository_url links).
Proof.
  unfold first_repository_url.
  induction 1 as [|link links Hl _ IH]; simpl; auto.
  rewrite is_repository_link_mapping by assumption.
  unfold titled_repository, has_url_key.
  destruct Hl as [kvs ->]. unfold title_of, url_of. simpl.
  destruct (dict_get kvs "title") as [t|]; simpl; auto.
  destruct (dict_get kvs "url") as [u|] eqn:Eu; simpl.
  - destruct (eq_str t "repository"); simpl; auto. now rewrite Eu.
  - now rewrite andb_false_r.
Qed.

(** C5, as stated, fails: a first "repository" link with an empty URL is
    not skipped, its empty URL is what the lookup returns. *)
Lemma get_repository_url_returns_empty_url :
  let links := [JObj [("title", JStr "repository"); ("url", JStr "")];
                JObj [("title", JStr "repository");
                      ("url", JStr "https://gitlab.com/o/orders")]] in
  get_repository_url (JObj [("links", JArr links)]) = Ok (JStr "") /\
  spec_repository_url links = JStr "https://gitlab.com/o/orders" /\
  get_repository_url (JObj [("links", JArr links)])
    <> Ok (spec_repository_url links).
Proof.
  intros links. repeat split. discriminate.
Qed.

(** C5 (amended).  For an element whose links are mappings,
    [get_repository_url] returns the ['url'] value of the first link whose
    title is exactly "repository" and which has a ['url'] key, whatever
    that value is, and [None] when there is no such link; an element
    without links, or with an empty list of them, gives [None]. *)
Theorem get_repository_url_first_with_url_key
    (fields : list (string * json)) (links : list json) :
  (dict_get fields "links" = None /\ links = []) \/
  dict_get fields "links" = Some (JArr links) ->
  Forall is_mapping links ->
  get_repository_url (JObj fields) = Ok (first_repository_url links).
Proof.
  intros [[Hnone ->]|Hsome] Hmaps;
    unfold get_repository_url, links_of; simpl; unfold dict_mem.
  - now rewrite Hnone.
  - rewrite Hsome. simpl. destruct links as [|l0 links']; [reflexivity|].
    cbn [truthy bind py_iter]. now apply repository_loop_first.
Qed.

Lemma get_repository_url_first_with_url_key_witness :
  get_repository_url
    (JObj [("title", JStr "Orders");
           ("links", JArr [JObj [("title", JStr "logs"); ("url", JStr "l")];
                           JObj [("title", JStr "repository")];
                           JObj [("title", JStr "repository");
                                 ("url", JStr "https://gitlab.com/o/orders")]])])
  = Ok (JStr "https://gitlab.com/o/orders").
Proof.
  apply (get_repository_url_first_with_url_key
           [("title", JStr "Orders");
            ("links", JArr [JObj [("title", JStr "logs"); ("url", JStr "l")];
                            JObj [("title", JStr "repository")];
                            JObj [("title", JStr "repository");
                                  ("url", JStr "https://gitlab.com/o/orders")]])]
           [JObj [("title", JStr "logs"); ("url", JStr "l")];
            JObj [("title", JStr "repository")];
            JObj [("title", JStr "repository");
                  ("url", JStr "https://gitlab.com/o/orders")]]).
  - right. reflexivity.
  - repeat constructor; eexists; reflexivity.
Defined.

(** ** Element extractor: claims C4 and C9 *)

Lemma kind_selected_mapping (element_id : string) (element_data : json)
    (kinds : list string) :
  is_mapping element_data ->
  kind_selected element_data kinds =
  Ok (entry_selected kinds (element_id, element_data)).
Proof.
  intros [fields ->]. unfold kind_selected, entry_selected. simpl.
  unfold dict_mem. destruct (dict_get fields "kind"); reflexivity.
Qed.

Lemma extract_loop_mappings (items : list (string * json)) (kinds : list string) :
  Forall (fun entry => is_mapping (snd entry)) items ->
  extract_loop items kinds =
  (map (with_id kinds) items, Ok (selected_elements kinds items)).
Proof.
  unfold selected_elements.
  induction 1 as [|[element_id element_data] items Hm _ IH]; simpl; auto.
  simpl in Hm.
  rewrite (kind_selected_mapping element_id) by exact Hm.
  unfold with_id at 1 3.
  destruct (entry_selected kinds (element_id, element_data)) eqn:E.
  - destruct Hm as [fields ->]. simpl. rewrite IH. simpl.
    unfold with_id. rewrite E. reflexivity.
  - rewrite IH. reflexivity.
Qed.

(** C4, as stated, fails: the call leaves the document with an ['id']
    field that the entry did not have. *)
Lemma extract_elements_mutates_document :
  let doc := JObj [("elements",
               JObj [("orders", JObj [("kind", JStr "service")])])] in
  extract_elements doc ["service"] =
    (JObj [("elements",
        JObj [("orders", JObj [("kind", JStr "service");
                               ("id", JStr "orders")])])],
     Ok [JObj [("kind", JStr "service"); ("id", JStr "orders")]]) /\
  fst (extract_elements doc ["service"]) <> doc.
Proof.
  intros doc. split; [reflexivity|]. simpl. discriminate.
Qed.

(** C4 (amended).  On a document whose element entries are mappings,
    [extract_elements] returns the selected entries and writes into the
    document: every selected entry has its ['id'] field set to its key, in
    place.  The entries that are not selected, the keys and order of the
    elements mapping and every other part of the document stay as they
    were.  This holds at both places the elements can be read from. *)
Theorem extract_elements_writes_ids
    (kvs items : list (string * json)) (kinds : list string) :
  Forall (fun entry => is_mapping (snd entry)) items ->
  (dict_get kvs "elements" = Some (JObj items) ->
   extract_elements (JObj kvs) kinds =
   (JObj (dict_set kvs "elements" (JObj (map (with_id kinds) items))),
    Ok (selected_elements kinds items))) /\
  (forall spec,
     dict_get kvs "elements" = None ->
     dict_get kvs "specification" = Some (JObj spec) ->
     dict_get spec "elements" = Some (JObj items) ->
     extract_elements (JObj kvs) kinds =
     (JObj (dict_set kvs "specification"
              (JObj (dict_set spec "elements" (JObj (map (with_id kinds) items))))),
      Ok (selected_elements kinds items))).
Proof.
  intros Hm. split.
  - intros He. unfold extract_elements, has_top_level_elements.
    assert (Ht : truthy (JObj kvs) = true)
      by (destruct kvs; [discriminate | reflexivity]).
    rewrite Ht. simpl. unfold dict_mem. rewrite He. simpl.
    now rewrite extract_loop_mappings.
  - intros spec He Hs Hse.
    unfold extract_elements, has_top_level_elements,
      has_specification_elements.
    assert (Ht : truthy (JObj kvs) = true)
      by (destruct kvs; [discriminate | reflexivity]).
    rewrite Ht. simpl. unfold dict_mem. rewrite He, Hs. simpl.
    unfold dict_mem. rewrite Hse. simpl.
    now rewrite extract_loop_mappings.
Qed.

Lemma extract_elements_writes_ids_witness :
  let kvs := [("elements",
               JObj [("orders", JObj [("kind", JStr "service")]);
                     ("db", JObj [("kind", JStr "database")])])] in
  extract_elements (JObj kvs) ["service"] =
  (JObj [("elements",
          JObj [("orders", JObj [("kind", JStr "service"); ("id", JStr "orders")]);
                ("db", JObj [("kind", JStr "database")])])],
   Ok [JObj [("kind", JStr "service"); ("id", JStr "orders")]]).
Proof.
  intros kvs.
  apply (proj1 (extract_elements_writes_ids kvs
                  [("orders", JObj [("kind", JStr "service")]);
                   ("db", JObj [("kind", JStr "database")])]
                  ["service"]
                  ltac:(repeat constructor; eexists; reflexivity))).
  reflexivity.
Defined.

(** C9, as stated, fails: a document whose ['specification'] is [null]
    holds no elements at either place, and the call raises. *)
Lemma extract_elements_raises_on_null_specification :
  let doc := JObj [("specification", JNull)] in
  py_contains "elements" doc = Ok false /\
  extract_elements doc ["service"] = (doc, Raise TypeError).
Proof. split; reflexivity. Qed.

(** C9 (amended).  For every document that is empty or is a mapping with
    no ['elements'] key and whose ['specification'] entry, when present, is
    a mapping with no ['elements'] key, [extract_elements] returns the
    empty list, raises nothing and leaves the document as it was.  When a
    top-level ['elements'] mapping exists it is the one iterated: the
    result is that of the loop over it, whatever ['specification'] holds. *)
Theorem extract_elements_without_elements (kinds : list string) :
  (forall c4_data,
     lacks_elements c4_data ->
     extract_elements c4_data kinds = (c4_data, Ok [])) /\
  (forall kvs items,
     dict_get kvs "elements" = Some (JObj items) ->
     extract_elements (JObj kvs) kinds =
     (JObj (dict_set kvs "elements" (JObj (fst (extract_loop items kinds)))),
      snd (extract_loop items kinds))).
Proof.
  split.
  - intros c4_data [Hf|(kvs & -> & He & Hs)];
      unfold extract_elements, has_top_level_elements,
        has_specification_elements.
    + now rewrite Hf.
    + destruct (truthy (JObj kvs)); [|reflexivity].
      simpl. unfold dict_mem. rewrite He.
      destruct Hs as [Hs|(spec & Hs & Hse)]; rewrite Hs; simpl.
      * reflexivity.
      * unfold dict_mem. now rewrite Hse.
  - intros kvs items He. unfold extract_elements, has_top_level_elements.
    assert (Ht : truthy (JObj kvs) = true)
      by (destruct kvs; [discriminate | reflexivity]).
    rewrite Ht. simpl. unfold dict_mem. rewrite He. simpl.
    now destruct (extract_loop items kinds).
Qed.

Lemma extract_elements_without_elements_witness :
  extract_elements (JObj [("specification", JObj [("tags", JArr [])])])
    ["service"]
  = (JObj [("specification", JObj [("tags", JArr [])])], Ok []) /\
  extract_elements
    (JObj [("elements", JObj []);
           ("specification",
            JObj [("elements", JObj [("a", JObj [("kind", JStr "service")])])])])
    ["service"]
  = (JObj [("elements", JObj []);
           ("specification",
            JObj [("elements", JObj [("a", JObj [("kind", JStr "service")])])])],
     Ok []).
Proof.
  split.
  - apply (proj1 (extract_elements_without_elements ["service"])).
    right. eexists. split; [reflexivity|]. split; [reflexivity|].
    right. eexists. split; reflexivity.
  - apply (proj2 (extract_elements_without_elements ["service"])
             [("elements", JObj []);
              ("specification",
               JObj [("elements", JObj [("a", JObj [("kind", JStr "service")])])])]
             []).
    reflexivity.
Defined.

(** ** URL normalisation: claims C6 and C7 *)

Ltac ascii_cases c :=
  destruct c as [[] [] [] [] [] [] [] []]; vm_compute; try reflexivity;
  try discriminate; auto.

Lemma is_slash_spec (c : ascii) : is_slash c = true <-> c = "/"%char.
Proof. unfold is_slash. apply Ascii.eqb_eq. Qed.

Lemma lower_char_idem (c : ascii) : lower_char (lower_char c) = lower_char c.
Proof. ascii_cases c. Qed.

Lemma is_slash_lower (c : ascii) : is_slash (lower_char c) = is_slash c.
Proof. ascii_cases c. Qed.

Lemma lower_idem (s : string) : lower (lower s) = lower s.
Proof. induction s; simpl; [|rewrite lower_char_idem, IHs]; reflexivity. Qed.

Lemma lower_app (a b : string) : lower (a ++ b) = lower a ++ lower b.
Proof. induction a; simpl; [|rewrite IHa]; reflexivity. Qed.

Lemma lower_slashes (k : nat) : lower (slashes k) = slashes k.
Proof. induction k; simpl; [|rewrite IHk]; reflexivity. Qed.

Lemma is_empty_lower (s : string) : is_empty (lower s) = is_empty s.
Proof. destruct s; reflexivity. Qed.

Lemma rstrip_slash_lower (s : string) :
  rstrip_slash (lower s) = lower (rstrip_slash s).
Proof.
  induction s as [|c s IH]; simpl; auto.
  rewrite IH, is_empty_lower, is_slash_lower.
  destruct (is_slash c && is_empty (rstrip_slash s)); reflexivity.
Qed.

Lemma rstrip_slash_empty_iff (s : string) :
  is_empty (rstrip_slash s) = true <-> exists k, s = slashes k.
Proof.
  induction s as [|c s IH]; simpl.
  - split; auto. now exists 0%nat.
  - destruct (is_slash c) eqn:Ec; simpl.
    + apply is_slash_spec in Ec as ->.
      destruct (is_empty (rstrip_slash s)) eqn:E; simpl.
      * split; auto. intros _. destruct (proj1 IH eq_refl) as [k ->].
        now exists (S k).
      * split; [discriminate|]. intros [[|k] Hk]; [discriminate|].
        injection Hk as ->.
        assert (Hf : false = true) by (apply IH; now exists k).
        discriminate.
    + split; [discriminate|]. intros [[|k] Hk]; [discriminate|].
      injection Hk as -> _. discriminate.
Qed.

(** [rstrip_slash] takes a run of slashes off the end, and all of it. *)
Lemma rstrip_slash_decompose (s : string) :
  exists k, s = rstrip_slash s ++ slashes k.
Proof.
  induction s as [|c s [k IH]]; simpl.
  - now exists 0%nat.
  - destruct (is_slash c && is_empty (rstrip_slash s)) eqn:E.
    + apply andb_true_iff in E as [Ec Es].
      apply is_slash_spec in Ec as ->.
      apply rstrip_slash_empty_iff in Es as [j ->]. now exists (S j).
    + exists k. simpl. now rewrite <- IH.
Qed.

Lemma ends_with_slash_rstrip (s : string) : ends_with_slash (rstrip_slash s) = false.
Proof.
  induction s as [|c s IH]; simpl; auto.
  destruct (is_slash c) eqn:Ec; simpl.
  - destruct (rstrip_slash s) eqn:E; simpl; auto.
  - destruct (rstrip_slash s) eqn:E; simpl; auto.
Qed.

Lemma ends_with_slash_lower (s : string) :
  ends_with_slash (lower s) = ends_with_slash s.
Proof.
  induction s as [|c s IH]; simpl; auto.
  destruct s as [|c' s']; simpl in *; [apply is_slash_lower | exact IH].
Qed.

Lemma rstrip_slash_idem (s : string) :
  rstrip_slash (rstrip_slash s) = rstrip_slash s.
Proof.
  induction s as [|c s IH]; simpl; auto.
  destruct (is_slash c && is_empty (rstrip_slash s)) eqn:E; simpl; auto.
  now rewrite IH, E.
Qed.

(** *** Characters that survive the stages of [urlsplit] *)

Lemma no_char_cons p c s :
  no_char p (String c s) <-> p c = false /\ no_char p s.
Proof. unfold no_char. simpl. apply orb_false_iff. Qed.

Lemma no_char_app p a b : no_char p a -> no_char p b -> no_char p (a ++ b).
Proof.
  induction a as [|c a IH]; simpl; auto.
  rewrite !no_char_cons. intros [Hc Ha] Hb. auto.
Qed.

Lemma no_char_break_on p q s :
  no_char p s ->
  no_char p (fst (break_on q s)) /\ no_char p (snd (break_on q s)).
Proof.
  induction s as [|c s IH]; simpl; [now split|].
  intros H. destruct (q c); simpl; [now split|].
  apply no_char_cons in H as [Hc Hs]. destruct (IH Hs) as [H1 H2].
  destruct (break_on q s); simpl in *. rewrite no_char_cons. auto.
Qed.

Lemma break_on_fst_free p s : no_char p (fst (break_on p s)).
Proof.
  induction s as [|c s IH]; simpl; [reflexivity|].
  destruct (p c) eqn:E; simpl; [reflexivity|].
  destruct (break_on p s); simpl in *. rewrite no_char_cons. auto.
Qed.

Lemma break_on_free p s : no_char p s -> break_on p s = (s, EmptyString).
Proof.
  induction s as [|c s IH]; simpl; auto.
  intros H. apply no_char_cons in H as [-> Hs]. now rewrite (IH Hs).
Qed.

Lemma no_char_tail p c s : no_char p (String c s) -> no_char p s.
Proof. intros H. now apply no_char_cons in H. Qed.

Lemma no_char_lstrip p s : no_char p s -> no_char p (lstrip_c0_space s).
Proof.
  induction s as [|c s IH]; simpl; auto.
  intros H. destruct (is_c0_or_space c); auto.
  apply IH. eapply no_char_tail; eauto.
Qed.

Lemma remove_unsafe_free s : no_char is_unsafe (remove_unsafe s).
Proof.
  induction s as [|c s IH]; simpl; [reflexivity|].
  destruct (is_unsafe c) eqn:E; auto. rewrite no_char_cons. auto.
Qed.

Lemma remove_unsafe_id s : no_char is_unsafe s -> remove_unsafe s = s.
Proof.
  induction s as [|c s IH]; simpl; auto.
  intros H. apply no_char_cons in H as [-> Hs]. now rewrite (IH Hs).
Qed.

Lemma no_char_splitparams p s :
  no_char p s -> no_char p (fst (splitparams s)).
Proof.
  induction s as [|c s IH]; simpl; [auto|].
  intros H. apply no_char_cons in H as [Hc Hs].
  destruct (is_semicolon c && negb (any_char is_slash s)); simpl;
    [reflexivity|].
  specialize (IH Hs). destruct (splitparams s); simpl in *.
  rewrite no_char_cons. auto.
Qed.

Lemma no_char_rstrip p s : no_char p s -> no_char p (rstrip_slash s).
Proof.
  induction s as [|c s IH]; simpl; auto.
  intros H. apply no_char_cons in H as [Hc Hs].
  destruct (is_slash c && is_empty (rstrip_slash s)); [reflexivity|].
  rewrite no_char_cons. auto.
Qed.

Lemma no_char_lower p s :
  (forall c, p c = false -> p (lower_char c) = false) ->
  no_char p s -> no_char p (lower s).
Proof.
  intros Hp. induction s as [|c s IH]; simpl; auto.
  rewrite !no_char_cons. intros [Hc Hs]. auto.
Qed.

Lemma no_char_weaken (p q : ascii -> bool) s :
  (forall c, q c = true -> p c = true) -> no_char p s -> no_char q s.
Proof.
  intros Hpq. induction s as [|c s IH]; simpl; auto.
  rewrite !no_char_cons. intros [Hc Hs]. split; auto.
  destruct (q c) eqn:E; auto. rewrite (Hpq c E) in Hc. discriminate.
Qed.

Lemma no_char_split_scheme p s :
  no_char p s -> no_char p (snd (split_scheme s)).
Proof.
  intros H. unfold split_scheme.
  pose proof (no_char_break_on p is_colon s H) as [_ H2].
  destruct (break_on is_colon s) as [before rest]; simpl in *.
  destruct before as [|c0 before']; auto.
  destruct rest as [|c after]; auto.
  destruct (is_alpha c0 && all_chars is_scheme_char (String c0 before'));
    simpl; auto.
  eapply no_char_tail; eauto.
Qed.

Lemma no_char_split_netloc p s :
  no_char p s ->
  no_char p (fst (split_netloc s)) /\ no_char p (snd (split_netloc s)).
Proof.
  intros H. unfold split_netloc.
  destruct s as [|c1 [|c2 r]]; simpl; auto; try (split; [reflexivity|exact H]).
  destruct (is_slash c1 && is_slash c2); simpl;
    [|split; [reflexivity|exact H]].
  apply no_char_break_on. do 2 apply no_char_tail in H. exact H.
Qed.

Lemma split_netloc_fst_free s : no_char is_netloc_delim (fst (split_netloc s)).
Proof.
  unfold split_netloc. destruct s as [|c1 [|c2 r]]; simpl; try reflexivity.
  destruct (is_slash c1 && is_slash c2); simpl; [|reflexivity].
  apply break_on_fst_free.
Qed.

(** What [urlsplit] leaves in the network location and in the path. *)
Lemma urlsplit_parts (url : string) (r : ParseResult) :
  urlsplit url = Ok r ->
  no_char is_unsafe (netloc r) /\ no_char is_unsafe (path r) /\
  no_char is_netloc_delim (netloc r) /\
  no_char is_hash (path r) /\ no_char is_question (path r).
Proof.
  unfold urlsplit.
  pose proof (remove_unsafe_free (lstrip_c0_space url)) as H0.
  set (u0 := remove_unsafe (lstrip_c0_space url)) in *.
  pose proof (no_char_split_scheme _ _ H0) as H1.
  destruct (split_scheme u0) as [sch u1]; simpl in H1.
  pose proof (no_char_split_netloc _ _ H1) as [Hn H2].
  pose proof (split_netloc_fst_free u1) as Hd.
  destruct (split_netloc u1) as [nl u2]; simpl in Hn, H2, Hd.
  destruct (netloc_refused nl); [discriminate|].
  pose proof (no_char_break_on _ is_hash _ H2) as [H3 _].
  pose proof (break_on_fst_free is_hash u2) as Hh.
  destruct (break_on is_hash u2) as [u3 frag]; simpl in H3, Hh.
  pose proof (no_char_break_on _ is_question _ H3) as [H4 _].
  pose proof (no_char_break_on _ is_question _ Hh) as [Hh4 _].
  pose proof (break_on_fst_free is_question u3) as Hq.
  destruct (break_on is_question u3) as [u4 qry]; simpl in H4, Hh4, Hq.
  intros [= <-]. simpl. auto.
Qed.

Lemma urlparse_parts (url : string) (r : ParseResult) :
  urlparse url = Ok r ->
  no_char is_unsafe (netloc r) /\ no_char is_unsafe (path r) /\
  no_char is_netloc_delim (netloc r) /\
  no_char is_hash (path r) /\ no_char is_question (path r).
Proof.
  unfold urlparse. destruct (urlsplit url) as [r0|] eqn:E; cbn [bind];
    [|discriminate].
  apply urlsplit_parts in E as (A & B & C & D & F).
  destruct (mem_string (scheme r0) uses_params &&
            any_char is_semicolon (path r0)).
  - pose proof (no_char_splitparams is_unsafe _ B).
    pose proof (no_char_splitparams is_hash _ D).
    pose proof (no_char_splitparams is_question _ F).
    destruct (splitparams (path r0)); simpl in *.
    intros [= <-]. simpl. auto.
  - intros [= <-]. auto.
Qed.

Lemma lower_keeps_unsafe c : is_unsafe c = false -> is_unsafe (lower_char c) = false.
Proof. ascii_cases c. Qed.

Lemma lower_keeps_hash c : is_hash c = false -> is_hash (lower_char c) = false.
Proof. ascii_cases c. Qed.

Lemma lower_keeps_question c :
  is_question c = false -> is_question (lower_char c) = false.
Proof. ascii_cases c. Qed.

(** A normalised URL holds no tab, line break, '#' or '?'; it is in lower
    case and has no trailing slash left. *)
Lemma normalized_url_shape (url t : string) :
  normalized_url url = Ok t ->
  no_char is_unsafe t /\ no_char is_hash t /\ no_char is_question t /\
  lower t = t /\ rstrip_slash t = t.
Proof.
  unfold normalized_url, identity_of.
  destruct (urlparse url) as [r|] eqn:E; simpl; [|discriminate].
  apply urlparse_parts in E as (A & B & C & D & F).
  intros [= <-].
  assert (Ch : no_char is_hash (netloc r)).
  { eapply no_char_weaken; [|exact C]. intros c Hc. unfold is_netloc_delim.
    rewrite Hc. now rewrite !orb_true_r. }
  assert (Cq : no_char is_question (netloc r)).
  { eapply no_char_weaken; [|exact C]. intros c Hc. unfold is_netloc_delim.
    rewrite Hc. now rewrite !orb_true_r. }
  repeat split.
  - apply no_char_lower; [apply lower_keeps_unsafe|].
    apply no_char_rstrip, no_char_app; assumption.
  - apply no_char_lower; [apply lower_keeps_hash|].
    apply no_char_rstrip, no_char_app; assumption.
  - apply no_char_lower; [apply lower_keeps_question|].
    apply no_char_rstrip, no_char_app; assumption.
  - apply lower_idem.
  - now rewrite rstrip_slash_lower, rstrip_slash_idem.
Qed.

(** Text without scheme, network location, query, fragment or parameters
    is all path. *)
Lemma urlparse_bare_path (t : string) :
  lstrip_c0_space t = t ->
  no_char is_unsafe t -> no_char is_colon t ->
  prefix "//" t = false ->
  no_char is_hash t -> no_char is_question t -> no_char is_semicolon t ->
  urlparse t =
  Ok (mkParseResult EmptyString EmptyString t EmptyString EmptyString EmptyString).
Proof.
  intros Hl Hu Hc Hp Hh Hq Hs.
  assert (Hsch : split_scheme t = (EmptyString, t)).
  { unfold split_scheme. rewrite (break_on_free _ _ Hc). now destruct t. }
  assert (Hn : split_netloc t = (EmptyString, t)).
  { unfold split_netloc. destruct t as [|c1 [|c2 r]]; auto.
    simpl in Hp. unfold is_slash.
    destruct (Ascii.eqb_spec c1 "/"%char) as [->|]; simpl; auto.
    destruct (Ascii.eqb_spec c2 "/"%char) as [->|]; simpl; auto.
    simpl in Hp. destruct r; discriminate. }
  unfold urlparse, urlsplit. rewrite Hl, (remove_unsafe_id _ Hu), Hsch, Hn.
  change (netloc_refused EmptyString) with false. cbv iota.
  rewrite (break_on_free _ _ Hh), (break_on_free _ _ Hq).
  cbn [bind scheme path]. unfold no_char in Hs. rewrite Hs.
  now rewrite andb_false_r.
Qed.

(** C6, as stated, fails: two trailing slashes are both stripped, and text
    that is no URL comes back as it is, not as the empty string. *)
Lemma normalized_url_strips_both_slashes :
  normalized_url "https://gitlab.com/org/repo//" = Ok "gitlab.com/org/repo" /\
  spec_normalize "https://gitlab.com/org/repo//" = Ok "gitlab.com/org/repo/" /\
  normalized_url "https://gitlab.com/org/repo//"
    <> spec_normalize "https://gitlab.com/org/repo//" /\
  normalized_url "not a url" = Ok "not a url".
Proof. repeat split. discriminate. Qed.

(** C6 (amended).  When [urlparse] returns, the normalised URL is the
    lowercased concatenation of network location and path with every
    trailing slash removed: it never ends with a slash, and putting back a
    run of slashes gives the lowercased concatenation.  When [urlparse]
    raises, so does the normalisation.  The empty string gives the empty
    string, and text with nothing of a URL in it is taken as a path: it
    comes back lowercased and without its trailing slashes. *)
Theorem normalized_url_strips_every_slash (url : string) :
  (forall parsed_url,
     urlparse url = Ok parsed_url ->
     exists t k,
       normalized_url url = Ok t /\
       ends_with_slash t = false /\
       lower t = t /\
       lower (netloc parsed_url ++ path parsed_url) = t ++ slashes k) /\
  (forall e, urlparse url = Raise e -> normalized_url url = Raise e) /\
  normalized_url "" = Ok "" /\
  (bare_path url -> normalized_url url = Ok (lower (rstrip_slash url))).
Proof.
  split; [|split; [|split]]; [| |reflexivity|].
  - intros p Hp. unfold normalized_url, identity_of. rewrite Hp. simpl.
    destruct (rstrip_slash_decompose (netloc p ++ path p)) as [k Hk].
    exists (lower (rstrip_slash (netloc p ++ path p))), k.
    split; [reflexivity|]. split; [|split].
    + now rewrite ends_with_slash_lower, ends_with_slash_rstrip.
    + apply lower_idem.
    + rewrite Hk at 1. now rewrite lower_app, lower_slashes.
  - intros e He. unfold normalized_url. now rewrite He.
  - intros (Hl & Hp & Hn). unfold normalized_url, identity_of.
    rewrite urlparse_bare_path; auto;
      (eapply no_char_weaken; [|exact Hn]); intros c Hc;
      unfold is_url_syntax; rewrite Hc; now rewrite ?orb_true_r.
Qed.

Lemma normalized_url_strips_every_slash_witness :
  exists t k,
    normalized_url "HTTPS://GitLab.com/Org/Repo///" = Ok t /\
    ends_with_slash t = false /\
    lower t = t /\
    "gitlab.com/org/repo///" = t ++ slashes k.
Proof.
  destruct (normalized_url_strips_every_slash "HTTPS://GitLab.com/Org/Repo///")
    as (H & _).
  exact (H _ eq_refl).
Defined.

(** C7, as stated, fails: the identity of a URL with a port re-parses with
    the host as scheme, and normalising it again drops the host. *)
Lemma normalized_url_not_idempotent_with_port :
  normalized_url "https://gitlab.example.com:8443/org/repo"
    = Ok "gitlab.example.com:8443/org/repo" /\
  normalized_url "gitlab.example.com:8443/org/repo" = Ok "8443/org/repo" /\
  normalized_url "gitlab.example.com:8443/org/repo"
    <> Ok "gitlab.example.com:8443/org/repo".
Proof. repeat split. discriminate. Qed.

(** C7 (amended).  Normalisation is idempotent on the identities that
    re-parse as a bare path: when the identity of a raw URL holds no ':'
    and no ';', does not begin with "//" and has no leading space or
    control character, normalising it again returns it unchanged. *)
Theorem normalized_url_idempotent (url t : string) :
  normalized_url url = Ok t ->
  no_char is_colon t ->
  no_char is_semicolon t ->
  prefix "//" t = false ->
  lstrip_c0_space t = t ->
  normalized_url t = Ok t.
Proof.
  intros Ht Hc Hs Hp Hl.
  apply normalized_url_shape in Ht as (Hu & Hh & Hq & Hlow & Hstrip).
  unfold normalized_url, identity_of.
  rewrite (urlparse_bare_path t Hl Hu Hc Hp Hh Hq Hs). simpl.
  now rewrite Hstrip, Hlow.
Qed.

Lemma normalized_url_idempotent_witness :
  normalized_url "HTTPS://GitLab.com/org/repo/" = Ok "gitlab.com/org/repo" /\
  normalized_url "gitlab.com/org/repo" = Ok "gitlab.com/org/repo".
Proof.
  split; [reflexivity|].
  apply (normalized_url_idempotent "HTTPS://GitLab.com/org/repo/"
           "gitlab.com/org/repo"); reflexivity.
Defined.

(** ** Repository matcher: claim C10 *)

Lemma element_repos_loop_step element rest d :
  element_repos_loop (element :: rest) d =
  (identity <- element_identity element ;;
   element_repos_loop rest (file_element d element identity)).
Proof.
  simpl. unfold element_identity.
  destruct (get_repository_url element) as [u|]; simpl; auto.
  destruct (truthy u); simpl; auto.
  destruct (urlparse_value u); reflexivity.
Qed.

Lemma element_repos_loop_app before l d er :
  element_repos_loop (before ++ l) d = Ok er ->
  exists d', element_repos_loop before d = Ok d' /\
             element_repos_loop l d' = Ok er.
Proof.
  revert d. induction before as [|e before IH]; intros d H.
  - exists d. now split.
  - rewrite <- app_comm_cons, element_repos_loop_step in H.
    rewrite element_repos_loop_step.
    destruct (element_identity e) as [i|]; simpl in *; [|discriminate].
    now apply IH.
Qed.

Lemma element_repos_loop_other after n d er :
  element_repos_loop after d = Ok er ->
  (forall e', In e' after -> element_identity e' <> Ok (Some n)) ->
  dict_get er n = dict_get d n.
Proof.
  revert d. induction after as [|e after IH]; intros d H Hother.
  - simpl in H. now injection H as <-.
  - rewrite element_repos_loop_step in H.
    destruct (element_identity e) as [i|] eqn:Ei; simpl in H; [|discriminate].
    rewrite (IH _ H) by (intros e' He'; apply Hother; now right).
    destruct i as [k|]; simpl; auto.
    apply dict_get_set_neq. intros ->.
    apply (Hother e); [now left | exact Ei].
Qed.

(** Last wins: after the first loop the identity maps to the last element
    that exposes it. *)
Lemma element_repos_loop_last before e after n d er :
  element_repos_loop (before ++ e :: after) d = Ok er ->
  element_identity e = Ok (Some n) ->
  (forall e', In e' after -> element_identity e' <> Ok (Some n)) ->
  dict_get er n = Some e.
Proof.
  intros H He Hafter.
  apply element_repos_loop_app in H as (d' & _ & H).
  rewrite element_repos_loop_step, He in H. simpl in H.
  rewrite (element_repos_loop_other _ _ _ _ H Hafter).
  apply dict_get_set_eq.
Qed.

Lemma element_repos_loop_succeeds elements d :
  (forall e, In e elements -> succeeds (element_identity e)) ->
  succeeds (element_repos_loop elements d).
Proof.
  revert d. induction elements as [|e elements IH]; intros d H.
  - now exists d.
  - rewrite element_repos_loop_step.
    destruct (H e (or_introl eq_refl)) as [i ->]. simpl.
    apply IH. intros e' He'. apply H. now right.
Qed.

Lemma matches_loop_In rows url_column er ms :
  matches_loop rows url_column er = Ok ms ->
  forall m, In m ms <->
            In (csv_repo m) rows /\ paired_with url_column er m.
Proof.
  unfold paired_with.
  revert ms. induction rows as [|row rows IH]; simpl; intros ms H [r e];
    simpl.
  - injection H as <-. simpl. tauto.
  - destruct (url_cell row url_column) as [cell|] eqn:Ec.
    + destruct (normalized_url cell) as [n|] eqn:En; simpl in H;
        [|discriminate].
      destruct (matches_loop rows url_column er) as [ms'|]; simpl in H;
        [|discriminate].
      specialize (IH ms' eq_refl (mkMatch r e)). simpl in IH.
      destruct (dict_get er n) as [element|] eqn:Eg; injection H as <-.
      * simpl. rewrite IH. split.
        -- intros [[= <- <-]|[Hin Hp]]; [|tauto]. split; [now left|].
           exists cell, n. auto.
        -- intros [[<-|Hin] Hp]; [|tauto].
           left. destruct Hp as (c & k & Hc & Hk & Hd). congruence.
      * rewrite IH. split; [tauto|].
        intros [[<-|Hin] Hp]; [|tauto].
        destruct Hp as (c & k & Hc & Hk & Hd). congruence.
    + rewrite (IH ms H (mkMatch r e)). simpl. split; [tauto|].
      intros [[<-|Hin] Hp]; [|tauto].
      destruct Hp as (c & k & Hc & _). congruence.
Qed.

Lemma matches_loop_succeeds rows url_column er :
  (forall row cell, In row rows -> url_cell row url_column = Some cell ->
                    succeeds (normalized_url cell)) ->
  succeeds (matches_loop rows url_column er).
Proof.
  induction rows as [|row rows IH]; simpl; intros H.
  - now exists [].
  - destruct IH as [ms Hms]; [intros r c Hr; apply H; now right|].
    destruct (url_cell row url_column) as [cell|] eqn:Ec.
    + destruct (H row cell (or_introl eq_refl) Ec) as [n ->]. simpl.
      rewrite Hms. simpl. destruct (dict_get er n); eexists; reflexivity.
    + now exists ms.
Qed.

(** C10.  When several elements expose repository URLs with the same
    normalised identity, the identity map keeps the one that comes last in
    the element sequence: the matcher returns, and every row of the table
    whose normalised URL is that identity is paired with that last element
    and with no other. *)
Theorem match_repositories_last_wins
    (before after : list json) (e : json) (df : DataFrame)
    (url_column n : string) :
  find_url_column (columns df) = Some url_column ->
  (forall e', In e' (before ++ e :: after) -> succeeds (element_identity e')) ->
  (forall row cell, In row (rows df) -> url_cell row url_column = Some cell ->
                    succeeds (normalized_url cell)) ->
  element_identity e = Ok (Some n) ->
  (forall e', In e' after -> element_identity e' <> Ok (Some n)) ->
  exists matches,
    match_repositories (before ++ e :: after) (Some df) = Ok matches /\
    forall row cell,
      In row (rows df) -> url_cell row url_column = Some cell ->
      normalized_url cell = Ok n ->
      In (mkMatch row e) matches /\
      (forall e', In (mkMatch row e') matches -> e' = e).
Proof.
  intros Hcol Hels Hrows He Hafter.
  unfold match_repositories. rewrite Hcol.
  destruct (element_repos_loop_succeeds (before ++ e :: after) [] Hels)
    as [er Her].
  rewrite Her. cbn [bind].
  destruct (matches_loop_succeeds (rows df) url_column er Hrows) as [ms Hms].
  exists ms. split; [exact Hms|].
  pose proof (element_repos_loop_last _ _ _ _ _ _ Her He Hafter) as Hlast.
  intros row cell Hin Hcell Hn. split.
  - apply (matches_loop_In _ _ _ _ Hms). simpl. split; [exact Hin|].
    exists cell, n. auto.
  - intros e' He'. apply (matches_loop_In _ _ _ _ Hms) in He' as [_ Hp].
    destruct Hp as (c & k & Hc & Hk & Hd). simpl in *. congruence.
Qed.

Lemma match_repositories_last_wins_witness :
  let old := JObj [("title", JStr "Orders (old)");
                   ("links", JArr [JObj [("title", JStr "repository");
                                         ("url", JStr "https://gitlab.com/o/orders/")]])] in
  let new := JObj [("title", JStr "Orders");
                   ("links", JArr [JObj [("title", JStr "repository");
                                         ("url", JStr "http://GitLab.com/o/orders")]])] in
  let df := mkDataFrame ["name"; "URL"]
              [[("name", Text "orders"); ("URL", Text "https://gitlab.com/o/orders")]] true in
  exists matches,
    match_repositories ([old] ++ new :: []) (Some df) = Ok matches /\
    forall row cell,
      In row (rows df) -> url_cell row "URL" = Some cell ->
      normalized_url cell = Ok "gitlab.com/o/orders" ->
      In (mkMatch row new) matches /\
      (forall e', In (mkMatch row e') matches -> e' = new).
Proof.
  intros old new df.
  apply (match_repositories_last_wins [old] [] new df "URL"
           "gitlab.com/o/orders").
  - reflexivity.
  - intros e' [<-|[<-|[]]]; eexists; reflexivity.
  - intros row cell [<-|[]] [= <-]. eexists; reflexivity.
  - reflexivity.
  - intros e' [].
Defined.

Example match_repositories_last_wins_run :
  let old := JObj [("title", JStr "Orders (old)");
                   ("links", JArr [JObj [("title", JStr "repository");
                                         ("url", JStr "https://gitlab.com/o/orders/")]])] in
  let new := JObj [("title", JStr "Orders");
                   ("links", JArr [JObj [("title", JStr "repository");
                                         ("url", JStr "http://GitLab.com/o/orders")]])] in
  let row := [("name", Text "orders"); ("URL", Text "https://gitlab.com/o/orders")] in
  match_repositories [old; new] (Some (mkDataFrame ["name"; "URL"] [row] true))
  = Ok [mkMatch row new].
Proof. reflexivity. Qed.

(** ** Aggregate counts: claim C1 *)

Lemma count_status_total (l : list ProgressRecord) :
  (count_status Complete l + count_status Incomplete l
   + count_status NotMapped l = length l)%nat.
Proof.
  unfold count_status. induction l as [|p l IH]; simpl; auto.
  destruct (Status p); simpl; lia.
Qed.


Lemma matches_loop_rows rows url_column er ms :
  matches_loop rows url_column er = Ok ms ->
  map csv_repo ms = filter (row_matched url_column er) rows.
Proof.
  revert ms. induction rows as [|row rows IH]; simpl; intros ms H.
  - now injection H as <-.
  - unfold row_matched at 1, url_matched.
    destruct (url_cell row url_column) as [cell|] eqn:Ec; [|now apply IH].
    destruct (normalized_url cell) as [n|]; simpl in H; [|discriminate].
    destruct (matches_loop rows url_column er) as [ms'|]; simpl in H;
      [|discriminate].
    unfold dict_mem. destruct (dict_get er n); injection H as <-; simpl;
      now rewrite (IH ms' eq_refl).
Qed.

Lemma score_loop_inv ms sel recs urls :
  score_loop ms sel = Ok (recs, urls) ->
  length recs = length ms /\
  urls = map (fun m => series_get (csv_repo m) "url" "") ms.
Proof.
  revert recs urls. induction ms as [|m ms IH]; simpl; intros recs urls H.
  - injection H as <- <-. now split.
  - destruct (score m sel) as [r|] eqn:Er; simpl in H; [|discriminate].
    destruct (score_loop ms sel) as [[recs' urls']|]; simpl in H;
      [|discriminate].
    injection H as <- <-. destruct (IH _ _ eq_refl) as [Hl Hu].
    apply score_inv in Er as (_ & _ & _ & _ & _ & _ & Hrepo).
    simpl. now rewrite Hl, Hu, Hrepo.
Qed.

Lemma unmatched_loop_filter sh rows url_column urls :
  unmatched_loop sh rows url_column urls =
  map (fun row => not_mapped_record (series_get row url_column ""))
    (filter (left_unmatched sh url_column urls) rows).
Proof.
  unfold left_unmatched.
  induction rows as [|row rows IH]; simpl; auto.
  destruct (cell_truthy (series_get row url_column "")
            && negb (in_url_set sh (series_get row url_column "") urls));
    simpl; now rewrite IH.
Qed.

Lemma unmatched_loop_length sh rows url_column urls :
  length (unmatched_loop sh rows url_column urls) =
  length (filter (left_unmatched sh url_column urls) rows).
Proof. now rewrite unmatched_loop_filter, length_map. Qed.



(** A row that has a URL cell: both loops read the same cell. *)
Lemma url_cell_series_get row url_column c :
  dict_get row url_column = Some c -> cell_truthy c = true ->
  url_cell row url_column = Some (cell_str c) /\
  series_get row url_column "" = c.
Proof.
  intros Hc Ht. unfold url_cell, series_get. now rewrite Hc, Ht.
Qed.



Lemma score_loop_urls ms sel recs urls :
  score_loop ms sel = Ok (recs, urls) -> urls = map Repository recs.
Proof.
  revert recs urls. induction ms as [|m ms IH]; simpl; intros recs urls H.
  - now injection H as <- <-.
  - destruct (score m sel) as [r|]; simpl in H; [|discriminate].
    destruct (score_loop ms sel) as [[recs' urls']|]; simpl in H;
      [|discriminate].
    injection H as <- <-. simpl. now rewrite (IH _ _ eq_refl).
Qed.

(** The scoring loop gives one record per pair, in order: the score of
    the pair. *)
Lemma score_loop_each ms sel recs urls :
  score_loop ms sel = Ok (recs, urls) ->
  Forall2 (fun m r => score m sel = Ok r) ms recs.
Proof.
  revert recs urls. induction ms as [|m ms IH]; simpl; intros recs urls H.
  - injection H as <- <-. constructor.
  - destruct (score m sel) as [r|] eqn:Er; simpl in H; [|discriminate].
    destruct (score_loop ms sel) as [[recs' urls']|]; simpl in H;
      [|discriminate].
    injection H as <- <-. constructor; [exact Er|]. eapply IH; eauto.
Qed.

Lemma score_scored_record (m : Match) (sel : list string) (r : ProgressRecord) :
  score m sel = Ok r -> scored_record sel r.
Proof.
  intros H. apply score_inv in H as (d & Hd & Hp & Ht & Hq & Hs & _).
  pose proof (count_present_le sel d Hd) as Hle.
  destruct (progress_percent_bounds _ _ _ Hle Hq) as [H0 H100].
  unfold scored_record. rewrite Hp, Ht, Hs. repeat split; auto.
  destruct (count_present d sel =? length sel)%nat; discriminate.
Qed.

Lemma score_loop_scored ms sel recs urls :
  score_loop ms sel = Ok (recs, urls) -> Forall (scored_record sel) recs.
Proof.
  revert recs urls. induction ms as [|m ms IH]; simpl; intros recs urls H.
  - injection H as <- <-. constructor.
  - destruct (score m sel) as [r|] eqn:Er; simpl in H; [|discriminate].
    destruct (score_loop ms sel) as [[recs' urls']|]; simpl in H;
      [|discriminate].
    injection H as <- <-. constructor.
    + eapply score_scored_record; eauto.
    + eapply IH; eauto.
Qed.

Lemma unmatched_loop_unmapped sh rows url_column urls :
  Forall unmapped_record (unmatched_loop sh rows url_column urls).
Proof.
  induction rows as [|row rows IH]; simpl; [constructor|].
  destruct (cell_truthy (series_get row url_column "")) eqn:E; simpl; auto.
  destruct (in_url_set sh (series_get row url_column "") urls); simpl; auto.
  constructor; auto. split; [reflexivity|]. simpl.
  intros Hr. rewrite Hr in E. discriminate.
Qed.

Lemma filter_subseq {A : Type} (f : A -> bool) (l : list A) :
  subseq (filter f l) l.
Proof.
  induction l as [|x l IH]; simpl; [apply subseq_nil|].
  destruct (f x); [apply subseq_keep | apply subseq_skip]; exact IH.
Qed.

(** The parts [progress_data] is made of: the records the scoring loop
    gives on the pairs of the matcher, then the records of the rows the
    last loop reports. *)
Lemma progress_data_parts
    (mapped_elements : list json) (df : DataFrame) (sel : list string)
    (pd : list ProgressRecord) :
  progress_data mapped_elements df sel = Ok pd ->
  exists ms recs urls unmapped,
    match_repositories mapped_elements (Some df) = Ok ms /\
    score_loop ms sel = Ok (recs, urls) /\
    (length ms <= len_df df)%nat /\
    pd = (recs ++ unmapped)%list /\
    Forall unmapped_record unmapped /\
    (length unmapped <= len_df df)%nat /\
    unmapped = map (not_mapped_of df) (unmatched_rows df urls).
Proof.
  unfold progress_data, progress_loops, not_mapped_of, unmatched_rows,
    row_url.
  destruct (match_repositories mapped_elements (Some df)) as [ms|] eqn:Hms;
    cbn [bind]; [|discriminate].
  destruct (score_loop ms sel) as [[recs urls]|] eqn:Hsc; cbn [bind fst snd];
    [|discriminate].
  assert (Hlen : (length ms <= len_df df)%nat).
  { unfold match_repositories in Hms.
    destruct (find_url_column (columns df)) as [col|].
    - destruct (element_repos_loop mapped_elements []) as [er|];
        cbn [bind] in Hms; [|discriminate].
      rewrite <- (length_map csv_repo ms), (matches_loop_rows _ _ _ _ Hms).
      apply filter_length_le.
    - injection Hms as <-. simpl. lia. }
  destruct (find_url_column (columns df)) as [col|] eqn:Hcol.
  - intros [= <-].
    exists ms, recs, urls, (unmatched_loop (shares_nan df) (rows df) col urls).
    split; [reflexivity|]. split; [exact Hsc|]. split; [exact Hlen|].
    split; [reflexivity|].
    split; [apply unmatched_loop_unmapped|].
    split; [rewrite unmatched_loop_length; apply filter_length_le|].
    apply unmatched_loop_filter.
  - intros [= <-]. exists ms, recs, urls, [].
    rewrite app_nil_r. repeat split; try constructor; auto. simpl. lia.
Qed.

Lemma count_status_app (s : status) (l1 l2 : list ProgressRecord) :
  count_status s (l1 ++ l2) = (count_status s l1 + count_status s l2)%nat.
Proof. unfold count_status. now rewrite filter_app, length_app. Qed.

Lemma count_status_scored (sel : list string) (l : list ProgressRecord) :
  Forall (scored_record sel) l -> count_status NotMapped l = 0%nat.
Proof.
  unfold count_status. induction 1 as [|p l [Hp _] _ IH]; simpl; auto.
  destruct (Status p); simpl; auto. now destruct Hp.
Qed.

Lemma count_status_unmapped (l : list ProgressRecord) :
  Forall unmapped_record l ->
  count_status Complete l = 0%nat /\ count_status Incomplete l = 0%nat /\
  count_status NotMapped l = length l.
Proof.
  unfold count_status. induction 1 as [|p l [Hp _] _ (IH1 & IH2 & IH3)]; simpl;
    auto.
  rewrite Hp. simpl. auto.
Qed.


(** When a report is made, it is made of [progress_data]. *)
Lemma critical_repositories_progress_inv
    (str_contains : string -> list json -> result (list bool))
    (mapped_elements : list json) (df : DataFrame) (sel : list string)
    (f : FilterSpec) (report : Report) :
  critical_repositories_progress str_contains mapped_elements (Some df) sel f
    = Ok (Some report) ->
  exists pd shown,
    progress_data mapped_elements df sel = Ok pd /\
    apply_filters str_contains f pd = Ok shown /\
    (0 < len_df df)%nat /\
    report = mkReport shown (length pd) (count_status Complete pd)
               (count_status Incomplete pd) (count_status NotMapped pd)
               (len_df df).
Proof.
  unfold critical_repositories_progress, progress_data.
  destruct mapped_elements as [|e0 es]; [discriminate|].
  destruct (match_repositories (e0 :: es) (Some df)) as [ms|]; cbn [bind];
    [|discriminate].
  destruct (0 <? len_df df)%nat eqn:Hpos; [|discriminate].
  destruct (progress_loops ms df sel) as [pd|]; cbn [bind]; [|discriminate].
  destruct (apply_filters str_contains f pd) as [shown|] eqn:Hf; cbn [bind];
    [|discriminate].
  intros [= <-]. exists pd, shown. apply Nat.ltb_lt in Hpos. auto.
Qed.





(** The worked example of the specification, from document to report. *)
Example report_end_to_end :
  let doc :=
    JObj [("elements",
           JObj [("x", JObj [("kind", JStr "service"); ("title", JStr "Orders");
                             ("links",
                              JArr [JObj [("title", JStr "repository");
                                          ("url", JStr "https://gitlab.com/o/orders")];
                                    JObj [("title", JStr "logs")]])])])] in
  let df := mkDataFrame ["url"]
              [[("url", Text "https://gitlab.com/o/orders")];
               [("url", Text "https://gitlab.com/o/billing")]] true in
  exists doc' elements report orders billing,
    extract_elements doc ["service"] = (doc', Ok elements) /\
    critical_repositories_progress plain_search elements (Some df)
      ["repository"; "logs"; "APM"] no_filter = Ok (Some report) /\
    filtered report = [orders; billing] /\
    Repository orders = "https://gitlab.com/o/orders" /\
    Element orders = JStr "Orders" /\
    present_link_count orders = 2%nat /\ selected_link_count orders = 3%nat /\
    (Progress orders == 200 # 3)%Q /\ Status orders = Incomplete /\
    billing = not_mapped_record "https://gitlab.com/o/billing" /\
    (complete_repos report, incomplete_repos report, unmapped_repos report,
     total_repos report) = (0, 1, 1, 2)%nat.
Proof.
  do 5 eexists. split; [reflexivity|]. split; [reflexivity|].
  split; [reflexivity|]. repeat split.
Qed.

(* ===================================================================== *)
(** * Further properties of the program *)

(** ** Element extractor *)

Lemma subseq_refl {A : Type} (l : list A) : subseq l l.
Proof. induction l; [apply subseq_nil | now apply subseq_keep]. Qed.

Lemma subseq_filter {A : Type} (f : A -> bool) (l : list A) :
  subseq (filter f l) l.
Proof.
  induction l as [|x l IH]; simpl; [apply subseq_nil|].
  destruct (f x); [now apply subseq_keep | now apply subseq_skip].
Qed.

Lemma subseq_length {A : Type} (l1 l2 : list A) :
  subseq l1 l2 -> (length l1 <= length l2)%nat.
Proof. induction 1; simpl; lia. Qed.

Lemma subseq_In {A : Type} (l1 l2 : list A) (x : A) :
  subseq l1 l2 -> In x l1 -> In x l2.
Proof. induction 1; simpl; intuition. Qed.

(** When the test of the loop returns, it is the selection test. *)
Lemma kind_selected_Ok (element_id : string) (element_data : json)
    (kinds : list string) (b : bool) :
  kind_selected element_data kinds = Ok b ->
  b = entry_selected kinds (element_id, element_data).
Proof.
  unfold kind_selected, entry_selected.
  destruct element_data as [| | |s|xs|fields]; simpl; try discriminate.
  - destruct (is_substring "kind" s); simpl; congruence.
  - destruct (existsb _ xs); simpl; congruence.
  - unfold dict_mem. destruct (dict_get fields "kind"); simpl; congruence.
Qed.

(** Whenever the loop completes, it has given the selected entries their
    key as ['id'] and returned them, in the order of the mapping. *)
Lemma extract_loop_Ok (items items' : list (string * json))
    (kinds : list string) (els : list json) :
  extract_loop items kinds = (items', Ok els) ->
  items' = map (with_id kinds) items /\ els = selected_elements kinds items.
Proof.
  unfold selected_elements.
  revert items' els. induction items as [|[k v] items IH]; simpl;
    intros items' els H.
  - injection H as <- <-. auto.
  - destruct (kind_selected v kinds) as [b|] eqn:Ek; [|discriminate].
    apply (kind_selected_Ok k) in Ek. unfold with_id at 1 3.
    rewrite <- Ek. destruct b.
    + destruct (py_setitem v "id" (JStr k)) as [v'|] eqn:Es; [|discriminate].
      destruct v; try discriminate. injection Es as <-.
      destruct (extract_loop items kinds) as [rest' [r|]]; simpl in H;
        [|discriminate].
      injection H as <- <-. destruct (IH _ _ eq_refl) as [-> ->].
      simpl. unfold with_id. rewrite <- Ek. auto.
    + destruct (extract_loop items kinds) as [rest' r].
      injection H as <- ->. destruct (IH _ _ eq_refl) as [-> ->]. auto.
Qed.

(** The loop raises nothing but [TypeError]. *)
Lemma extract_loop_Raise (items items' : list (string * json))
    (kinds : list string) (e : exn) :
  extract_loop items kinds = (items', Raise e) -> e = TypeError.
Proof.
  revert items'. induction items as [|[k v] items IH]; simpl; intros items' H.
  - discriminate.
  - destruct (kind_selected v kinds) as [b|e0] eqn:Ek.
    + destruct b.
      * destruct (py_setitem v "id" (JStr k)) as [v'|e1] eqn:Es.
        -- destruct (extract_loop items kinds) as [rest' [r|e2]]; simpl in H;
             [discriminate|]. injection H as _ <-. eapply IH; eauto.
        -- injection H as _ <-. destruct v; simpl in Es; congruence.
      * destruct (extract_loop items kinds) as [rest' [r|e2]];
          [discriminate|]. injection H as _ <-. eapply IH; eauto.
    + injection H as _ <-. unfold kind_selected in Ek.
      destruct v as [| | |s|xs|fields]; simpl in Ek; try congruence.
      * destruct (is_substring "kind" s); simpl in Ek; congruence.
      * destruct (existsb _ xs); simpl in Ek; congruence.
      * unfold dict_mem in Ek.
        destruct (dict_get fields "kind"); simpl in Ek; congruence.
Qed.

Lemma extract_loop_scalar (items : list (string * json)) (kinds : list string) :
  Exists (fun entry => is_scalar (snd entry)) items ->
  snd (extract_loop items kinds) = Raise TypeError.
Proof.
  intros Hex. destruct (extract_loop items kinds) as [items' [els|e]] eqn:E;
    simpl.
  - exfalso. revert items' els E.
    induction Hex as [[k v] items Hs|[k v] items _ IH]; simpl;
      intros items' els E.
    + simpl in Hs. destruct v; simpl in Hs; try contradiction;
        discriminate.
    + destruct (kind_selected v kinds) as [[|]|]; try discriminate.
      * destruct (py_setitem v "id" (JStr k)); [|discriminate].
        destruct (extract_loop items kinds) as [rest' [r|]]; simpl in E;
          [|discriminate]. eapply IH; eauto.
      * destruct (extract_loop items kinds) as [rest' [r|]];
          [|discriminate]. eapply IH; eauto.
  - f_equal. eapply extract_loop_Raise; eauto.
Qed.

Lemma dict_set_set {V : Type} (d : dict V) (k : string) (v v' : V) :
  dict_set (dict_set d k v) k v' = dict_set d k v'.
Proof.
  induction d as [|[k0 v0] d IH]; simpl.
  - now rewrite String.eqb_refl.
  - destruct (String.eqb k k0) eqn:E; simpl; rewrite E; [|rewrite IH];
      reflexivity.
Qed.

Lemma truthy_JObj_get (kvs : list (string * json)) (k : string) (v : json) :
  dict_get kvs k = Some v -> truthy (JObj kvs) = true.
Proof. destruct kvs; [discriminate | reflexivity]. Qed.

(** The call on a document with a top-level mapping of elements. *)
Lemma extract_elements_top (kvs items : list (string * json))
    (kinds : list string) :
  dict_get kvs "elements" = Some (JObj items) ->
  extract_elements (JObj kvs) kinds =
  (JObj (dict_set kvs "elements" (JObj (fst (extract_loop items kinds)))),
   snd (extract_loop items kinds)).
Proof.
  intros He. unfold extract_elements, has_top_level_elements.
  rewrite (truthy_JObj_get _ _ _ He). simpl. unfold dict_mem. rewrite He.
  simpl. now destruct (extract_loop items kinds).
Qed.

(** The call on a document with the mapping under ['specification']. *)
Lemma extract_elements_nested (kvs spec items : list (string * json))
    (kinds : list string) :
  dict_get kvs "elements" = None ->
  dict_get kvs "specification" = Some (JObj spec) ->
  dict_get spec "elements" = Some (JObj items) ->
  extract_elements (JObj kvs) kinds =
  (JObj (dict_set kvs "specification"
           (JObj (dict_set spec "elements"
                    (JObj (fst (extract_loop items kinds)))))),
   snd (extract_loop items kinds)).
Proof.
  intros He Hs Hse.
  unfold extract_elements, has_top_level_elements, has_specification_elements.
  rewrite (truthy_JObj_get _ _ _ Hs). simpl. unfold dict_mem.
  rewrite He, Hs. simpl. unfold dict_mem. rewrite Hse. simpl.
  now destruct (extract_loop items kinds).
Qed.

(** What a call that returns has returned and written. *)
Lemma extract_elements_Ok (c4_data c4_data' : json) (kinds : list string)
    (els : list json) :
  extract_elements c4_data kinds = (c4_data', Ok els) ->
  match elements_of c4_data with
  | Some items =>
      els = selected_elements kinds items /\
      c4_data' = write_elements c4_data (map (with_id kinds) items)
  | None => els = [] /\ c4_data' = c4_data
  end.
Proof.
  destruct c4_data as [| | |s|xs|kvs].
  - intros [= <- <-]. simpl. auto.
  - destruct b; simpl; [discriminate|]. intros [= <- <-]. auto.
  - unfold extract_elements, has_top_level_elements,
      has_specification_elements. simpl.
    destruct (negb (n =? 0)%Z); simpl; [discriminate|].
    intros [= <- <-]. auto.
  - unfold extract_elements, has_top_level_elements,
      has_specification_elements. simpl.
    destruct (negb (is_empty s)); simpl.
    + destruct (is_substring "elements" s); simpl; [discriminate|].
      destruct (is_substring "specification" s); simpl; [discriminate|].
      intros [= <- <-]. auto.
    + intros [= <- <-]. auto.
  - unfold extract_elements, has_top_level_elements,
      has_specification_elements. cbn [truthy].
    destruct xs as [|x xs']; [intros [= <- <-]; simpl; auto|].
    cbn [py_contains bind].
    destruct (existsb (fun x0 => eq_str x0 "elements") (x :: xs'));
      cbn [py_getitem bind]; [discriminate|].
    destruct (existsb (fun x0 => eq_str x0 "specification") (x :: xs'));
      cbn [py_getitem bind]; [discriminate|].
    intros [= <- <-]. simpl. auto.
  - simpl elements_of. unfold write_elements.
    destruct (dict_get kvs "elements") as [v|] eqn:He.
    + destruct v as [| | |s|xs|items];
        try (unfold extract_elements, has_top_level_elements;
             rewrite (truthy_JObj_get _ _ _ He); simpl; unfold dict_mem;
             rewrite He; simpl; discriminate).
      rewrite (extract_elements_top _ _ _ He).
      destruct (extract_loop items kinds) as [items' r] eqn:El. simpl.
      intros [= <- ->]. apply extract_loop_Ok in El as [-> ->]. auto.
    + destruct (dict_get kvs "specification") as [v|] eqn:Hs.
      * destruct v as [| | |s|xs|spec].
        1-3: unfold extract_elements, has_top_level_elements,
               has_specification_elements;
             rewrite (truthy_JObj_get _ _ _ Hs); simpl; unfold dict_mem;
             rewrite He, Hs; simpl; discriminate.
        -- unfold extract_elements, has_top_level_elements,
             has_specification_elements.
           rewrite (truthy_JObj_get _ _ _ Hs). simpl. unfold dict_mem.
           rewrite He, Hs. simpl.
           destruct (is_substring "elements" s); simpl; [discriminate|].
           intros [= <- <-]. auto.
        -- unfold extract_elements, has_top_level_elements,
             has_specification_elements.
           rewrite (truthy_JObj_get _ _ _ Hs). simpl. unfold dict_mem.
           rewrite He, Hs. simpl.
           destruct (existsb (fun x => eq_str x "elements") xs); simpl;
             [discriminate|].
           intros [= <- <-]. auto.
        -- destruct (dict_get spec "elements") as [v|] eqn:Hse.
           ++ destruct v as [| | |s|xs|items];
                try (unfold extract_elements, has_top_level_elements,
                       has_specification_elements;
                     rewrite (truthy_JObj_get _ _ _ Hs); simpl;
                     unfold dict_mem; rewrite He, Hs; simpl;
                     unfold dict_mem; rewrite Hse; simpl; discriminate).
              rewrite (extract_elements_nested _ _ _ _ He Hs Hse).
              destruct (extract_loop items kinds) as [items' r] eqn:El.
              simpl. intros [= <- ->].
              apply extract_loop_Ok in El as [-> ->]. auto.
           ++ unfold extract_elements, has_top_level_elements,
                has_specification_elements.
              rewrite (truthy_JObj_get _ _ _ Hs). simpl. unfold dict_mem.
              rewrite He, Hs. simpl. unfold dict_mem. rewrite Hse. simpl.
              intros [= <- <-]. auto.
      * unfold extract_elements, has_top_level_elements,
          has_specification_elements.
        destruct (truthy (JObj kvs)); simpl; unfold dict_mem;
          try rewrite He, Hs; simpl; intros [= <- <-]; auto.
Qed.

Lemma selected_elements_ids (kinds : list string) (items : list (string * json)) :
  map (field_of "id") (selected_elements kinds items) =
  map (fun entry => Some (JStr (fst entry))) (filter (entry_selected kinds) items).
Proof.
  unfold selected_elements. induction items as [|[k v] items IH]; simpl; auto.
  destruct (entry_selected kinds (k, v)) eqn:E; simpl; auto.
  rewrite IH. f_equal. unfold with_id. rewrite E. simpl.
  unfold entry_selected in E. simpl in E. destruct v; try discriminate.
  simpl. apply dict_get_set_eq.
Qed.

Lemma selected_elements_kinds (kinds : list string) (items : list (string * json)) :
  Forall (fun element =>
            exists kind, field_of "kind" element = Some (JStr kind) /\
                         In kind kinds)
    (selected_elements kinds items).
Proof.
  unfold selected_elements. induction items as [|[k v] items IH]; simpl;
    [constructor|].
  destruct (entry_selected kinds (k, v)) eqn:E; simpl; auto.
  constructor; auto. unfold with_id. rewrite E. simpl.
  unfold entry_selected in E. simpl in E.
  destruct v as [| | | | |fields]; try discriminate.
  destruct (dict_get fields "kind") as [[| | |s| |]|] eqn:Ek; try discriminate.
  exists s. simpl. split; [|now apply mem_string_In].
  rewrite dict_get_set_neq by discriminate. exact Ek.
Qed.

Lemma selected_elements_stored (kinds : list string)
    (items : list (string * json)) :
  selected_elements kinds items =
  map (fun entry => store_at (snd entry) "id" (JStr (fst entry)))
    (filter (entry_selected kinds) items).
Proof.
  unfold selected_elements. apply map_ext_in. intros entry Hin.
  apply filter_In in Hin as [_ Hsel]. unfold with_id. now rewrite Hsel.
Qed.

(** Storing the key of a selected entry touches the field ['id'] only. *)
Lemma stored_id_fields (kinds : list string) (entry : string * json) :
  entry_selected kinds entry = true ->
  let element := store_at (snd entry) "id" (JStr (fst entry)) in
  field_of "id" element = Some (JStr (fst entry)) /\
  forall k, k <> "id" -> field_of k element = field_of k (snd entry).
Proof.
  unfold entry_selected. destruct entry as [key v]. simpl.
  destruct v as [| | | | |fields]; try discriminate. intros _. simpl. split.
  - apply dict_get_set_eq.
  - intros k Hk. apply dict_get_set_neq. congruence.
Qed.

(** X1.  Whenever [extract_elements] returns, what it returns is exactly
    the entries of the document's mapping of elements whose ['kind'] is one
    of the target kinds, in the order of the mapping, each with the key of
    its entry stored under ['id'] and every other field as it is in the
    document.  So each returned element has a ['kind'] among
    [target_kinds], and there are no more of them than entries. *)
Theorem extract_elements_selects_in_order
    (c4_data c4_data' : json) (kinds : list string) (els : list json) :
  extract_elements c4_data kinds = (c4_data', Ok els) ->
  let items := match elements_of c4_data with
               | Some items => items
               | None => []
               end in
  let selected := filter (entry_selected kinds) items in
  els = map (fun entry => store_at (snd entry) "id" (JStr (fst entry)))
          selected /\
  Forall2 (fun entry element =>
             field_of "id" element = Some (JStr (fst entry)) /\
             forall k, k <> "id" -> field_of k element = field_of k (snd entry))
    selected els /\
  Forall (fun element =>
            exists kind, field_of "kind" element = Some (JStr kind) /\
                         In kind kinds) els /\
  (length els <= length items)%nat.
Proof.
  intros H items selected. apply extract_elements_Ok in H.
  assert (Hels : els = selected_elements kinds items).
  { subst items. destruct (elements_of c4_data); now destruct H. }
  clear H. subst els selected.
  split; [apply selected_elements_stored|].
  split; [|split].
  - rewrite selected_elements_stored.
    assert (Hsel : Forall (fun entry => entry_selected kinds entry = true)
                     (filter (entry_selected kinds) items)).
    { apply Forall_forall. intros entry Hin. now apply filter_In in Hin. }
    induction Hsel as [|entry l Hentry _ IH]; simpl; constructor; auto.
    now apply (stored_id_fields kinds).
  - apply selected_elements_kinds.
  - unfold selected_elements. rewrite length_map. apply filter_length_le.
Qed.

Lemma extract_elements_selects_in_order_witness :
  let doc := JObj [("elements",
               JObj [("a", JObj [("kind", JStr "service");
                                 ("title", JStr "Orders")]);
                     ("b", JObj [("kind", JStr "database")]);
                     ("c", JObj [("kind", JStr "webapp")])])] in
  exists doc' els,
    extract_elements doc ["webapp"; "service"] = (doc', Ok els) /\
    els = [JObj [("kind", JStr "service"); ("title", JStr "Orders");
                 ("id", JStr "a")];
           JObj [("kind", JStr "webapp"); ("id", JStr "c")]].
Proof.
  intros doc. do 2 eexists. split; [reflexivity|].
  exact (proj1 (extract_elements_selects_in_order doc _ ["webapp"; "service"]
                  _ eq_refl)).
Defined.

Lemma elements_of_Some (c4_data : json) (items : list (string * json)) :
  elements_of c4_data = Some items ->
  exists kvs,
    c4_data = JObj kvs /\
    (dict_get kvs "elements" = Some (JObj items) \/
     dict_get kvs "elements" = None /\
     exists spec,
       dict_get kvs "specification" = Some (JObj spec) /\
       dict_get spec "elements" = Some (JObj items)).
Proof.
  destruct c4_data as [| | | | |kvs]; simpl; try discriminate.
  intros H. exists kvs. split; [reflexivity|].
  destruct (dict_get kvs "elements") as [[| | | | |its]|]; try discriminate.
  - left. congruence.
  - right. split; [reflexivity|].
    destruct (dict_get kvs "specification") as [[| | | | |spec]|];
      try discriminate.
    exists spec. split; [reflexivity|].
    destruct (dict_get spec "elements") as [[| | | | |its]|];
      try discriminate. congruence.
Qed.

Lemma kind_selected_set_id (fields : list (string * json)) (x : json)
    (kinds : list string) :
  kind_selected (JObj (dict_set fields "id" x)) kinds =
  kind_selected (JObj fields) kinds.
Proof.
  unfold kind_selected. simpl. unfold dict_mem.
  now rewrite dict_get_set_neq by discriminate.
Qed.

(** The loop run again on the mapping it left behind changes nothing. *)
Lemma extract_loop_again (items items' : list (string * json))
    (kinds : list string) (els : list json) :
  extract_loop items kinds = (items', Ok els) ->
  extract_loop items' kinds = (items', Ok els).
Proof.
  revert items' els. induction items as [|[k v] items IH]; simpl;
    intros items' els H.
  - injection H as <- <-. reflexivity.
  - destruct (kind_selected v kinds) as [[|]|] eqn:Ek; try discriminate.
    + destruct v as [| | | | |fields]; try discriminate. simpl in H.
      destruct (extract_loop items kinds) as [rest' [r|]] eqn:El; simpl in H;
        [|discriminate].
      injection H as <- <-. simpl.
      rewrite kind_selected_set_id, Ek. simpl.
      rewrite dict_set_set, (IH _ _ eq_refl). reflexivity.
    + destruct (extract_loop items kinds) as [rest' [r|]] eqn:El;
        [|discriminate]. injection H as <- <-.
      simpl. rewrite Ek, (IH _ _ eq_refl). reflexivity.
Qed.

(** X2.  Extraction is idempotent on the document it leaves behind: when
    [extract_elements] has returned, running it again on the document as
    the first call left it returns the same elements and changes nothing
    more. *)
Theorem extract_elements_again
    (c4_data c4_data' : json) (kinds : list string) (els : list json) :
  extract_elements c4_data kinds = (c4_data', Ok els) ->
  extract_elements c4_data' kinds = (c4_data', Ok els).
Proof.
  intros H. pose proof (extract_elements_Ok _ _ _ _ H) as Hc.
  destruct (elements_of c4_data) as [items|] eqn:Ee.
  - destruct Hc as [_ Hdoc].
    apply elements_of_Some in Ee
      as (kvs & -> & [He|(He & spec & Hs & Hse)]).
    + rewrite (extract_elements_top _ _ _ He) in H.
      destruct (extract_loop items kinds) as [items' r] eqn:El.
      simpl in H. injection H as <- ->.
      rewrite (extract_elements_top _ items' kinds (dict_get_set_eq _ _ _)).
      rewrite (extract_loop_again _ _ _ _ El). simpl.
      now rewrite dict_set_set.
    + rewrite (extract_elements_nested _ _ _ _ He Hs Hse) in H.
      destruct (extract_loop items kinds) as [items' r] eqn:El.
      simpl in H. injection H as <- ->.
      rewrite (extract_elements_nested _
                 (dict_set spec "elements" (JObj items')) items' kinds).
      * rewrite (extract_loop_again _ _ _ _ El). simpl.
        now rewrite !dict_set_set.
      * rewrite dict_get_set_neq by discriminate. exact He.
      * apply dict_get_set_eq.
      * apply dict_get_set_eq.
  - destruct Hc as [-> ->]. exact H.
Qed.

Lemma extract_elements_again_witness :
  let doc := JObj [("specification",
               JObj [("elements",
                      JObj [("a", JObj [("kind", JStr "service")]);
                            ("b", JObj [("kind", JStr "database")])])])] in
  let doc' := JObj [("specification",
                JObj [("elements",
                       JObj [("a", JObj [("kind", JStr "service");
                                         ("id", JStr "a")]);
                             ("b", JObj [("kind", JStr "database")])])])] in
  let els := [JObj [("kind", JStr "service"); ("id", JStr "a")]] in
  extract_elements doc ["service"] = (doc', Ok els) /\
  extract_elements doc' ["service"] = (doc', Ok els).
Proof.
  intros doc doc' els. split; [reflexivity|].
  apply (extract_elements_again doc doc' ["service"] els). reflexivity.
Defined.

(** X3.  What [extract_elements] raises on a malformed document: when the
    value under ['elements'] is not a mapping the call raises
    [AttributeError] and leaves the document as it was; when the mapping
    holds an entry that is [null], a number or a boolean the call raises
    [TypeError]. *)
Theorem extract_elements_malformed
    (kvs : list (string * json)) (kinds : list string) :
  (forall v,
     dict_get kvs "elements" = Some v ->
     (forall items, v <> JObj items) ->
     extract_elements (JObj kvs) kinds = (JObj kvs, Raise AttributeError)) /\
  (forall items,
     dict_get kvs "elements" = Some (JObj items) ->
     Exists (fun entry => is_scalar (snd entry)) items ->
     snd (extract_elements (JObj kvs) kinds) = Raise TypeError).
Proof.
  split.
  - intros v He Hv. unfold extract_elements, has_top_level_elements.
    rewrite (truthy_JObj_get _ _ _ He). simpl. unfold dict_mem. rewrite He.
    simpl. destruct v; try reflexivity. now destruct (Hv kvs0).
  - intros items He Hex. rewrite (extract_elements_top _ _ _ He). simpl.
    now apply extract_loop_scalar.
Qed.

Lemma extract_elements_malformed_witness :
  extract_elements (JObj [("elements", JArr [JObj [("kind", JStr "service")]])])
    ["service"]
  = (JObj [("elements", JArr [JObj [("kind", JStr "service")]])],
     Raise AttributeError) /\
  snd (extract_elements
         (JObj [("elements",
                 JObj [("a", JObj [("kind", JStr "service")]); ("b", JNull)])])
         ["service"]) = Raise TypeError.
Proof.
  split.
  - apply (proj1 (extract_elements_malformed
                    [("elements", JArr [JObj [("kind", JStr "service")]])]
                    ["service"])
             (JArr [JObj [("kind", JStr "service")]])).
    + reflexivity.
    + discriminate.
  - apply (proj2 (extract_elements_malformed
                    [("elements",
                      JObj [("a", JObj [("kind", JStr "service")]);
                            ("b", JNull)])]
                    ["service"])
             [("a", JObj [("kind", JStr "service")]); ("b", JNull)]).
    + reflexivity.
    + right. left. exact I.
Defined.

(** ** Link inspector *)

Lemma all_false_from_get (l : list string) (d : dict bool) (k : string) :
  dict_get (fold_left (fun d link_type => dict_set d link_type false) l d) k =
  if mem_string k l then Some false else dict_get d k.
Proof.
  revert d. induction l as [|x l IH]; simpl; intros d; auto.
  rewrite IH. destruct (mem_string k l); simpl; [now rewrite orb_true_r|].
  rewrite orb_false_r. destruct (String.eqb_spec k x) as [->|Hne].
  - apply dict_get_set_eq.
  - apply dict_get_set_neq. congruence.
Qed.

Lemma all_false_get (sel : list string) (k : string) :
  dict_get (all_false sel) k = if mem_string k sel then Some false else None.
Proof. unfold all_false. now rewrite all_false_from_get. Qed.

Lemma links_loop_get (links : list json) (sel : list string) (d : dict bool) :
  Forall is_mapping links ->
  exists d',
    links_loop links sel d = Ok d' /\
    forall k,
      dict_get d' k =
      if mem_string k sel && existsb (has_title k) links then Some true
      else dict_get d k.
Proof.
  intros H. revert d. induction H as [|link links Hl _ IH]; intros d; simpl.
  - exists d. split; auto. intros k. now rewrite andb_false_r.
  - rewrite title_selected_mapping by assumption. simpl.
    unfold has_title at 1.
    destruct (title_of link) as [[| | |t| |]|] eqn:Et; simpl;
      try solve [destruct (IH d) as (d' & -> & Hd'); exists d';
                 split; [reflexivity | exact Hd']].
    destruct (mem_string t sel) eqn:Em.
    + destruct (IH (dict_set d t true)) as (d' & -> & Hd').
      exists d'. split; auto. intros k. rewrite Hd'.
      destruct (String.eqb_spec t k) as [->|Hne].
      * rewrite Em. simpl. rewrite dict_get_set_eq.
        now destruct (existsb (has_title k) links).
      * simpl. rewrite dict_get_set_neq by assumption. reflexivity.
    + destruct (IH d) as (d' & -> & Hd'). exists d'. split; auto.
      intros k. rewrite Hd'.
      destruct (String.eqb_spec t k) as [->|Hne]; simpl; auto.
      now rewrite Em.
Qed.

(** On a well-formed element the inspector is its loop over the links,
    started from the flags all false. *)
Lemma check_element_links_loop
    (fields : list (string * json)) (links : list json) (sel : list string) :
  (dict_get fields "links" = None /\ links = []) \/
  dict_get fields "links" = Some (JArr links) ->
  check_element_links (JObj fields) sel = links_loop links sel (all_false sel).
Proof.
  intros Hl. unfold check_element_links, links_of. simpl. unfold dict_mem.
  destruct Hl as [[Hnone ->]|Hsome].
  - now rewrite Hnone.
  - rewrite Hsome. simpl. now destruct links.
Qed.

Lemma links_loop_flags (links : list json) (sel : list string) :
  Forall is_mapping links ->
  exists d,
    links_loop links sel (all_false sel) = Ok d /\
    forall k,
      dict_get d k =
      if mem_string k sel then Some (existsb (has_title k) links) else None.
Proof.
  intros Hm.
  destruct (links_loop_get links sel (all_false sel) Hm) as (d & Hd & Hk).
  exists d. split; [exact Hd|]. intros k. rewrite Hk, all_false_get.
  destruct (mem_string k sel); simpl; auto.
  now destruct (existsb (has_title k) links).
Qed.

(** X4.  On an element whose links are mappings (or that has no links),
    [check_element_links] returns one flag for each requested kind and no
    other: the flag of a kind is true exactly when some link is titled
    with that kind, whether or not the link carries a URL. *)
Theorem check_element_links_flags
    (fields : list (string * json)) (links : list json) (sel : list string) :
  (dict_get fields "links" = None /\ links = []) \/
  dict_get fields "links" = Some (JArr links) ->
  Forall is_mapping links ->
  exists d,
    check_element_links (JObj fields) sel = Ok d /\
    forall k,
      dict_get d k =
      if mem_string k sel then Some (existsb (has_title k) links) else None.
Proof.
  intros Hl Hm. unfold check_element_links, links_of. simpl. unfold dict_mem.
  destruct Hl as [[Hnone ->]|Hsome].
  - rewrite Hnone. simpl. exists (all_false sel). split; auto.
    intros k. apply all_false_get.
  - rewrite Hsome. simpl. destruct links as [|l0 links'].
    + simpl. exists (all_false sel). split; auto. intros k.
      apply all_false_get.
    + cbn [truthy bind py_iter].
      destruct (links_loop_get _ sel (all_false sel) Hm) as (d & -> & Hd).
      exists d. split; auto. intros k. rewrite Hd, all_false_get.
      destruct (mem_string k sel); simpl; auto.
      now destruct (has_title k l0 || existsb (has_title k) links').
Qed.

Lemma check_element_links_flags_witness :
  exists d,
    check_element_links
      (JObj [("links", JArr [titled "logs";
                             JObj [("title", JStr "logs"); ("url", JStr "x")]])])
      ["logs"; "APM"] = Ok d /\
    dict_get d "logs" = Some true /\
    dict_get d "APM" = Some false /\
    dict_get d "monitor" = None.
Proof.
  destruct (check_element_links_flags
              [("links", JArr [titled "logs";
                               JObj [("title", JStr "logs"); ("url", JStr "x")]])]
              [titled "logs"; JObj [("title", JStr "logs"); ("url", JStr "x")]]
              ["logs"; "APM"]) as (d & Hd & Hk).
  - right. reflexivity.
  - repeat constructor; eexists; reflexivity.
  - exists d. split; [exact Hd|].
    split; [exact (Hk "logs")|]. split; [exact (Hk "APM") | exact (Hk "monitor")].
Defined.

(** ** The scorer on matched pairs *)

(** The record of [score], with the flags it was counted from. *)
Lemma score_inv_links (m : Match) (sel : list string) (r : ProgressRecord) :
  score m sel = Ok r ->
  exists d0,
    check_element_links (c4_element m) sel = Ok d0 /\
    present_link_count r = count_present (apply_monitoring_alias d0 sel) sel /\
    selected_link_count r = length sel /\
    progress_percent (present_link_count r) (length sel) = Ok (Progress r) /\
    Status r = (if (present_link_count r =? length sel)%nat
                then Complete else Incomplete) /\
    py_get (c4_element m) "title" (JStr "") = Ok (Element r).
Proof.
  unfold score.
  destruct (get_repository_url (c4_element m)) as [u|]; simpl; try discriminate.
  destruct (check_element_links (c4_element m) sel) as [d|] eqn:Hd; simpl;
    try discriminate.
  destruct (progress_percent _ _) as [q|] eqn:Hq; simpl; try discriminate.
  destruct (py_get _ _ _) as [t|]; simpl; try discriminate.
  intros [= <-]. simpl. exists d. repeat split; auto.
Qed.

Lemma count_present_pos (d : dict bool) (sel : list string) (k : string) :
  dict_get d k = Some true -> In k sel -> (1 <= count_present d sel)%nat.
Proof.
  intros Hg Hk. unfold count_present.
  induction d as [|[k0 v0] d IH]; simpl in *; [discriminate|].
  destruct (String.eqb_spec k k0) as [E|Hne].
  - subst k0. injection Hg as ->. simpl.
    rewrite (proj2 (mem_string_In k sel) Hk). simpl. lia.
  - specialize (IH Hg). destruct (v0 && mem_string k0 sel); simpl; lia.
Qed.

Lemma apply_monitoring_alias_keeps (d : dict bool) (sel : list string)
    (k : string) :
  dict_get d k = Some true ->
  dict_get (apply_monitoring_alias d sel) k = Some true.
Proof.
  intros H. unfold apply_monitoring_alias.
  destruct (dict_get d "monitoring") as [[|]|]; auto.
  destruct (mem_string "monitor" sel); auto.
  destruct (String.eqb_spec "monitor" k) as [E|Hne].
  - subst k. apply dict_get_set_eq.
  - now rewrite dict_get_set_neq.
Qed.

Lemma first_repository_url_truthy (links : list json) :
  truthy (first_repository_url links) = true ->
  existsb (has_title "repository") links = true.
Proof.
  unfold first_repository_url. intros H. apply existsb_exists.
  destruct (find _ links) as [l|] eqn:Ef; [|discriminate].
  apply find_some in Ef as [Hin Hf]. exists l. split; auto.
  apply andb_true_iff in Hf as [Ht _]. exact Ht.
Qed.

Lemma progress_percent_pos (p t : nat) (q : Q) :
  (1 <= p)%nat -> (1 <= t)%nat -> progress_percent p t = Ok q -> (0 < q)%Q.
Proof.
  intros Hp Ht. unfold progress_percent. destruct t as [|t]; [lia|]. simpl.
  intros [= <-]. unfold Qdiv, Qinv, Qmult, Qlt, inject_Z. simpl. lia.
Qed.

(** X5.  A matched element always scores above zero when "repository" is
    among the selected kinds: if the element's links are mappings and
    [get_repository_url] finds a non-empty URL on it (what the matcher
    requires), the scorer returns a record with at least one link present
    and a progress above 0. *)
Theorem score_matched_counts_repository
    (m : Match) (sel : list string) (fields : list (string * json))
    (links : list json) (u : json) :
  c4_element m = JObj fields ->
  dict_get fields "links" = Some (JArr links) ->
  Forall is_mapping links ->
  get_repository_url (c4_element m) = Ok u ->
  truthy u = true ->
  In "repository" sel ->
  exists r,
    score m sel = Ok r /\
    (1 <= present_link_count r)%nat /\
    (0 < Progress r)%Q.
Proof.
  intros He Hl Hm Hu Ht Hsel.
  destruct (score_returns m sel fields links He Hl Hm) as [r Hr].
  exists r. split; [exact Hr|].
  apply score_inv_links in Hr as (d0 & Hd0 & Hp & _ & Hq & _).
  rewrite He in Hd0, Hu.
  destruct (links_loop_flags links sel Hm) as (d & Hd & Hflags).
  rewrite <- (check_element_links_loop fields links sel (or_intror Hl)) in Hd.
  rewrite Hd in Hd0. injection Hd0 as <-.
  assert (Hrepo : dict_get d "repository" = Some true).
  { rewrite Hflags, (proj2 (mem_string_In _ _) Hsel). f_equal.
    apply first_repository_url_truthy.
    assert (Hfirst : get_repository_url (JObj fields)
                     = Ok (first_repository_url links)).
    { unfold get_repository_url, links_of. simpl. unfold dict_mem.
      rewrite Hl. simpl. destruct links as [|l0 links']; [reflexivity|].
      cbn [truthy bind py_iter]. now apply repository_loop_first. }
    rewrite Hfirst in Hu. injection Hu as ->. exact Ht. }
  assert (Hpos : (1 <= present_link_count r)%nat).
  { rewrite Hp. apply (count_present_pos _ _ "repository"); auto.
    now apply apply_monitoring_alias_keeps. }
  split; [exact Hpos|].
  apply (progress_percent_pos _ _ _ Hpos) in Hq; auto.
  destruct sel; [contradiction | simpl; lia].
Qed.

Lemma score_matched_counts_repository_witness :
  exists r,
    score (mkMatch orders_row (orders_element [titled "logs"]))
      ["APM"; "repository"] = Ok r /\
    (1 <= present_link_count r)%nat /\
    (0 < Progress r)%Q.
Proof.
  apply (score_matched_counts_repository
           (mkMatch orders_row (orders_element [titled "logs"]))
           ["APM"; "repository"] (orders_fields [titled "logs"])
           [repository_link; titled "logs"]
           (JStr "https://gitlab.com/o/orders")).
  - reflexivity.
  - reflexivity.
  - repeat constructor; eexists; reflexivity.
  - reflexivity.
  - reflexivity.
  - right. left. reflexivity.
Defined.

(** ** Repository matcher *)

Lemma element_repos_loop_sound elements d er n e :
  element_repos_loop elements d = Ok er ->
  dict_get er n = Some e ->
  dict_get d n = Some e \/
  (In e elements /\ element_identity e = Ok (Some n)).
Proof.
  revert d. induction elements as [|x elements IH]; intros d H Hg.
  - simpl in H. injection H as <-. now left.
  - rewrite element_repos_loop_step in H.
    destruct (element_identity x) as [i|] eqn:Ei; simpl in H; [|discriminate].
    destruct (IH _ H Hg) as [Hd|[Hin He]].
    + destruct i as [k|]; simpl in Hd; [|now left].
      destruct (String.eqb_spec k n) as [E|Hne].
      * subst k. rewrite dict_get_set_eq in Hd. injection Hd as <-.
        right. split; [now left | exact Ei].
      * rewrite dict_get_set_neq in Hd by assumption. now left.
    + right. split; [now right | exact He].
Qed.

Lemma element_repos_loop_keeps elements d er n x :
  element_repos_loop elements d = Ok er ->
  dict_get d n = Some x ->
  exists e', dict_get er n = Some e'.
Proof.
  revert d x. induction elements as [|y elements IH]; intros d x H Hg.
  - simpl in H. injection H as <-. eauto.
  - rewrite element_repos_loop_step in H.
    destruct (element_identity y) as [i|]; simpl in H; [|discriminate].
    destruct i as [k|]; simpl in H; [|eapply IH; eauto].
    destruct (String.eqb_spec k n) as [E|Hne].
    + subst k. eapply IH; [exact H | apply dict_get_set_eq].
    + eapply IH; [exact H|]. rewrite dict_get_set_neq by assumption. eauto.
Qed.

Lemma element_repos_loop_complete elements d er n e :
  element_repos_loop elements d = Ok er ->
  In e elements -> element_identity e = Ok (Some n) ->
  exists e', dict_get er n = Some e'.
Proof.
  revert d. induction elements as [|x elements IH]; intros d H Hin He.
  - contradiction.
  - rewrite element_repos_loop_step in H.
    destruct Hin as [->|Hin].
    + rewrite He in H. simpl in H.
      eapply element_repos_loop_keeps; [exact H | apply dict_get_set_eq].
    + destruct (element_identity x) as [i|]; simpl in H; [|discriminate].
      eapply IH; eauto.
Qed.

(** X6.  What [match_repositories] returns on a table with a URL column:
    the matched rows are rows of the table, in table order; every pair
    joins a row to an element of the sequence whose repository URL has the
    same normalised identity as the row's URL; and every row whose URL has
    the identity of some element's repository URL is paired. *)
Theorem match_repositories_joins_on_identity
    (elements : list json) (df : DataFrame) (url_column : string)
    (ms : list Match) :
  find_url_column (columns df) = Some url_column ->
  match_repositories elements (Some df) = Ok ms ->
  subseq (map csv_repo ms) (rows df) /\
  (forall m, In m ms ->
     In (c4_element m) elements /\
     exists cell n,
       url_cell (csv_repo m) url_column = Some cell /\
       normalized_url cell = Ok n /\
       element_identity (c4_element m) = Ok (Some n)) /\
  (forall row cell n e,
     In row (rows df) -> url_cell row url_column = Some cell ->
     normalized_url cell = Ok n ->
     In e elements -> element_identity e = Ok (Some n) ->
     exists e', In (mkMatch row e') ms).
Proof.
  intros Hcol. unfold match_repositories. rewrite Hcol.
  destruct (element_repos_loop elements []) as [er|] eqn:Her; simpl;
    [|discriminate].
  intros Hms. split; [|split].
  - rewrite (matches_loop_rows _ _ _ _ Hms). apply subseq_filter.
  - intros m Hm. apply (matches_loop_In _ _ _ _ Hms) in Hm as [_ Hp].
    destruct Hp as (cell & n & Hc & Hn & Hg).
    destruct (element_repos_loop_sound _ _ _ _ _ Her Hg) as [Hd|[Hin He]];
      [discriminate|].
    split; [exact Hin|]. exists cell, n. auto.
  - intros row cell n e Hin Hc Hn He Hid.
    destruct (element_repos_loop_complete _ _ _ _ _ Her He Hid) as [e' Hg].
    exists e'. apply (matches_loop_In _ _ _ _ Hms). simpl.
    split; [exact Hin|]. exists cell, n. auto.
Qed.

Lemma match_repositories_joins_on_identity_witness :
  let element := orders_element [titled "logs"] in
  let other := [("url", Text "https://gitlab.com/o/billing")] in
  let df := mkDataFrame ["url"] [other; orders_row] true in
  match_repositories [element] (Some df) = Ok [mkMatch orders_row element] /\
  subseq (map csv_repo [mkMatch orders_row element]) (rows df).
Proof.
  intros element other df. split; [reflexivity|].
  exact (proj1 (match_repositories_joins_on_identity [element] df "url"
                  [mkMatch orders_row element] eq_refl eq_refl)).
Defined.

(** ** URL normalisation: what the identity does not depend on *)

(** The normalisation in two stages: the scheme is split off the cleaned
    URL, and only its membership in [uses_params] matters afterwards. *)
Lemma normalized_url_stages (url : string) :
  normalized_url url =
  normalized_after_scheme
    (mem_string (fst (split_scheme (clean_url url))) uses_params)
    (snd (split_scheme (clean_url url))).
Proof.
  unfold normalized_url, urlparse, urlsplit, normalized_after_scheme,
    clean_url, identity_of.
  destruct (split_scheme (remove_unsafe (lstrip_c0_space url))) as [sch u1].
  cbn [fst snd].
  destruct (split_netloc u1) as [nl u2].
  destruct (netloc_refused nl); [reflexivity|].
  destruct (break_on is_hash u2) as [u3 frag].
  destruct (break_on is_question u3) as [u4 qry].
  cbn [bind scheme path netloc].
  destruct (mem_string sch uses_params && any_char is_semicolon u4);
    [|reflexivity].
  destruct (splitparams u4). reflexivity.
Qed.

(** X7.  The identity does not depend on the scheme being "http" or
    "https": whatever follows "://", the two URLs normalise alike (both
    raise, or both give the same identity). *)
Theorem normalized_url_ignores_http_scheme (rest : string) :
  normalized_url ("http://" ++ rest) = normalized_url ("https://" ++ rest).
Proof.
  rewrite !normalized_url_stages. reflexivity.
Qed.

Lemma caseless_c0 : caseless is_c0_or_space. Proof. intros c. ascii_cases c. Qed.
Lemma caseless_unsafe : caseless is_unsafe. Proof. intros c. ascii_cases c. Qed.
Lemma caseless_colon : caseless is_colon. Proof. intros c. ascii_cases c. Qed.
Lemma caseless_alpha : caseless is_alpha. Proof. intros c. ascii_cases c. Qed.
Lemma caseless_scheme_char : caseless is_scheme_char.
Proof. intros c. ascii_cases c. Qed.
Lemma caseless_slash : caseless is_slash. Proof. intros c. ascii_cases c. Qed.
Lemma caseless_netloc_delim : caseless is_netloc_delim.
Proof. intros c. ascii_cases c. Qed.
Lemma caseless_hash : caseless is_hash. Proof. intros c. ascii_cases c. Qed.
Lemma caseless_question : caseless is_question.
Proof. intros c. ascii_cases c. Qed.
Lemma caseless_semicolon : caseless is_semicolon.
Proof. intros c. ascii_cases c. Qed.
Lemma caseless_lbracket : caseless is_lbracket.
Proof. intros c. ascii_cases c. Qed.
Lemma caseless_rbracket : caseless is_rbracket.
Proof. intros c. ascii_cases c. Qed.

Lemma lstrip_lower (s : string) :
  lstrip_c0_space (lower s) = lower (lstrip_c0_space s).
Proof.
  induction s as [|c s IH]; simpl; auto.
  rewrite caseless_c0. now destruct (is_c0_or_space c).
Qed.

Lemma remove_unsafe_lower (s : string) :
  remove_unsafe (lower s) = lower (remove_unsafe s).
Proof.
  induction s as [|c s IH]; simpl; auto.
  rewrite caseless_unsafe, IH. now destruct (is_unsafe c).
Qed.

Lemma any_char_lower p s : caseless p -> any_char p (lower s) = any_char p s.
Proof. intros Hp. induction s; simpl; [|rewrite Hp, IHs]; reflexivity. Qed.

Lemma all_chars_lower p s : caseless p -> all_chars p (lower s) = all_chars p s.
Proof. intros Hp. induction s; simpl; [|rewrite Hp, IHs]; reflexivity. Qed.

Lemma break_on_lower p s :
  caseless p ->
  break_on p (lower s) =
  (lower (fst (break_on p s)), lower (snd (break_on p s))).
Proof.
  intros Hp. induction s as [|c s IH]; simpl; auto.
  rewrite Hp. destruct (p c); simpl; auto.
  rewrite IH. now destruct (break_on p s).
Qed.

Lemma split_scheme_lower (s : string) :
  split_scheme (lower s) =
  (fst (split_scheme s), lower (snd (split_scheme s))).
Proof.
  unfold split_scheme. rewrite (break_on_lower _ _ caseless_colon).
  destruct (break_on is_colon s) as [before rest]. cbn [fst snd].
  destruct before as [|c0 before']; [reflexivity|].
  destruct rest as [|c after]; [reflexivity|].
  change (lower (String c0 before'))
    with (String (lower_char c0) (lower before')).
  change (lower (String c after)) with (String (lower_char c) (lower after)).
  cbv iota.
  rewrite caseless_alpha.
  change (String (lower_char c0) (lower before'))
    with (lower (String c0 before')).
  rewrite (all_chars_lower _ _ caseless_scheme_char), lower_idem.
  destruct (is_alpha c0 && all_chars is_scheme_char (String c0 before'));
    reflexivity.
Qed.

Lemma split_netloc_lower (s : string) :
  split_netloc (lower s) =
  (lower (fst (split_netloc s)), lower (snd (split_netloc s))).
Proof.
  unfold split_netloc. destruct s as [|c1 [|c2 r]]; try reflexivity.
  simpl lower. cbv iota. rewrite !caseless_slash.
  destruct (is_slash c1 && is_slash c2); [|reflexivity].
  apply (break_on_lower _ _ caseless_netloc_delim).
Qed.

Lemma splitparams_lower (s : string) :
  fst (splitparams (lower s)) = lower (fst (splitparams s)).
Proof.
  induction s as [|c s IH]; simpl; auto.
  rewrite caseless_semicolon, (any_char_lower _ _ caseless_slash).
  destruct (is_semicolon c && negb (any_char is_slash s)); simpl; auto.
  destruct (splitparams (lower s)), (splitparams s). simpl in *.
  now rewrite IH.
Qed.

Lemma no_char_remove_unsafe p s : no_char p s -> no_char p (remove_unsafe s).
Proof.
  induction s as [|c s IH]; simpl; auto.
  intros H. apply no_char_cons in H as [Hc Hs].
  destruct (is_unsafe c); auto. rewrite no_char_cons. auto.
Qed.

Lemma no_char_clean p s : no_char p s -> no_char p (clean_url s).
Proof. intros H. now apply no_char_remove_unsafe, no_char_lstrip. Qed.

(** Without an opening bracket the checks of the network location do not
    look at letters. *)
Lemma netloc_refused_lower (nl : string) :
  no_char is_lbracket nl -> netloc_refused (lower nl) = netloc_refused nl.
Proof.
  intros H. unfold netloc_refused, brackets_unbalanced.
  rewrite (any_char_lower _ _ caseless_lbracket),
    (any_char_lower _ _ caseless_rbracket).
  unfold no_char in H. rewrite H. reflexivity.
Qed.

Lemma normalized_after_scheme_lower (b : bool) (s : string) :
  no_char is_lbracket s ->
  normalized_after_scheme b (lower s) = normalized_after_scheme b s.
Proof.
  intros Hs. unfold normalized_after_scheme. rewrite split_netloc_lower.
  pose proof (no_char_split_netloc _ _ Hs) as [Hnl _].
  destruct (split_netloc s) as [nl u2]. cbn [fst snd] in *.
  rewrite (netloc_refused_lower _ Hnl).
  destruct (netloc_refused nl); [reflexivity|].
  rewrite (break_on_lower _ _ caseless_hash).
  destruct (break_on is_hash u2) as [u3 frag]. cbn [fst snd].
  rewrite (break_on_lower _ _ caseless_question).
  destruct (break_on is_question u3) as [u4 qry]. cbn [fst snd].
  rewrite (any_char_lower _ _ caseless_semicolon), splitparams_lower.
  f_equal.
  destruct (b && any_char is_semicolon u4);
    now rewrite <- lower_app, rstrip_slash_lower, lower_idem.
Qed.

(** Hosts between brackets, as [urlsplit] checks them. *)
Example normalized_url_bracketed_hosts :
  normalized_url "http://[::1]:8080/Org/Repo/" = Ok "[::1]:8080/org/repo" /\
  normalized_url "http://[::FFFF:192.0.2.1]/x" = Ok "[::ffff:192.0.2.1]/x" /\
  normalized_url "http://[192.0.2.1]/x" = Raise ValueError /\
  normalized_url "http://[::1/x" = Raise ValueError.
Proof. repeat split. Qed.

(** The case of a letter matters in one place: the host between brackets.
    "v1.x" is an IPvFuture literal and passes the check of [urlsplit],
    "V1.x" is taken for an IP address and refused. *)
Example normalized_url_case_of_bracketed_host :
  normalized_url "http://[V1.x]/p" = Raise ValueError /\
  normalized_url (lower "http://[V1.x]/p") = Ok "[v1.x]/p".
Proof. split; reflexivity. Qed.

(** X8.  On a URL without '[' (no host between brackets) the identity
    does not depend on the case of the letters, in the host as in the
    path: the URL and its lowercased text normalise alike, and so does
    every URL that differs from it in case only. *)
Theorem normalized_url_ignores_case (url1 url2 : string) :
  no_char is_lbracket url1 ->
  normalized_url (lower url1) = normalized_url url1 /\
  (lower url1 = lower url2 -> normalized_url url1 = normalized_url url2).
Proof.
  assert (H : forall u, no_char is_lbracket u ->
                        normalized_url (lower u) = normalized_url u).
  { intros u Hu. rewrite !normalized_url_stages. unfold clean_url.
    rewrite lstrip_lower, remove_unsafe_lower, split_scheme_lower.
    cbn [fst snd]. apply normalized_after_scheme_lower.
    apply no_char_split_scheme. now apply no_char_clean. }
  intros H1. split; [now apply H|].
  intros E.
  assert (H2 : no_char is_lbracket url2).
  { unfold no_char in *.
    rewrite <- (any_char_lower _ url2 caseless_lbracket), <- E.
    now rewrite (any_char_lower _ _ caseless_lbracket). }
  rewrite <- (H url1 H1), <- (H url2 H2). now rewrite E.
Qed.

Lemma normalized_url_ignores_case_witness :
  normalized_url "https://GitLab.com/Org/Repo"
  = normalized_url "https://gitlab.com/org/REPO".
Proof.
  apply (proj2 (normalized_url_ignores_case "https://GitLab.com/Org/Repo"
                  "https://gitlab.com/org/REPO" eq_refl)).
  reflexivity.
Defined.

Lemma string_app_nil_r (s : string) : s ++ "" = s.
Proof. induction s; simpl; [|rewrite IHs]; reflexivity. Qed.

Lemma string_app_assoc (a b c : string) : (a ++ b) ++ c = a ++ (b ++ c).
Proof. induction a; simpl; [|rewrite IHa]; reflexivity. Qed.

Lemma lstrip_app (u q : string) (c : ascii) :
  is_c0_or_space c = false ->
  lstrip_c0_space (u ++ String c q) = lstrip_c0_space u ++ String c q.
Proof.
  intros Hc. induction u as [|c0 u IH]; simpl.
  - now rewrite Hc.
  - now destruct (is_c0_or_space c0).
Qed.

Lemma remove_unsafe_app (a b : string) :
  remove_unsafe (a ++ b) = remove_unsafe a ++ remove_unsafe b.
Proof.
  induction a as [|c a IH]; simpl; auto.
  destruct (is_unsafe c); simpl; now rewrite IH.
Qed.

Lemma clean_url_app (u q : string) (c : ascii) :
  is_c0_or_space c = false ->
  clean_url (u ++ String c q) = clean_url u ++ String c (remove_unsafe q).
Proof.
  intros Hc. unfold clean_url. rewrite (lstrip_app _ _ _ Hc), remove_unsafe_app.
  simpl. assert (Hu : is_unsafe c = false) by (revert Hc; ascii_cases c).
  now rewrite Hu.
Qed.

Lemma break_on_app_found p s x :
  any_char p s = true ->
  break_on p (s ++ x) = (fst (break_on p s), snd (break_on p s) ++ x).
Proof.
  induction s as [|c s IH]; simpl; [discriminate|].
  destruct (p c); simpl; auto.
  intros H. rewrite (IH H). now destruct (break_on p s).
Qed.

Lemma break_on_app_free p s x :
  no_char p s ->
  break_on p (s ++ x) = (s ++ fst (break_on p x), snd (break_on p x)).
Proof.
  induction s as [|c s IH]; simpl.
  - now destruct (break_on p x).
  - intros H. apply no_char_cons in H as [-> Hs]. now rewrite (IH Hs).
Qed.

Lemma break_on_found_rest p s :
  any_char p s = true -> exists c r, snd (break_on p s) = String c r.
Proof.
  induction s as [|c s IH]; simpl; [discriminate|].
  destruct (p c) eqn:E; simpl; eauto.
  intros H. destruct (IH H) as (c' & r & Hr).
  destruct (break_on p s). simpl in *. eauto.
Qed.

Lemma all_chars_app_false p a b c :
  p c = false -> all_chars p (a ++ String c b) = false.
Proof.
  intros Hc. induction a as [|c0 a IH]; simpl.
  - now rewrite Hc.
  - rewrite IH. apply andb_false_r.
Qed.

Lemma split_scheme_no_colon (s : string) :
  no_char is_colon s -> split_scheme s = (EmptyString, s).
Proof.
  intros H. unfold split_scheme. rewrite (break_on_free _ _ H). now destruct s.
Qed.

(** Text appended after a character that is neither a colon nor a
    character of schemes stays out of the scheme. *)
Lemma split_scheme_app (s q : string) (c : ascii) :
  is_colon c = false -> is_scheme_char c = false ->
  split_scheme (s ++ String c q) =
  (fst (split_scheme s), snd (split_scheme s) ++ String c q).
Proof.
  intros Hcol Hsch. destruct (any_char is_colon s) eqn:E.
  - unfold split_scheme. rewrite (break_on_app_found _ _ _ E).
    destruct (break_on_found_rest _ _ E) as (c' & r & Hr).
    destruct (break_on is_colon s) as [before rest]. simpl in Hr. subst rest.
    cbn [fst snd]. destruct before as [|c0 before']; [reflexivity|].
    change (String c' r ++ String c q) with (String c' (r ++ String c q)).
    cbv iota.
    destruct (is_alpha c0 && all_chars is_scheme_char (String c0 before'));
      reflexivity.
  - rewrite (split_scheme_no_colon _ E). cbn [fst snd].
    unfold split_scheme. rewrite (break_on_app_free _ _ _ E).
    simpl break_on. rewrite Hcol.
    destruct (break_on is_colon q) as [y rest']. cbn [fst snd].
    destruct rest' as [|c' after].
    + destruct (s ++ String c y); reflexivity.
    + destruct (s ++ String c y) as [|c0 b] eqn:Eb; [reflexivity|].
      rewrite <- Eb, (all_chars_app_false _ _ _ _ Hsch), andb_false_r.
      reflexivity.
Qed.

Lemma normalized_after_scheme_eq (b : bool) (url : string) :
  normalized_after_scheme b url =
  if netloc_refused (fst (split_netloc url)) then Raise ValueError
  else
    let p := path_of (snd (split_netloc url)) in
    Ok (lower (rstrip_slash
                 (fst (split_netloc url) ++
                  (if b && any_char is_semicolon p
                   then fst (splitparams p) else p)))).
Proof.
  unfold normalized_after_scheme, path_of.
  destruct (split_netloc url) as [nl u2]. cbn [fst snd].
  destruct (netloc_refused nl); [reflexivity|].
  destruct (break_on is_hash u2) as [u3 frag]. cbn [fst].
  destruct (break_on is_question u3) as [u4 qry]. reflexivity.
Qed.

(** Text appended after a '?' or a '#' stays out of the network location. *)
Lemma split_netloc_app_mark (u q : string) (c : ascii) :
  is_question c || is_hash c = true ->
  split_netloc (u ++ String c q) =
  (fst (split_netloc u), snd (split_netloc u) ++ String c q).
Proof.
  intros Hc.
  assert (Hs : is_slash c = false) by (revert Hc; ascii_cases c).
  assert (Hd : is_netloc_delim c = true) by (revert Hc; ascii_cases c).
  unfold split_netloc. destruct u as [|c1 [|c2 r]].
  - simpl. destruct q; [reflexivity|]. now rewrite Hs.
  - simpl. now rewrite Hs, andb_false_r.
  - change ((String c1 (String c2 r)) ++ String c q)
      with (String c1 (String c2 (r ++ String c q))).
    cbv iota. destruct (is_slash c1 && is_slash c2); [|reflexivity].
    destruct (any_char is_netloc_delim r) eqn:E.
    + apply (break_on_app_found _ _ _ E).
    + rewrite (break_on_app_free _ _ _ E), (break_on_free _ _ E).
      simpl. rewrite Hd. simpl. now rewrite string_app_nil_r.
Qed.

(** A query or a fragment appended to text that has neither leaves the
    path as it was. *)
Lemma path_of_app_mark (rest q : string) (c : ascii) :
  no_char is_question rest -> no_char is_hash rest ->
  is_question c || is_hash c = true ->
  path_of (rest ++ String c q) = rest /\ path_of rest = rest.
Proof.
  intros Hq Hh Hc. unfold path_of. split.
  - rewrite (break_on_app_free _ _ _ Hh). cbn [fst].
    simpl break_on. destruct (is_hash c) eqn:Eh.
    + cbn [fst]. rewrite string_app_nil_r. now rewrite (break_on_free _ _ Hq).
    + rewrite orb_false_r in Hc.
      destruct (break_on is_hash q) as [y rest']. cbn [fst].
      rewrite (break_on_app_free _ _ _ Hq). simpl. rewrite Hc. simpl.
      apply string_app_nil_r.
  - rewrite (break_on_free _ _ Hh). cbn [fst].
    now rewrite (break_on_free _ _ Hq).
Qed.

(** X9.  The identity does not depend on the query string or on the
    fragment: for a URL that has neither, appending '?' or '#' and any
    text leaves the result of the normalisation as it was. *)
Theorem normalized_url_ignores_query_and_fragment
    (url text : string) (mark : ascii) :
  no_char is_question url -> no_char is_hash url ->
  mark = "?"%char \/ mark = "#"%char ->
  normalized_url (url ++ String mark text) = normalized_url url.
Proof.
  intros Hq Hh Hm.
  assert (Hc : is_question mark || is_hash mark = true)
    by (destruct Hm as [->| ->]; reflexivity).
  assert (H0 : is_c0_or_space mark = false)
    by (destruct Hm as [->| ->]; reflexivity).
  assert (H1 : is_colon mark = false) by (destruct Hm as [->| ->]; reflexivity).
  assert (H2 : is_scheme_char mark = false)
    by (destruct Hm as [->| ->]; reflexivity).
  rewrite !normalized_url_stages, (clean_url_app _ _ _ H0).
  rewrite (split_scheme_app _ _ _ H1 H2). cbn [fst snd].
  rewrite !normalized_after_scheme_eq, (split_netloc_app_mark _ _ _ Hc).
  cbn [fst snd].
  pose proof (no_char_split_scheme _ _ (no_char_clean _ _ Hq)) as Hq1.
  pose proof (no_char_split_scheme _ _ (no_char_clean _ _ Hh)) as Hh1.
  apply no_char_split_netloc in Hq1 as [_ Hq2].
  apply no_char_split_netloc in Hh1 as [_ Hh2].
  destruct (path_of_app_mark _ (remove_unsafe text) mark Hq2 Hh2 Hc)
    as [-> ->].
  reflexivity.
Qed.

Lemma normalized_url_ignores_query_and_fragment_witness :
  normalized_url "https://gitlab.com/org/repo?tab=readme#top"
  = normalized_url "https://gitlab.com/org/repo".
Proof.
  apply (normalized_url_ignores_query_and_fragment
           "https://gitlab.com/org/repo" "tab=readme#top" "?"%char).
  - reflexivity.
  - reflexivity.
  - left. reflexivity.
Defined.

Lemma rstrip_slash_app_slash (s : string) :
  rstrip_slash (s ++ "/") = rstrip_slash s.
Proof. induction s as [|c s IH]; simpl; [|rewrite IH]; reflexivity. Qed.

Lemma any_char_app p a b : any_char p (a ++ b) = any_char p a || any_char p b.
Proof.
  induction a as [|c a IH]; simpl; auto. now rewrite IH, orb_assoc.
Qed.

(** A slash appended to text other than "/" stays out of the network
    location. *)
Lemma split_netloc_app_slash (u : string) :
  u <> "/" ->
  split_netloc (u ++ "/") =
  (fst (split_netloc u), snd (split_netloc u) ++ "/").
Proof.
  intros Hne. unfold split_netloc. destruct u as [|c1 [|c2 r]].
  - reflexivity.
  - simpl. destruct (is_slash c1) eqn:E; [|reflexivity].
    apply is_slash_spec in E. subst c1. congruence.
  - change ((String c1 (String c2 r)) ++ "/")
      with (String c1 (String c2 (r ++ "/"))).
    cbv iota. destruct (is_slash c1 && is_slash c2); [|reflexivity].
    destruct (any_char is_netloc_delim r) eqn:E.
    + apply (break_on_app_found _ _ _ E).
    + rewrite (break_on_app_free _ _ _ E), (break_on_free _ _ E).
      simpl. now rewrite string_app_nil_r.
Qed.

(** A slash appended to the text after the network location ends up in the
    path, unless a query or a fragment takes it. *)
Lemma path_of_app_slash (rest : string) :
  path_of (rest ++ "/") = path_of rest \/
  (path_of (rest ++ "/") = rest ++ "/" /\ path_of rest = rest).
Proof.
  unfold path_of. destruct (any_char is_hash rest) eqn:Eh.
  - left. now rewrite (break_on_app_found _ _ _ Eh).
  - rewrite (break_on_app_free _ _ _ Eh), (break_on_free _ _ Eh).
    simpl.
    destruct (any_char is_question rest) eqn:Eq.
    + left. now rewrite (break_on_app_found _ _ _ Eq).
    + right. rewrite (break_on_app_free _ _ _ Eq), (break_on_free _ _ Eq).
      simpl. auto.
Qed.

Lemma normalized_after_scheme_app_slash (b : bool) (u : string) :
  no_char is_semicolon u ->
  normalized_after_scheme b (u ++ "/") = normalized_after_scheme b u.
Proof.
  intros Hs. destruct (string_dec u "/") as [->|Hne].
  - now destruct b.
  - rewrite !normalized_after_scheme_eq, (split_netloc_app_slash _ Hne).
    cbn [fst snd].
    destruct (netloc_refused (fst (split_netloc u))); [reflexivity|].
    apply no_char_split_netloc in Hs as [_ Hs].
    destruct (path_of_app_slash (snd (split_netloc u))) as [->|[-> ->]];
      [reflexivity|].
    cbv zeta. rewrite any_char_app. unfold no_char in Hs. rewrite Hs.
    simpl. rewrite !andb_false_r.
    now rewrite <- string_app_assoc, rstrip_slash_app_slash.
Qed.

Lemma normalized_url_app_slash (url : string) :
  no_char is_semicolon url ->
  normalized_url (url ++ "/") = normalized_url url.
Proof.
  intros Hs. rewrite !normalized_url_stages.
  rewrite (clean_url_app url "" "/"%char eq_refl).
  change (remove_unsafe "") with EmptyString.
  rewrite (split_scheme_app _ "" "/"%char eq_refl eq_refl). cbn [fst snd].
  apply normalized_after_scheme_app_slash.
  now apply no_char_split_scheme, no_char_clean.
Qed.

(** X10.  The identity does not depend on trailing slashes: for a URL
    without ';', appending any number of slashes leaves the result of the
    normalisation as it was. *)
Theorem normalized_url_ignores_trailing_slashes (url : string) (k : nat) :
  no_char is_semicolon url ->
  normalized_url (url ++ slashes k) = normalized_url url.
Proof.
  revert url. induction k as [|k IH]; intros url Hs; simpl.
  - now rewrite string_app_nil_r.
  - change (String "/"%char (slashes k)) with ("/" ++ slashes k).
    rewrite <- string_app_assoc, IH.
    + now apply normalized_url_app_slash.
    + apply no_char_app; [exact Hs | reflexivity].
Qed.

Lemma normalized_url_ignores_trailing_slashes_witness :
  normalized_url "https://gitlab.com/org/repo//"
  = normalized_url "https://gitlab.com/org/repo".
Proof.
  apply (normalized_url_ignores_trailing_slashes
           "https://gitlab.com/org/repo" 2).
  reflexivity.
Defined.

(** With a ';' in the last segment the slash does matter: it moves the
    parameters into the path. *)
Example normalized_url_slash_after_params :
  normalized_url "http://h/a;b" = Ok "h/a" /\
  normalized_url "http://h/a;b/" = Ok "h/a;b".
Proof. split; reflexivity. Qed.

(** ** Progress data and report *)

(** X11.  Whenever [progress_data] is computed, the matcher has returned
    its pairs and the data is made of two parts.  First one record per
    pair, in the order of the pairs: the score of the pair, which is never
    "Not mapped", counts against all the selected kinds, has no more links
    present than selected and a progress within 0 and 100.  Then one
    record for every row of the table, in table order, whose cell under
    the URL column is not empty and is not found among the URLs that the
    scored records carry: 0 of 0, progress 0, status "Not mapped", element
    'Not mapped in C4', with the cell of the row as its URL.  There are no
    more scored records than rows. *)
Theorem progress_data_layout
    (mapped_elements : list json) (df : DataFrame) (sel : list string)
    (pd : list ProgressRecord) :
  progress_data mapped_elements df sel = Ok pd ->
  exists ms scored,
    match_repositories mapped_elements (Some df) = Ok ms /\
    Forall2 (fun m r => score m sel = Ok r) ms scored /\
    Forall (scored_record sel) scored /\
    (length scored <= len_df df)%nat /\
    let reported := unmatched_rows df (map Repository scored) in
    pd = (scored ++ map (not_mapped_of df) reported)%list /\
    subseq reported (rows df) /\
    Forall (fun row => cell_truthy (row_url df row) = true) reported /\
    Forall unmapped_record (map (not_mapped_of df) reported).
Proof.
  intros H.
  apply progress_data_parts in H
    as (ms & recs & urls & unmapped & Hms & Hsc & Hlen & -> & Hu & _ & ->).
  rewrite (score_loop_urls _ _ _ _ Hsc) in *.
  exists ms, recs. split; [exact Hms|].
  split; [eapply score_loop_each; eauto|].
  split; [eapply score_loop_scored; eauto|].
  split; [apply score_loop_inv in Hsc as [-> _]; exact Hlen|].
  cbn zeta. split; [reflexivity|].
  unfold unmatched_rows, row_url in *.
  destruct (find_url_column (columns df)) as [col|].
  - split; [apply filter_subseq|]. split; [|exact Hu].
    apply Forall_forall. intros row Hrow.
    apply filter_In in Hrow as [_ Hrow]. unfold left_unmatched in Hrow.
    now apply andb_true_iff in Hrow as [Hrow _].
  - split; [apply subseq_refl with (l := rows df) || idtac|].
    + induction (rows df) as [|r l IH]; [apply subseq_nil|].
      now apply subseq_skip.
    + split; [constructor | exact Hu].
Qed.

Lemma progress_data_layout_witness :
  let df := mkDataFrame ["url"]
              [orders_row; [("url", Text "https://gitlab.com/o/billing")];
               [("url", NaN)]] true in
  let orders := mkProgressRecord "https://gitlab.com/o/orders" (JStr "Orders")
                  1 2 (inject_Z 1 / inject_Z 2 * 100)%Q Incomplete in
  exists ms scored,
    match_repositories [orders_element [titled "logs"]] (Some df) = Ok ms /\
    Forall2 (fun m r => score m ["repository"; "APM"] = Ok r) ms scored /\
    progress_data [orders_element [titled "logs"]] df ["repository"; "APM"]
    = Ok (scored ++
          map (not_mapped_of df)
            (unmatched_rows df (map Repository scored)))%list /\
    progress_data [orders_element [titled "logs"]] df ["repository"; "APM"]
    = Ok [orders; not_mapped_record "https://gitlab.com/o/billing";
          not_mapped_record NaN].
Proof.
  intros df orders.
  destruct (progress_data_layout [orders_element [titled "logs"]] df
              ["repository"; "APM"]
              [orders; not_mapped_record "https://gitlab.com/o/billing";
               not_mapped_record NaN] eq_refl)
    as (ms & scored & Hms & Hsc & _ & _ & Hpd & _).
  exists ms, scored. split; [exact Hms|]. split; [exact Hsc|].
  split; [|reflexivity]. now rewrite <- Hpd.
Defined.

Lemma overall_progress_bounds (c t : nat) (q : Q) :
  (c <= t)%nat -> overall_progress c t = Ok q ->
  (0 <= progress_bar_value q)%Q /\ (progress_bar_value q <= 1)%Q.
Proof.
  intros Hle Hq.
  destruct (progress_percent_bounds c t q Hle Hq) as [H0 H100].
  unfold progress_bar_value. split.
  - apply Qle_shift_div_l; [reflexivity|]. now rewrite Qmult_0_l.
  - apply Qle_shift_div_r; [reflexivity|]. now rewrite Qmult_1_l.
Qed.

(** X12.  In every report the complete and incomplete repositories
    together, and the unmapped ones, are no more than the rows of the
    table, whatever the URL column is called; so the overall progress is
    computed without error and the value handed to the progress bar lies
    within 0 and 1. *)
Theorem report_overall_progress_in_range
    (str_contains : string -> list json -> result (list bool))
    (mapped_elements : list json) (csv_data : option DataFrame)
    (sel : list string) (f : FilterSpec) (report : Report) :
  critical_repositories_progress str_contains mapped_elements csv_data sel f
    = Ok (Some report) ->
  (complete_repos report + incomplete_repos report <= total_repos report)%nat /\
  (unmapped_repos report <= total_repos report)%nat /\
  exists q,
    overall_progress (complete_repos report) (total_repos report) = Ok q /\
    (0 <= progress_bar_value q)%Q /\ (progress_bar_value q <= 1)%Q.
Proof.
  destruct csv_data as [df|]; [|discriminate].
  intros Hrep.
  apply critical_repositories_progress_inv in Hrep
    as (pd & shown & Hpd & _ & _ & ->).
  cbn [complete_repos incomplete_repos unmapped_repos total_repos].
  apply progress_data_parts in Hpd
    as (ms & scored & urls & unmapped & _ & Hsc & Hms & -> & Hu & Hlu & _).
  pose proof (score_loop_scored _ _ _ _ Hsc) as Hs.
  assert (Hls : (length scored <= len_df df)%nat)
    by (apply score_loop_inv in Hsc as [-> _]; exact Hms).
  rewrite !count_status_app.
  destruct (count_status_unmapped _ Hu) as (-> & -> & ->).
  rewrite (count_status_scored _ _ Hs).
  pose proof (count_status_total scored) as Ht.
  rewrite (count_status_scored _ _ Hs) in Ht.
  assert (Hc : (count_status Complete scored + 0 <= len_df df)%nat) by lia.
  split; [lia|]. split; [lia|].
  destruct (progress_percent_total (count_status Complete scored + 0)
              (len_df df)) as [q Hq].
  exists q. split; [exact Hq|].
  exact (overall_progress_bounds _ _ _ Hc Hq).
Qed.

Lemma report_overall_progress_in_range_witness :
  let df := mkDataFrame ["URL"] [[("URL", Text "https://gitlab.com/o/orders")]] true in
  exists report q,
    critical_repositories_progress plain_search [orders_element []] (Some df)
      ["repository"] no_filter = Ok (Some report) /\
    complete_repos report = 1%nat /\ unmapped_repos report = 1%nat /\
    total_repos report = 1%nat /\
    overall_progress (complete_repos report) (total_repos report) = Ok q /\
    (0 <= progress_bar_value q)%Q /\ (progress_bar_value q <= 1)%Q.
Proof.
  intros df. eexists.
  destruct (report_overall_progress_in_range plain_search [orders_element []]
              (Some df) ["repository"] no_filter _ eq_refl)
    as (_ & _ & q & Hq & Hb).
  exists q. split; [reflexivity|]. repeat (split; [reflexivity|]).
  split; [exact Hq | exact Hb].
Defined.

Lemma progress_percent_100 (p t : nat) (q : Q) :
  (1 <= t)%nat -> progress_percent p t = Ok q ->
  ((q == 100)%Q <-> p = t) /\ ((q == 0)%Q <-> p = 0%nat).
Proof.
  intros Ht. unfold progress_percent. destruct t as [|t]; [lia|]. simpl.
  intros [= <-]. unfold Qdiv, Qinv, Qmult, Qeq, inject_Z. simpl.
  rewrite Pos.mul_1_r, !Z.mul_1_r.
  pose proof (Zpos_P_of_succ_nat t) as Hpos. split; split; intro H; lia.
Qed.

(** X13.  Percentage and status of a scored record agree: with at least
    one kind selected, the status is "Complete" exactly when the progress
    is 100, and the progress is 0 exactly when no selected link is
    present. *)
Theorem score_status_matches_percent
    (m : Match) (sel : list string) (r : ProgressRecord) :
  sel <> [] ->
  score m sel = Ok r ->
  (Status r = Complete <-> (Progress r == 100)%Q) /\
  (present_link_count r = 0%nat <-> (Progress r == 0)%Q).
Proof.
  intros Hsel H. apply score_inv_links in H as (d0 & _ & _ & _ & Hq & Hs & _).
  assert (Ht : (1 <= length sel)%nat) by (destruct sel; [congruence | simpl; lia]).
  destruct (progress_percent_100 _ _ _ Ht Hq) as [H100 H0].
  rewrite Hs. split.
  - rewrite H100.
    destruct (Nat.eqb_spec (present_link_count r) (length sel)); split; intro;
      congruence.
  - symmetry. exact H0.
Qed.

Lemma score_status_matches_percent_witness :
  exists r,
    score (mkMatch orders_row (orders_element [titled "logs"]))
      ["repository"; "logs"] = Ok r /\
    Status r = Complete /\ (Progress r == 100)%Q.
Proof.
  eexists. split; [reflexivity|]. split; [reflexivity|].
  apply (proj1 (score_status_matches_percent
                  (mkMatch orders_row (orders_element [titled "logs"]))
                  ["repository"; "logs"] _ ltac:(discriminate) eq_refl)).
  reflexivity.
Defined.

Lemma filter_all {A : Type} (f : A -> bool) (l : list A) :
  Forall (fun x => f x = true) l -> filter f l = l.
Proof. induction 1 as [|x l Hx _ IH]; simpl; [|rewrite Hx, IH]; reflexivity. Qed.

Lemma range_filter_default (p : ProgressRecord) :
  (0 <= Progress p)%Q -> (Progress p <= 100)%Q ->
  range_filter no_filter p = true.
Proof.
  intros H0 H100. unfold range_filter. simpl.
  apply andb_true_iff. split; now apply Qle_bool_iff.
Qed.

(** X14.  The default filters (status "All", range 0 to 100, no search
    text) hide nothing: whenever [progress_data] is computed, the filtered
    table is all of it, in the same order. *)
Theorem default_filters_show_everything
    (str_contains : string -> list json -> result (list bool))
    (mapped_elements : list json) (df : DataFrame) (sel : list string)
    (pd : list ProgressRecord) :
  progress_data mapped_elements df sel = Ok pd ->
  apply_filters str_contains no_filter pd = Ok pd.
Proof.
  intros H. apply progress_data_parts in H
    as (ms & scored & urls & unmapped & _ & Hsc & _ & -> & Hu & _ & _).
  pose proof (score_loop_scored _ _ _ _ Hsc) as Hs.
  assert (Hall : Forall (fun p => range_filter no_filter p = true)
                   (scored ++ unmapped)).
  { apply Forall_app. split.
    - eapply Forall_impl; [|exact Hs].
      intros p (_ & _ & _ & H0 & H100). now apply range_filter_default.
    - eapply Forall_impl; [|exact Hu].
      intros p [-> _]. reflexivity. }
  unfold apply_filters. destruct (scored ++ unmapped)%list as [|p l] eqn:E;
    [reflexivity|].
  unfold search_filter. simpl is_empty. cbn [bind].
  rewrite (filter_all (status_filter no_filter)) by
    (apply Forall_forall; reflexivity).
  now rewrite (filter_all _ _ Hall).
Qed.

Lemma default_filters_show_everything_witness :
  let df := mkDataFrame ["url"]
              [orders_row; [("url", Text "https://gitlab.com/o/billing")]] true in
  let pd := [mkProgressRecord "https://gitlab.com/o/orders" (JStr "Orders")
               1 2 (inject_Z 1 / inject_Z 2 * 100)%Q Incomplete;
             not_mapped_record "https://gitlab.com/o/billing"] in
  progress_data [orders_element [titled "logs"]] df ["repository"; "APM"]
    = Ok pd /\
  apply_filters plain_search no_filter pd = Ok pd.
Proof.
  intros df pd. split; [reflexivity|].
  apply (default_filters_show_everything plain_search
           [orders_element [titled "logs"]] df ["repository"; "APM"] pd).
  reflexivity.
Defined.

Lemma select_rows_subseq (mask : list bool) (df : list ProgressRecord) :
  subseq (select_rows mask df) df.
Proof.
  unfold select_rows. revert mask. induction df as [|p df IH]; intros mask.
  - destruct mask; apply subseq_nil.
  - destruct mask as [|b mask]; simpl.
    + apply subseq_skip. exact (IH []).
    + destruct b; simpl; [apply subseq_keep | apply subseq_skip]; apply IH.
Qed.

Lemma subseq_trans {A : Type} (l1 l2 l3 : list A) :
  subseq l1 l2 -> subseq l2 l3 -> subseq l1 l3.
Proof.
  intros H12 H23. revert l1 H12.
  induction H23 as [|x l2 l3 _ IH|x l2 l3 _ IH]; intros l1 H12.
  - exact H12.
  - apply subseq_skip. now apply IH.
  - inversion H12; subst.
    + apply subseq_skip. now apply IH.
    + apply subseq_keep. now apply IH.
Qed.

Lemma subseq_Forall {A : Type} (P : A -> Prop) (l1 l2 : list A) :
  subseq l1 l2 -> Forall P l2 -> Forall P l1.
Proof.
  intros Hs H. apply Forall_forall. intros x Hx.
  rewrite Forall_forall in H. apply H. eapply subseq_In; eauto.
Qed.

Lemma search_filter_subseq str_contains pattern column df df' :
  search_filter str_contains pattern column df = Ok df' -> subseq df' df.
Proof.
  unfold search_filter. destruct (is_empty pattern).
  - intros [= <-]. apply subseq_refl.
  - destruct (str_contains pattern (map column df)) as [mask|]; simpl;
      [|discriminate].
    intros [= <-]. apply select_rows_subseq.
Qed.

(** X15.  The filters only take rows away: whatever the search of pandas
    answers, the filtered table is [progress_data] with some records left
    out, in the same order; every record shown has its progress within
    the chosen range, and has the chosen status when one is chosen. *)
Theorem apply_filters_narrows
    (str_contains : string -> list json -> result (list bool))
    (f : FilterSpec) (pd shown : list ProgressRecord) :
  apply_filters str_contains f pd = Ok shown ->
  subseq shown pd /\
  Forall (fun p => (inject_Z (min_progress f) <= Progress p)%Q /\
                   (Progress p <= inject_Z (max_progress f))%Q) shown /\
  (forall s, selected_status f = Some s ->
             Forall (fun p => Status p = s) shown).
Proof.
  unfold apply_filters. destruct pd as [|p0 pd'].
  - destruct (selected_status f); [discriminate|].
    destruct (negb (is_empty (search_term f))); [discriminate|].
    destruct (negb (is_empty (element_search f))); [discriminate|].
    intros [= <-]. repeat split; try constructor.
  - set (pd := p0 :: pd').
    destruct (search_filter str_contains (search_term f) _ _) as [df3|] eqn:E3;
      cbn [bind]; [|discriminate].
    intros E4. apply search_filter_subseq in E3, E4.
    assert (Hsub : subseq shown
                     (filter (range_filter f) (filter (status_filter f) pd)))
      by (eapply subseq_trans; eauto).
    split; [|split].
    + eapply subseq_trans; [exact Hsub|].
      eapply subseq_trans; apply subseq_filter.
    + eapply subseq_Forall; [exact Hsub|]. apply Forall_forall.
      intros p Hp. apply filter_In in Hp as [_ Hr].
      unfold range_filter in Hr. apply andb_true_iff in Hr as [H1 H2].
      split; now apply Qle_bool_iff.
    + intros s Hs. eapply subseq_Forall; [exact Hsub|]. apply Forall_forall.
      intros p Hp. apply filter_In in Hp as [Hp _].
      apply filter_In in Hp as [_ Hst]. unfold status_filter in Hst.
      rewrite Hs in Hst. destruct (Status p), s; try discriminate; reflexivity.
Qed.

Lemma apply_filters_narrows_witness :
  let pd := [mkProgressRecord "https://gitlab.com/o/orders" (JStr "Orders")
               1 2 (inject_Z 1 / inject_Z 2 * 100)%Q Incomplete;
             not_mapped_record "https://gitlab.com/o/billing"] in
  let f := mkFilterSpec (Some NotMapped) 0 40 "BILL" "" in
  apply_filters plain_search f pd
    = Ok [not_mapped_record "https://gitlab.com/o/billing"] /\
  subseq [not_mapped_record "https://gitlab.com/o/billing"] pd.
Proof.
  intros pd f. split; [reflexivity|].
  exact (proj1 (apply_filters_narrows plain_search f pd _ eq_refl)).
Defined.

Lemma url_cell_Some row url_column :
  url_cell row url_column <> None ->
  exists c, dict_get row url_column = Some c /\ cell_truthy c = true.
Proof.
  unfold url_cell. destruct (dict_get row url_column) as [c|]; [|congruence].
  destruct (cell_truthy c) eqn:E; [|congruence]. eauto.
Qed.

(** A set that holds only the empty string holds no cell that is true. *)
Lemma in_url_set_empty_strings sh c urls :
  cell_truthy c = true ->
  Forall (fun u => u = Text EmptyString) urls ->
  in_url_set sh c urls = false.
Proof.
  intros Ht Hurls. rewrite Forall_forall in Hurls.
  destruct c as [s|]; simpl.
  - destruct (existsb (is_text s) urls) eqn:Ex; [|reflexivity].
    apply existsb_exists in Ex as (u & Hin & Hu).
    rewrite (Hurls u Hin) in Hu. simpl in Hu, Ht.
    apply String.eqb_eq in Hu as ->. discriminate.
  - destruct (existsb is_nan urls) eqn:Ex; [|now rewrite andb_false_r].
    apply existsb_exists in Ex as (u & Hin & Hu).
    rewrite (Hurls u Hin) in Hu. discriminate.
Qed.

Lemma unmatched_loop_all sh rows url_column urls :
  Forall (fun row => url_cell row url_column <> None) rows ->
  Forall (fun u => u = Text EmptyString) urls ->
  unmatched_loop sh rows url_column urls =
  map (fun row => not_mapped_record (series_get row url_column "")) rows.
Proof.
  intros Hrows Hurls. induction Hrows as [|row rows Hrow _ IH]; simpl; auto.
  destruct (url_cell_Some _ _ Hrow) as (c & Hc & Ht).
  destruct (url_cell_series_get _ _ _ Hc Ht) as [_ ->].
  rewrite Ht, (in_url_set_empty_strings sh c urls Ht Hurls). simpl.
  now rewrite IH.
Qed.

Lemma count_not_mapped_map {A : Type} (g : A -> cell) (l : list A) :
  count_status NotMapped (map (fun x => not_mapped_record (g x)) l) = length l.
Proof.
  unfold count_status. induction l as [|x l IH]; simpl; [|rewrite IH];
    reflexivity.
Qed.

(** X16.  When the URL column of the table is not called exactly "url"
    (say "URL") and no column is, the matched URL is read under a key the
    row does not have: every scored record has an empty ['Repository'],
    and every row of the table, matched or not, is reported once more as
    "Not mapped".  The number of "Not mapped" records is then the number
    of rows, and [progress_data] holds that many records more than there
    are matches. *)
Theorem progress_data_when_url_column_is_renamed
    (mapped_elements : list json) (df : DataFrame) (url_column : string)
    (sel : list string) (pd : list ProgressRecord) :
  find_url_column (columns df) = Some url_column ->
  Forall (fun row => dict_get row "url" = None /\
                     url_cell row url_column <> None) (rows df) ->
  progress_data mapped_elements df sel = Ok pd ->
  exists ms,
    match_repositories mapped_elements (Some df) = Ok ms /\
    length pd = (length ms + len_df df)%nat /\
    count_status NotMapped pd = len_df df /\
    Forall (fun p => Status p <> NotMapped -> Repository p = EmptyString) pd.
Proof.
  intros Hcol Hrows. unfold progress_data, progress_loops. rewrite Hcol.
  destruct (match_repositories mapped_elements (Some df)) as [ms|] eqn:Hm;
    cbn [bind]; [|discriminate].
  destruct (score_loop ms sel) as [[recs urls]|] eqn:Hsc; cbn [bind];
    [|discriminate].
  intros [= <-]. exists ms. split; [reflexivity|]. cbn [fst snd].
  pose proof (score_loop_scored _ _ _ _ Hsc) as Hscored.
  pose proof (score_loop_urls _ _ _ _ Hsc) as Hurls.
  apply score_loop_inv in Hsc as [Hlen Hget].
  assert (Hempty : Forall (fun u => u = Text EmptyString) urls).
  { rewrite Hget. apply Forall_forall. intros u Hu.
    apply in_map_iff in Hu as (m & <- & Hin).
    unfold match_repositories in Hm. rewrite Hcol in Hm.
    destruct (element_repos_loop mapped_elements []) as [er|]; simpl in Hm;
      [|discriminate].
    apply (matches_loop_In _ _ _ _ Hm) in Hin as [Hin _].
    rewrite Forall_forall in Hrows. destruct (Hrows _ Hin) as [Hnone _].
    unfold series_get. now rewrite Hnone. }
  rewrite (unmatched_loop_all _ _ _ _
             (Forall_impl _ (fun row H => proj2 H) Hrows) Hempty).
  split; [|split].
  - rewrite length_app, length_map, Hlen. reflexivity.
  - rewrite count_status_app, (count_status_scored _ _ Hscored).
    apply count_not_mapped_map.
  - apply Forall_app. split.
    + apply Forall_forall. intros p Hp _.
      rewrite Forall_forall in Hempty. apply Hempty. rewrite Hurls.
      now apply in_map.
    + apply Forall_forall. intros p Hp Hn. apply in_map_iff in Hp
        as (row & <- & _). now destruct Hn.
Qed.

Lemma progress_data_when_url_column_is_renamed_witness :
  let df := mkDataFrame ["URL"] [[("URL", Text "https://gitlab.com/o/orders")]] true in
  let pd := [mkProgressRecord "" (JStr "Orders") 1 1
               (inject_Z 1 / inject_Z 1 * 100)%Q Complete;
             not_mapped_record "https://gitlab.com/o/orders"] in
  progress_data [orders_element []] df ["repository"] = Ok pd /\
  exists ms,
    match_repositories [orders_element []] (Some df) = Ok ms /\
    length pd = (length ms + len_df df)%nat /\
    count_status NotMapped pd = len_df df /\
    Forall (fun p => Status p <> NotMapped -> Repository p = EmptyString) pd.
Proof.
  intros df pd. split; [reflexivity|].
  apply (progress_data_when_url_column_is_renamed [orders_element []] df "URL"
           ["repository"] pd).
  - reflexivity.
  - repeat constructor. discriminate.
  - reflexivity.
Defined.

(** ** The grid of mapped elements *)

Lemma merge_row_get (info : dict json) (d : dict bool) (k : string) :
  NoDup (dict_keys d) ->
  dict_get (merge_row info d) k =
  match dict_get d k with
  | Some b => Some (JBool b)
  | None => dict_get info k
  end.
Proof.
  unfold merge_row. revert info.
  induction d as [|[k0 v0] d IH]; simpl; intros info Hnd; auto.
  inversion Hnd as [|? ? Hnotin Hnd']; subst.
  rewrite (IH _ Hnd'). destruct (String.eqb_spec k k0) as [E|Hne].
  - subst k0. apply dict_get_None_keys in Hnotin. rewrite Hnotin.
    apply dict_get_set_eq.
  - destruct (dict_get d k); auto. apply dict_get_set_neq. congruence.
Qed.

Lemma dict_remove_get {V : Type} (d : dict V) (k k' : string) :
  k <> k' -> dict_get (dict_remove d k) k' = dict_get d k'.
Proof.
  intros Hne. unfold dict_remove. induction d as [|[k0 v0] d IH]; simpl; auto.
  destruct (String.eqb_spec k0 k) as [E|Hk]; simpl.
  - subst k0. destruct (String.eqb_spec k' k); [congruence | exact IH].
  - destruct (String.eqb_spec k' k0); auto.
Qed.

Lemma link_filters_of_items (choice : string -> link_filter) :
  link_filters_of choice =
  map (fun link_type => (link_type, choice link_type)) filter_link_types.
Proof. reflexivity. Qed.

(** The flags the grid reads on a well-formed element. *)
Lemma grid_link_info (fields : list (string * json)) (links : list json) :
  (dict_get fields "links" = None /\ links = []) \/
  dict_get fields "links" = Some (JArr links) ->
  Forall is_mapping links ->
  exists d,
    check_element_links (JObj fields) grid_link_types = Ok d /\
    NoDup (dict_keys d) /\
    forall k,
      dict_get d k =
      if mem_string k grid_link_types then Some (has_link links k) else None.
Proof.
  intros Hl Hm.
  destruct (links_loop_flags links grid_link_types Hm) as (d & Hd & Hk).
  rewrite <- (check_element_links_loop fields links _ Hl) in Hd.
  exists d. split; [exact Hd|]. split; [|exact Hk].
  now destruct (check_element_links_within _ _ _ Hd).
Qed.

Lemma forallb_map_in {A B : Type} (f : A -> B) (p : B -> bool) (q : A -> bool)
    (l : list A) :
  (forall x, In x l -> p (f x) = q x) ->
  forallb p (map f l) = forallb q l.
Proof.
  induction l as [|x l IH]; simpl; intros H; auto.
  rewrite (H x (or_introl eq_refl)), IH; auto.
Qed.

Lemma forallb_link_filters (choice : string -> link_filter) (d : dict bool)
    (links : list json) :
  (forall k, dict_get d k =
             if mem_string k grid_link_types then Some (has_link links k)
             else None) ->
  forallb (link_filter_admits d) (link_filters_of choice) =
  forallb (fun k => filter_asks (choice k) (has_link links k))
    filter_link_types.
Proof.
  intros Hk. rewrite link_filters_of_items.
  apply forallb_map_in. intros k Hin. unfold link_filter_admits. simpl.
  rewrite Hk.
  assert (Hmem : mem_string k grid_link_types = true).
  { apply mem_string_In. simpl in Hin. simpl. intuition. }
  rewrite Hmem. now destruct (choice k).
Qed.

Lemma py_get_mapping (fields : list (string * json)) (k : string) :
  py_get (JObj fields) k (JStr "") = Ok (field_or_empty fields k).
Proof. unfold py_get, field_or_empty. now destruct (dict_get fields k). Qed.

(** The body of the grid loop on a well-formed element. *)
Lemma grid_row_mapping (fields : list (string * json)) (links : list json)
    (kinds techs : list string) (choice : string -> link_filter) :
  (dict_get fields "links" = None /\ links = []) \/
  dict_get fields "links" = Some (JArr links) ->
  Forall is_mapping links ->
  exists d,
    NoDup (dict_keys d) /\
    (forall k, dict_get d k =
               if mem_string k grid_link_types then Some (has_link links k)
               else None) /\
    grid_row (JObj fields) kinds techs (link_filters_of choice) =
    Ok (if in_str_list (field_or_empty fields "kind") kinds
           && (match techs with
               | [] => true
               | _ :: _ => in_str_list (field_or_empty fields "technology") techs
               end)
           && forallb (fun k => filter_asks (choice k) (has_link links k))
                filter_link_types
        then Some (merge_row
                     [("kind", field_or_empty fields "kind");
                      ("title", field_or_empty fields "title");
                      ("technology", field_or_empty fields "technology");
                      ("description", field_or_empty fields "description")] d)
        else None).
Proof.
  intros Hl Hm. destruct (grid_link_info fields links Hl Hm) as (d & Hd & Hnd & Hk).
  exists d. split; [exact Hnd|]. split; [exact Hk|].
  unfold grid_row. rewrite !py_get_mapping. cbn [bind].
  destruct (in_str_list (field_or_empty fields "kind") kinds); [|reflexivity].
  cbn [negb andb].
  destruct techs as [|t techs']; cbn [bind].
  - cbn [negb]. rewrite Hd. cbn [bind].
    rewrite (forallb_link_filters choice d links Hk).
    now destruct (forallb _ filter_link_types).
  - destruct (in_str_list (field_or_empty fields "technology") (t :: techs'));
      [|reflexivity].
    cbn [negb andb]. rewrite Hd. cbn [bind].
    rewrite (forallb_link_filters choice d links Hk).
    now destruct (forallb _ filter_link_types).
Qed.

(** X17.  Which elements the grid shows.  On a well-formed element the
    loop of the grid raises nothing, and the element gets a row exactly
    when its kind is among the selected kinds, its technology among the
    selected technologies (if any is selected), and for each link type
    with a filter: "Has Link" finds a link titled with that very type,
    "Missing Link" finds none.  The filter on "monitor" looks for a link
    titled "monitor": a link titled "monitoring" does not satisfy it. *)
Theorem grid_row_shown_iff
    (fields : list (string * json)) (links : list json)
    (kinds techs : list string) (choice : string -> link_filter) :
  (dict_get fields "links" = None /\ links = []) \/
  dict_get fields "links" = Some (JArr links) ->
  Forall is_mapping links ->
  succeeds (grid_row (JObj fields) kinds techs (link_filters_of choice)) /\
  ((exists row,
      grid_row (JObj fields) kinds techs (link_filters_of choice)
        = Ok (Some row)) <->
   in_str_list (field_or_empty fields "kind") kinds = true /\
   (techs = [] \/
    in_str_list (field_or_empty fields "technology") techs = true) /\
   (forall k, In k filter_link_types ->
              filter_asks (choice k) (has_link links k) = true)).
Proof.
  intros Hl Hm.
  destruct (grid_row_mapping fields links kinds techs choice Hl Hm)
    as (d & _ & _ & ->).
  split; [eexists; reflexivity|].
  pose proof (forallb_forall
                (fun k => filter_asks (choice k) (has_link links k))
                filter_link_types) as Hall.
  destruct (forallb (fun k => filter_asks (choice k) (has_link links k))
              filter_link_types).
  - destruct (in_str_list (field_or_empty fields "kind") kinds); simpl.
    + destruct techs as [|t techs']; simpl.
      * split; [intros _ | intros _; eexists; reflexivity].
        split; [reflexivity|]. split; [now left | now apply Hall].
      * destruct (in_str_list (field_or_empty fields "technology")
                    (t :: techs')); simpl.
        -- split; [intros _ | intros _; eexists; reflexivity].
           split; [reflexivity|]. split; [now right | now apply Hall].
        -- split; [intros [row H]; discriminate|].
           intros (_ & [H|H] & _); discriminate.
    + split; [intros [row H]; discriminate | intros [H _]; discriminate].
  - assert (Hno : ~ (forall k, In k filter_link_types ->
                       filter_asks (choice k) (has_link links k) = true)).
    { intros H. apply Hall in H. discriminate. }
    rewrite !andb_false_r.
    split; [intros [row H]; discriminate | intros (_ & _ & H); contradiction].
Qed.

Lemma grid_row_shown_iff_witness :
  let fields := [("kind", JStr "service"); ("title", JStr "Orders");
                 ("links", JArr [titled "monitoring"])] in
  let only_monitor k := if String.eqb k "monitor" then HasLink else Any in
  grid_row (JObj fields) ["service"] [] (link_filters_of only_monitor)
    = Ok None /\
  exists row,
    grid_row (JObj fields) ["service"] [] (link_filters_of (fun _ => Any))
      = Ok (Some row).
Proof.
  intros fields only_monitor. split; [reflexivity|].
  apply (proj2 (grid_row_shown_iff fields [titled "monitoring"] ["service"] []
                  (fun _ => Any) (or_intror eq_refl)
                  ltac:(repeat constructor; eexists; reflexivity))).
  split; [reflexivity|]. split; [now left|]. intros k _. reflexivity.
Defined.

(** X18.  What the grid displays for an element it shows.  The row has
    the eleven columns of [column_order], in that order: the four text
    fields of the element (empty when absent) and one flag per link type.
    The "monitor" flag is true when the element has a link titled
    "monitor" or one titled "monitoring"; every other flag tells whether a
    link is titled with its type. *)
Theorem grid_row_displayed
    (fields : list (string * json)) (links : list json)
    (kinds techs : list string) (choice : string -> link_filter)
    (row : dict json) :
  (dict_get fields "links" = None /\ links = []) \/
  dict_get fields "links" = Some (JArr links) ->
  Forall is_mapping links ->
  grid_row (JObj fields) kinds techs (link_filters_of choice) = Ok (Some row) ->
  reorder_columns (collapse_monitoring row) =
  [("kind", field_or_empty fields "kind");
   ("title", field_or_empty fields "title");
   ("technology", field_or_empty fields "technology");
   ("description", field_or_empty fields "description");
   ("repository", JBool (has_link links "repository"));
   ("logs", JBool (has_link links "logs"));
   ("APM", JBool (has_link links "APM"));
   ("openAPI", JBool (has_link links "openAPI"));
   ("monitor", JBool (has_link links "monitor" || has_link links "monitoring"));
   ("dashboard", JBool (has_link links "dashboard"));
   ("backstage", JBool (has_link links "backstage"))].
Proof.
  intros Hl Hm.
  destruct (grid_row_mapping fields links kinds techs choice Hl Hm)
    as (d & Hnd & Hk & ->).
  destruct (_ && _); [|discriminate]. intros [= <-].
  set (info := [("kind", field_or_empty fields "kind");
                ("title", field_or_empty fields "title");
                ("technology", field_or_empty fields "technology");
                ("description", field_or_empty fields "description")]).
  assert (Hget : forall k,
            dict_get (merge_row info d) k =
            match (if mem_string k grid_link_types
                   then Some (has_link links k) else None) with
            | Some b => Some (JBool b)
            | None => dict_get info k
            end).
  { intros k. rewrite (merge_row_get _ _ _ Hnd), Hk. reflexivity. }
  unfold collapse_monitoring. rewrite !Hget. cbn [mem_string String.eqb
    Ascii.eqb Bool.eqb orb].
  simpl mem_string. cbv iota.
  unfold reorder_columns, column_order. cbn [flat_map].
  rewrite !dict_remove_get by discriminate.
  rewrite dict_get_set_eq.
  rewrite !dict_get_set_neq by discriminate.
  rewrite !Hget. simpl.
  now destruct (has_link links "monitor"), (has_link links "monitoring").
Qed.

Lemma grid_row_displayed_witness :
  let fields := [("kind", JStr "service"); ("title", JStr "Orders");
                 ("links", JArr [titled "monitoring"; titled "logs"])] in
  exists row,
    grid_row (JObj fields) ["service"] [] (link_filters_of (fun _ => Any))
      = Ok (Some row) /\
    dict_get (reorder_columns (collapse_monitoring row)) "monitor"
      = Some (JBool true) /\
    dict_keys (reorder_columns (collapse_monitoring row)) = column_order.
Proof.
  intros fields. eexists. split; [reflexivity|].
  rewrite (grid_row_displayed fields [titled "monitoring"; titled "logs"]
             ["service"] [] (fun _ => Any) _ (or_intror eq_refl)
             ltac:(repeat constructor; eexists; reflexivity) eq_refl).
  split; reflexivity.
Defined.

(** ** The recommendations *)

Lemma string_of_uint_no_slash (d : Decimal.uint) :
  no_char is_slash (NilEmpty.string_of_uint d).
Proof.
  induction d; simpl; try reflexivity; apply no_char_cons; split;
    try reflexivity; assumption.
Qed.

Lemma split_slash_free (s : string) :
  no_char is_slash s -> split_slash s = [s].
Proof.
  induction s as [|c s IH]; simpl; auto.
  intros H. apply no_char_cons in H as [-> Hs]. now rewrite (IH Hs).
Qed.

Lemma split_slash_app (a b : string) :
  no_char is_slash a ->
  split_slash (a ++ String "/"%char b) = a :: split_slash b.
Proof.
  induction a as [|c a IH]; simpl; auto.
  intros H. apply no_char_cons in H as [-> Ha]. now rewrite (IH Ha).
Qed.

Lemma split_links_text (p : ProgressRecord) :
  split_slash (links_text p) =
  [str_of_nat (present_link_count p); str_of_nat (selected_link_count p)].
Proof.
  unfold links_text.
  change ("/" ++ str_of_nat (selected_link_count p))
    with (String "/"%char (str_of_nat (selected_link_count p))).
  rewrite split_slash_app by apply string_of_uint_no_slash.
  now rewrite split_slash_free by apply string_of_uint_no_slash.
Qed.

(** X19.  The figure shown after "Missing:" in a recommendation is the
    number of selected kinds minus 2, whatever the record: the ['Links']
    text always splits in two at its slash.  For a scored record it is the
    number of links actually missing only when exactly two links are
    present. *)
Theorem missing_shown_is_selected_minus_two
    (m : Match) (sel : list string) (r : ProgressRecord) :
  score m sel = Ok r ->
  missing_shown sel r = (Z.of_nat (length sel) - 2)%Z /\
  (missing_shown sel r
   = Z.of_nat (selected_link_count r - present_link_count r)
   <-> present_link_count r = 2%nat).
Proof.
  intros H. apply score_scored_record in H as (_ & Ht & Hle & _).
  unfold missing_shown. rewrite split_links_text. simpl length.
  split; [reflexivity|]. rewrite <- Ht. lia.
Qed.

Lemma missing_shown_is_selected_minus_two_witness :
  exists r,
    score (mkMatch orders_row (orders_element []))
      ["repository"; "logs"; "APM"; "openAPI"; "monitor"; "dashboard"] = Ok r /\
    present_link_count r = 1%nat /\
    missing_shown ["repository"; "logs"; "APM"; "openAPI"; "monitor"; "dashboard"]
      r = 4%Z.
Proof.
  eexists. split; [reflexivity|]. split; [reflexivity|].
  exact (proj1 (missing_shown_is_selected_minus_two
                  (mkMatch orders_row (orders_element []))
                  ["repository"; "logs"; "APM"; "openAPI"; "monitor"; "dashboard"]
                  _ eq_refl)).
Defined.
